(** * mp4mux: fragmented-MP4 muxer of rtmp.js (src/mp4mux.ts)

    A shallow embedding of [RtmpJs.MP4]: the box encoder ([hex], [flatten],
    [encodeInt32], [tag], ...), the two packet parsers, the [MP4Mux] class
    (constructor, [pushPacket], [flush], [generateHeader], [_chunk]) and the
    properties of the muxer that its specification states.

    Conventions of the embedding.
    - A [Uint8Array] is a [list Z]; every element the code stores is
      reduced to 0..255 the way a typed array does it.
    - A JavaScript number that the code uses as an integer (lengths,
      counters, file position, accumulated duration) is a [Z]; the 32-bit
      wrap-around of [>>], [<<], [&] and [|] is written out ([JS.wrap32]).
      These integers stay far below 2^53, where doubles are exact.
    - A number that may be fractional or absent (sample rate, time scale,
      frame rate, width, height, time stamps) is an IEEE-754 binary64 value,
      [JS.number]; [undefined] coerces to NaN as [+x] and arithmetic do.
    - [throw] is the [Throw] result; the instance is not used after a throw,
      so no state is returned with it.
    - [ondata] is modelled as an installed sink that records each buffer it
      is called with, in call order, in the field [emitted]. *)

From Stdlib Require Import QArith Qround.
From Stdlib Require Import String Ascii ZArith Bool Lia List.
From Stdlib Require Import Floats.SpecFloat.
Import ListNotations.
Local Open Scope Z_scope.

(** ** JavaScript numbers and 32-bit integer operators *)

Module JS.

(** IEEE-754 binary64, the only number type of the language. *)
Definition number := spec_float.
Definition prec : Z := 53.
Definition emax : Z := 1024.

Definition of_Z (z : Z) : number := binary_normalize prec emax z 0 false.
Definition NaN : number := S754_nan.
Definition div (x y : number) : number := SFdiv prec emax x y.
Definition mul (x y : number) : number := SFmul prec emax x y.

(** The integer part of a number, rounding toward zero; NaN, the zeros and
    the infinities give 0 (ToInt32 steps 2 and 3). *)
Definition trunc (x : number) : Z :=
  match x with
  | S754_finite s m e =>
      let a := if 0 <=? e then Z.shiftl (Z.pos m) e
               else Z.shiftr (Z.pos m) (- e) in
      if s then - a else a
  | _ => 0
  end.

(** Reduction modulo 2^32 into the signed range. *)
Definition wrap32 (z : Z) : Z := (z + 2 ^ 31) mod 2 ^ 32 - 2 ^ 31.

Definition ToInt32 (x : number) : Z := wrap32 (trunc x).

(** The mathematical floor of a finite number; none for NaN and the
    infinities. *)
Definition floor (x : number) : option Z :=
  match x with
  | S754_zero _ => Some 0
  | S754_finite s m e =>
      let v := if s then Z.neg m else Z.pos m in
      Some (if 0 <=? e then v * 2 ^ e else v / 2 ^ (- e))
  | _ => None
  end.

(** [x >> n], [x << n], [x & y], [x | y] on integer-valued operands. *)
Definition sar (x n : Z) : Z := Z.shiftr (wrap32 x) n.
Definition shl (x n : Z) : Z := wrap32 (Z.shiftl (wrap32 x) n).
Definition band (x y : Z) : Z := Z.land (wrap32 x) (wrap32 y).
Definition bor (x y : Z) : Z := Z.lor (wrap32 x) (wrap32 y).

(** An element read from a typed array or a string: [undefined] (or NaN)
    when the index is out of range; both are 0 under a bitwise operator. *)
Definition int_of (v : option Z) : Z :=
  match v with Some z => z | None => 0 end.

End JS.

Definition Uint8Array := list Z.

(** [data[i]] *)
Definition at_ (data : Uint8Array) (i : nat) : option Z := nth_error data i.

(** [data.subarray(i)] *)
Definition subarray (data : Uint8Array) (i : nat) : Uint8Array := skipn i data.

Definition len (data : Uint8Array) : Z := Z.of_nat (List.length data).

(** ** Errors *)

Inductive JsError :=
| BadTagName (name : string)              (* 'bad tag name: ' + name *)
| BadTagLength                            (* 'bad tag length' *)
| UnsupportedAudioCodec (d : option string) (* 'unsupported audio codec: ' *)
| UnsupportedVideoCodec (d : option string) (* 'unsupported video codec: ' *)
| UnknownPacketType (type : Z)            (* 'unknown packet type: ' + type *)
| NotSupportedTrackType                   (* 'not supported track type' *)
| UnsupportedCodec                        (* 'unsupported codec' *)
| ConfigAudioCodec                        (* constructor: 'unsupported audio codec: ' *)
| ConfigVideoCodec                        (* constructor: 'unsupported video codec: ' *)
| TypeError.                              (* property read on undefined *)

Inductive result (A : Type) :=
| Ok (a : A)
| Throw (e : JsError).
Arguments Ok {A} a.
Arguments Throw {A} e.

Definition bind {A B} (r : result A) (k : A -> result B) : result B :=
  match r with
  | Ok a => k a
  | Throw e => Throw e
  end.

Notation "x <- e ;; k" := (bind e (fun x => k))
  (at level 61, e at next level, right associativity).

(** The error kinds the specification names (section 7). A [TypeError] is
    none of them. *)
Inductive ErrorKind :=
| UnsupportedCodecError
| UnknownPacketTypeError
| FormatError
| ConfigurationError.

Definition kind_of (e : JsError) : option ErrorKind :=
  match e with
  | BadTagName _ | BadTagLength => Some FormatError
  | UnsupportedAudioCodec _ | UnsupportedVideoCodec _
  | NotSupportedTrackType | UnsupportedCodec => Some UnsupportedCodecError
  | UnknownPacketType _ => Some UnknownPacketTypeError
  | ConfigAudioCodec | ConfigVideoCodec => Some ConfigurationError
  | TypeError => None
  end.

(** ** Box encoder *)

Definition charCode (c : ascii) : Z := Z.of_N (N_of_ascii c).

Definition hexDigit (c : ascii) : option Z :=
  let n := charCode c in
  if (48 <=? n) && (n <=? 57) then Some (n - 48)
  else if (65 <=? n) && (n <=? 70) then Some (n - 55)
  else if (97 <=? n) && (n <=? 102) then Some (n - 87)
  else None.

(** [parseInt(s.substr(i * 2, 2), 16)] stored in a byte: NaN is stored
    as 0, and parsing stops at the first character that is no digit. Every
    literal the source passes to [hex] consists of hexadecimal digits; the
    blanks, the sign and the 0x prefix that [parseInt] would skip are not
    modelled. *)
Definition parseInt16 (c1 c2 : ascii) : Z :=
  match hexDigit c1 with
  | None => 0
  | Some a => match hexDigit c2 with
              | None => a
              | Some b => 16 * a + b
              end
  end.

Fixpoint hex (s : string) : Uint8Array :=
  match s with
  | String c1 (String c2 r) => parseInt16 c1 c2 :: hex r
  | _ => []
  end.

(** The values [flatten] accepts: a byte buffer, a number, a string, or an
    array of such values. *)
#[warnings="-register-all"] Inductive jsval :=
| Bytes (b : Uint8Array)
| Num (n : Z)
| Str (s : string)
| Arr (l : list jsval).

Definition strBytes (s : string) : Uint8Array :=
  map (fun c => Z.land (charCode c) 255) (list_ascii_of_string s).

Fixpoint flatten (arr : jsval) : Uint8Array :=
  match arr with
  | Bytes b => b
  | Num n => [n mod 256]
  | Str s => strBytes s
  | Arr l => concat (map flatten l)
  end.

Definition encodeInt32 (n : Z) : Uint8Array :=
  [JS.band (JS.sar n 24) 255; JS.band (JS.sar n 16) 255;
   JS.band (JS.sar n 8) 255; JS.band n 255].

Definition encodeUint16 (n : Z) : Uint8Array :=
  [JS.band (JS.sar n 8) 255; JS.band n 255].

Definition encodeFloat (n : JS.number) : Uint8Array :=
  encodeInt32 (JS.ToInt32 (JS.mul n (JS.of_Z 65536))).

Definition encodeFloat16 (n : JS.number) : Uint8Array :=
  encodeUint16 (JS.ToInt32 (JS.mul n (JS.of_Z 256))).

(** [s.charCodeAt(i)]: NaN past the end, which [&] reads as 0. *)
Definition charCodeAt (s : string) (i : nat) : option Z :=
  option_map charCode (String.get i s).

Definition encodeLang (s : string) : Uint8Array :=
  encodeUint16
    (JS.bor (JS.bor (JS.shl (JS.band (JS.int_of (charCodeAt s 0)) 0x1F) 10)
                    (JS.shl (JS.band (JS.int_of (charCodeAt s 1)) 0x1F) 5))
            (JS.band (JS.int_of (charCodeAt s 2)) 0x1F)).

Definition strlen (s : string) : Z := Z.of_nat (String.length s).

Definition tag (name : string) (data : jsval) : result Uint8Array :=
  if negb (strlen name =? 4) then Throw (BadTagName name)
  else
    let data := flatten data in
    let n := 8 + len data in
    if n >? 0x7FFFFFFF then Throw BadTagLength
    else Ok (flatten (Arr [Bytes (encodeInt32 n); Str name; Bytes data])).

(** ** Packet parsers *)

Definition SOUNDRATES : list Z := [5500; 11025; 22050; 44100].
Definition SOUNDFORMATS : list (option string) :=
  [Some "PCM"; Some "ADPCM"; Some "MP3"; Some "PCM le"; Some "Nellymouser16";
   Some "Nellymouser8"; Some "Nellymouser"; Some "G.711 A-law";
   Some "G.711 mu-law"; None; Some "AAC"; Some "Speex"; Some "MP3 8khz"]%string.
Definition MP3_SOUND_CODEC_ID : Z := 2.
Definition AAC_SOUND_CODEC_ID : Z := 10.

(** [arr[i]] of a table of descriptions: [null] and [undefined] are both
    [None]. *)
Definition description (table : list (option string)) (i : Z) : option string :=
  match nth_error table (Z.to_nat i) with
  | Some d => d
  | None => None
  end.

Module AudioPacket.
Record t := {
  codecDescription : option string;
  codecId : Z;
  data : Uint8Array;
  rate : Z;
  size : Z;
  channels : Z;
  samples : option Z;      (* undefined unless AAC or MP3 *)
  packetType : option Z    (* undefined unless AAC, or when byte 1 is missing *)
}.
End AudioPacket.

Definition parseAudiodata (data : Uint8Array) : AudioPacket.t :=
  let b0 := JS.int_of (at_ data 0) in
  let codecId := JS.sar b0 4 in
  let codecDescription := description SOUNDFORMATS codecId in
  let rate := nth (Z.to_nat (JS.band (JS.sar b0 2) 3)) SOUNDRATES 0 in
  let size := if JS.band b0 2 =? 0 then 8 else 16 in
  let channels := if JS.band b0 1 =? 0 then 1 else 2 in
  if codecId =? AAC_SOUND_CODEC_ID then
    {| AudioPacket.codecDescription := codecDescription;
       AudioPacket.codecId := codecId;
       AudioPacket.data := subarray data 2;
       AudioPacket.rate := rate;
       AudioPacket.size := size;
       AudioPacket.channels := channels;
       AudioPacket.samples := Some 1024;
       AudioPacket.packetType := at_ data 1 |}
  else if codecId =? MP3_SOUND_CODEC_ID then
    let version := JS.band (JS.sar (JS.int_of (at_ data 2)) 3) 3 in
    let layer := JS.band (JS.sar (JS.int_of (at_ data 2)) 1) 3 in
    {| AudioPacket.codecDescription := codecDescription;
       AudioPacket.codecId := codecId;
       AudioPacket.data := subarray data 1;
       AudioPacket.rate := rate;
       AudioPacket.size := size;
       AudioPacket.channels := channels;
       AudioPacket.samples :=
         Some (if layer =? 1 then (if version =? 3 then 1152 else 576)
               else (if layer =? 3 then 384 else 1152));
       AudioPacket.packetType := None |}
  else
    {| AudioPacket.codecDescription := codecDescription;
       AudioPacket.codecId := codecId;
       AudioPacket.data := subarray data 1;
       AudioPacket.rate := rate;
       AudioPacket.size := size;
       AudioPacket.channels := channels;
       AudioPacket.samples := None;
       AudioPacket.packetType := None |}.

Definition VIDEOCODECS : list (option string) :=
  [None; Some "JPEG"; Some "Sorenson"; Some "Screen"; Some "VP6";
   Some "VP6 alpha"; Some "Screen2"; Some "AVC"]%string.
Definition VP6_VIDEO_CODEC_ID : Z := 4.
Definition AVC_VIDEO_CODEC_ID : Z := 7.

Module VideoPacket.
Record t := {
  frameType : Z;
  codecId : Z;
  codecDescription : option string;
  data : Uint8Array;
  packetType : option Z;        (* AVC only *)
  compositionTime : option Z;   (* AVC only *)
  horizontalOffset : option Z;  (* VP6 only *)
  verticalOffset : option Z     (* VP6 only *)
}.
End VideoPacket.

Definition parseVideodata (data : Uint8Array) : VideoPacket.t :=
  let b0 := JS.int_of (at_ data 0) in
  let frameType := JS.sar b0 4 in
  let codecId := JS.band b0 15 in
  let codecDescription := description VIDEOCODECS codecId in
  if codecId =? AVC_VIDEO_CODEC_ID then
    {| VideoPacket.frameType := frameType;
       VideoPacket.codecId := codecId;
       VideoPacket.codecDescription := codecDescription;
       VideoPacket.data := subarray data 5;
       VideoPacket.packetType := at_ data 1;
       VideoPacket.compositionTime :=
         Some (JS.sar (JS.bor (JS.bor (JS.shl (JS.int_of (at_ data 2)) 24)
                                      (JS.shl (JS.int_of (at_ data 3)) 16))
                              (JS.shl (JS.int_of (at_ data 4)) 8)) 8);
       VideoPacket.horizontalOffset := None;
       VideoPacket.verticalOffset := None |}
  else if codecId =? VP6_VIDEO_CODEC_ID then
    {| VideoPacket.frameType := frameType;
       VideoPacket.codecId := codecId;
       VideoPacket.codecDescription := codecDescription;
       VideoPacket.data := subarray data 2;
       VideoPacket.packetType := None;
       VideoPacket.compositionTime := None;
       VideoPacket.horizontalOffset :=
         Some (JS.band (JS.sar (JS.int_of (at_ data 1)) 4) 15);
       VideoPacket.verticalOffset := Some (JS.band (JS.int_of (at_ data 1)) 15) |}
  else
    {| VideoPacket.frameType := frameType;
       VideoPacket.codecId := codecId;
       VideoPacket.codecDescription := codecDescription;
       VideoPacket.data := subarray data 1;
       VideoPacket.packetType := None;
       VideoPacket.compositionTime := None;
       VideoPacket.horizontalOffset := None;
       VideoPacket.verticalOffset := None |}.

Definition AUDIO_PACKET : Z := 8.
Definition VIDEO_PACKET : Z := 9.
Definition MAX_PACKETS_IN_CHUNK : Z := 5.

(** ** Tracks and the muxer state *)

(** [CachedPacket.packet] is of type [any]: an audio or a video packet. A
    field the packet does not have reads as [undefined]. *)
Inductive Packet :=
| Audio (p : AudioPacket.t)
| Video (p : VideoPacket.t).

Definition packet_data (p : Packet) : Uint8Array :=
  match p with
  | Audio a => AudioPacket.data a
  | Video v => VideoPacket.data v
  end.

Definition packet_samples (p : Packet) : option Z :=
  match p with
  | Audio a => AudioPacket.samples a
  | Video _ => None
  end.

Definition packet_frameType (p : Packet) : option Z :=
  match p with
  | Audio _ => None
  | Video v => Some (VideoPacket.frameType v)
  end.

Definition packet_compositionTime (p : Packet) : option Z :=
  match p with
  | Audio _ => None
  | Video v => VideoPacket.compositionTime v
  end.

Record CachedPacket := {
  packet : Packet;
  timestamp : JS.number
}.

Record MP4Track := {
  language : string;
  type : string;
  timescale : JS.number;
  cache : list CachedPacket;
  cachedDuration : Z;
  samplerate : JS.number;   (* NaN when absent *)
  channels : JS.number;
  framerate : JS.number;
  width : JS.number;
  height : JS.number
}.

(** What [ondata] was called with, and from where: [generateHeader] or
    [_chunk]. *)
Inductive Output :=
| Header (b : Uint8Array)
| Fragment (b : Uint8Array).

(** The fields of [MP4Mux]. [metadata] is stored by the constructor and never
    read again, so it is not part of the state. *)
Record MP4Mux := {
  tracks : list MP4Track;
  audioTrackId : Z;
  videoTrackId : Z;
  waitForAdditionalData : bool;
  filePos : Z;
  cachedPackets : Z;
  state : Z;
  chunkIndex : Z;
  emitted : list Output
}.

Definition set_cache (t : MP4Track) (c : list CachedPacket) : MP4Track :=
  {| language := language t; type := type t; timescale := timescale t;
     cache := c; cachedDuration := cachedDuration t;
     samplerate := samplerate t; channels := channels t;
     framerate := framerate t; width := width t; height := height t |}.

Definition set_cachedDuration (t : MP4Track) (d : Z) : MP4Track :=
  {| language := language t; type := type t; timescale := timescale t;
     cache := cache t; cachedDuration := d;
     samplerate := samplerate t; channels := channels t;
     framerate := framerate t; width := width t; height := height t |}.

Definition len_tracks (tracks : list MP4Track) : Z := Z.of_nat (List.length tracks).

(** ** Construction *)

(** A codec id of the metadata: absent, a number (legacy fields) or a sample
    type name (track descriptors). *)
Inductive CodecId :=
| CidUndefined
| CidNumber (n : Z)
| CidString (s : string).

Definition truthy (c : CodecId) : bool :=
  match c with
  | CidUndefined => false
  | CidNumber n => negb (n =? 0)
  | CidString s => negb (s =? EmptyString)%string
  end.

(** [sampletype === id] *)
Definition is_sampletype (sampletype : string) (id : CodecId) : bool :=
  match id with
  | CidString s => (sampletype =? s)%string
  | _ => false
  end.

(** [id !== n] *)
Definition is_not_number (id : CodecId) (n : Z) : bool :=
  match id with
  | CidNumber k => negb (k =? n)
  | _ => true
  end.

(** One entry of [metadata.trackinfo]; [sampletype] is
    [info.sampledescription[0].sampletype]. *)
Record TrackInfo := {
  info_language : string;
  sampletype : string;
  info_timescale : JS.number
}.

(** The numeric fields are given as numbers: what unary [+] and the
    arithmetic of the muxer make of them (NaN when absent). *)
Record Metadata := {
  trackinfo : option (list TrackInfo);
  audiocodecid : CodecId;
  videocodecid : CodecId;
  audiosamplerate : JS.number;
  audiochannels : JS.number;
  videoframerate : JS.number;
  meta_framerate : JS.number;   (* metadata.framerate *)
  meta_width : JS.number;
  meta_height : JS.number
}.

(** [x || d] on numbers: NaN and the zeros are falsy. *)
Definition num_or (x d : JS.number) : JS.number :=
  match x with
  | S754_nan | S754_zero _ => d
  | _ => x
  end.

(** The loop over [metadata.trackinfo]; [i] is the index of the first entry
    of [infos]. *)
Fixpoint trackinfoLoop (metadata : Metadata) (infos : list TrackInfo) (i : Z)
    (acc : list MP4Track * Z * Z) : list MP4Track * Z * Z :=
  match infos with
  | [] => acc
  | info :: rest =>
      let '(tracks, audioTrackId, videoTrackId) := acc in
      let track samplerate channels framerate width height :=
        {| language := info_language info; type := sampletype info;
           timescale := info_timescale info; cache := []; cachedDuration := 0;
           samplerate := samplerate; channels := channels;
           framerate := framerate; width := width; height := height |} in
      if is_sampletype (sampletype info) (audiocodecid metadata) then
        trackinfoLoop metadata rest (i + 1)
          (tracks ++ [track (audiosamplerate metadata) (audiochannels metadata)
                            JS.NaN JS.NaN JS.NaN], i, videoTrackId)
      else if is_sampletype (sampletype info) (videocodecid metadata) then
        trackinfoLoop metadata rest (i + 1)
          (tracks ++ [track JS.NaN JS.NaN (videoframerate metadata)
                            (meta_width metadata) (meta_height metadata)],
           audioTrackId, i)
      else
        trackinfoLoop metadata rest (i + 1)
          (tracks ++ [track JS.NaN JS.NaN JS.NaN JS.NaN JS.NaN],
           audioTrackId, videoTrackId)
  end.

Definition mkMux (tracks : list MP4Track) (audioTrackId videoTrackId : Z)
    (waitForAdditionalData : bool) : MP4Mux :=
  {| tracks := tracks; audioTrackId := audioTrackId;
     videoTrackId := videoTrackId;
     waitForAdditionalData := waitForAdditionalData;
     filePos := 0; cachedPackets := 0; state := 0; chunkIndex := 0;
     emitted := [] |}.

(** [new MP4Mux(metadata)] *)
Definition constructor (metadata : Metadata) : result MP4Mux :=
  match trackinfo metadata with
  | Some infos =>
      let '(tracks, audioTrackId, videoTrackId) :=
        trackinfoLoop metadata infos 0 ([], -1, -1) in
      Ok (mkMux tracks audioTrackId videoTrackId true)
  | None =>
      a <- (if truthy (audiocodecid metadata) then
              if is_not_number (audiocodecid metadata) 2
              then Throw ConfigAudioCodec
              else
                Ok ([{| language := "unk"; type := "mp3";
                        timescale := num_or (audiosamplerate metadata) (JS.of_Z 44100);
                        cache := []; cachedDuration := 0;
                        samplerate := num_or (audiosamplerate metadata) (JS.of_Z 44100);
                        channels := num_or (audiochannels metadata) (JS.of_Z 2);
                        framerate := JS.NaN; width := JS.NaN; height := JS.NaN |}],
                    0)
            else Ok ([], -1)) ;;
      let '(tracks, audioTrackId) := a in
      if truthy (videocodecid metadata) then
        if is_not_number (videocodecid metadata) 4
        then Throw ConfigVideoCodec
        else
          Ok (mkMux
                (tracks ++
                 [{| language := "unk"; type := "vp6f";
                     timescale := JS.of_Z 10000;
                     cache := []; cachedDuration := 0;
                     samplerate := JS.NaN; channels := JS.NaN;
                     framerate := meta_framerate metadata;
                     width := meta_width metadata;
                     height := meta_height metadata |}])
                audioTrackId (len_tracks tracks) false)
      else Ok (mkMux tracks audioTrackId (-1) false)
  end.

(** ** Header generation *)

(** The [switch (trackInfo.type)] of [generateHeader]: the sample entry of
    the track and whether it is an audio track. Reading [cache[0].packet] of
    an empty cache is a [TypeError]. *)
Definition codecInfo (trackInfo : MP4Track) : result (Uint8Array * bool) :=
  if (type trackInfo =? "mp4a")%string then
    match cache trackInfo with
    | [] => Throw TypeError
    | c0 :: _ =>
        let audioSpecificConfig := packet_data (packet c0) in
        esds <- tag "esds"
          (Arr [Bytes (hex "0000000003808080");
                Num (32 + len audioSpecificConfig);
                Bytes (hex "00020004808080");
                Num (18 + len audioSpecificConfig);
                Bytes (hex "40150000000000FA000000000005808080");
                Num (len audioSpecificConfig);
                Bytes audioSpecificConfig;
                Bytes (hex "068080800102")]) ;;
        codecInfo <- tag "mp4a"
          (Arr [Bytes (hex "00000000000000010000000000000000");
                Bytes (encodeUint16 (JS.ToInt32 (channels trackInfo)));
                Bytes (hex "00100000");
                Bytes (encodeInt32 (JS.ToInt32 (samplerate trackInfo)));
                Bytes (hex "0000");
                Bytes esds]) ;;
        Ok (codecInfo, true)
    end
  else if (type trackInfo =? "mp3")%string then
    codecInfo <- tag ".mp3"
      (Arr [Bytes (hex "00000000000000010000000000000000");
            Bytes (encodeUint16 (JS.ToInt32 (channels trackInfo)));
            Bytes (hex "00100000");
            Bytes (encodeInt32 (JS.ToInt32 (samplerate trackInfo)));
            Bytes (hex "0000")]) ;;
    Ok (codecInfo, true)
  else if (type trackInfo =? "avc1")%string then
    match cache trackInfo with
    | [] => Throw TypeError
    | c0 :: _ =>
        (* avcC[5] |= 0xE0; a write past the end of a typed array is dropped *)
        let avcC := packet_data (packet c0) in
        let avcC :=
          match at_ avcC 5 with
          | Some b => firstn 5 avcC ++ JS.bor b 0xE0 mod 256 :: skipn 6 avcC
          | None => avcC
          end in
        avcCBox <- tag "avcC" (Bytes avcC) ;;
        codecInfo <- tag "avc1"
          (Arr [Bytes (hex "000000000000000100000000000000000000000000000000");
                Bytes (encodeUint16 (JS.ToInt32 (width trackInfo)));
                Bytes (encodeUint16 (JS.ToInt32 (height trackInfo)));
                Bytes (hex "004800000048000000000000000100000000000000000000000000000000000000000000000000000000000000000018FFFF");
                Bytes avcCBox]) ;;
        Ok (codecInfo, false)
    end
  else if (type trackInfo =? "vp6f")%string then
    glbl <- tag "glbl" (Arr [Bytes (hex "00")]) ;;
    codecInfo <- tag "VP6F"
      (Arr [Bytes (hex "000000000000000100000000000000000000000000000000");
            Bytes (encodeUint16 (JS.ToInt32 (width trackInfo)));
            Bytes (encodeUint16 (JS.ToInt32 (height trackInfo)));
            Bytes (hex "004800000048000000000000000100000000000000000000000000000000000000000000000000000000000000000018FFFF");
            Bytes glbl]) ;;
    Ok (codecInfo, false)
  else Throw NotSupportedTrackType.

Definition STBL_TAIL : Uint8Array :=
  hex "0000001073747473000000000000000000000010737473630000000000000000000000147374737A000000000000000000000000000000107374636F0000000000000000".

(** The body of the loop of [generateHeader] for the track at index [i]:
    its [trak] box. *)
Definition trak (i : Z) (trackInfo : MP4Track) : result Uint8Array :=
  let trackId := i + 1 in
  ci <- codecInfo trackInfo ;;
  let '(codecInfo, isAudio) := ci in
  stsd <- tag "stsd" (Arr [Bytes (hex "0000000000000001"); Bytes codecInfo]) ;;
  stbl <- tag "stbl" (Arr [Bytes stsd; Bytes STBL_TAIL]) ;;
  if isAudio then
    minf <- tag "minf"
      (Arr [Bytes (hex "00000010736D686400000000000000000000002464696E660000001C6472656600000000000000010000000C75726C2000000001");
            Bytes stbl]) ;;
    mdia <- tag "mdia"
      (Arr [Bytes (hex "000000206D6468640000000000000000000000000000");
            Bytes (encodeUint16 (JS.ToInt32 (timescale trackInfo)));
            Bytes (hex "FFFFFFFF");
            Bytes (encodeLang (language trackInfo));
            Bytes (hex "00000000002D68646C720000000000000000736F756E000000000000000000000000536F756E6448616E646C657200");
            Bytes minf]) ;;
    tag "trak"
      (Arr [Bytes (hex "0000005C746B68640000000F0000000000000000");
            Bytes (encodeInt32 trackId);
            Bytes (hex "00000000FFFFFFFF00000000000000000000");
            Bytes (encodeUint16 i);
            Bytes (encodeFloat16 (JS.of_Z 1));
            Bytes (hex "0000000100000000000000000000000000000001000000000000000000000000000040000000");
            Bytes (encodeFloat (JS.of_Z 0));
            Bytes (encodeFloat (JS.of_Z 0));
            Bytes mdia])
  else
    minf <- tag "minf"
      (Arr [Bytes (hex "00000014766D68640000000100000000000000000000002464696E660000001C6472656600000000000000010000000C75726C2000000001");
            Bytes stbl]) ;;
    mdia <- tag "mdia"
      (Arr [Bytes (hex "000000206D6468640000000000000000000000000000");
            Bytes (encodeUint16 (JS.ToInt32 (timescale trackInfo)));
            Bytes (hex "FFFFFFFF");
            Bytes (encodeLang (language trackInfo));
            Bytes (hex "00000000002D68646C72000000000000000076696465000000000000000000000000566964656F48616E646C657200");
            Bytes minf]) ;;
    tag "trak"
      (Arr [Bytes (hex "0000005C746B68640000000F0000000000000000");
            Bytes (encodeInt32 trackId);
            Bytes (hex "00000000FFFFFFFF00000000000000000000");
            Bytes (encodeUint16 i);
            Bytes (encodeFloat16 (JS.of_Z 0));
            Bytes (hex "0000000100000000000000000000000000000001000000000000000000000000000040000000");
            Bytes (encodeFloat (width trackInfo));
            Bytes (encodeFloat (height trackInfo));
            Bytes mdia]).

(** The loop of [generateHeader] from index [i] on: the [trak] boxes, in
    track order; it stops at the first track that throws. *)
Fixpoint traks (i : Z) (tracks : list MP4Track) : result (list Uint8Array) :=
  match tracks with
  | [] => Ok []
  | trackInfo :: rest =>
      t <- trak i trackInfo ;;
      ts <- traks (i + 1) rest ;;
      Ok (t :: ts)
  end.

Definition FTYP : Uint8Array :=
  hex "000000206674797069736F6D0000020069736F6D69736F32617663316D703431".
Definition MVEX_AND_UDAT : Uint8Array :=
  hex "000000486D7665780000002074726578000000000000000100000001000000000000000000000000000000207472657800000000000000020000000100000000000000000000000000000062756474610000005A6D657461000000000000002168646C7200000000000000006D6469726170706C0000000000000000000000002D696C737400000025A9746F6F0000001D6461746100000001000000004C61766635342E36332E313034".
Definition MVHD : Uint8Array :=
  hex "0000006C6D766864000000000000000000000000000003E80000000000010000010000000000000000000000000100000000000000000000000000000001000000000000000000000000000040000000000000000000000000000000000000000000000000000000".

Definition generateHeader (this : MP4Mux) : result MP4Mux :=
  ts <- traks 0 (tracks this) ;;
  let moovHeader := Arr [Bytes MVHD; Bytes (encodeInt32 (len_tracks (tracks this)))] in
  moov <- tag "moov" (Arr [moovHeader; Arr (map Bytes ts); Bytes MVEX_AND_UDAT]) ;;
  let header := flatten (Arr [Bytes FTYP; Bytes moov]) in
  Ok {| tracks := map (fun t => set_cache t []) (tracks this);
        audioTrackId := audioTrackId this;
        videoTrackId := videoTrackId this;
        waitForAdditionalData := waitForAdditionalData this;
        filePos := filePos this + len header;
        cachedPackets := 0;
        state := 1;
        chunkIndex := chunkIndex this;
        emitted := emitted this ++ [Header header] |}.

(** ** Fragment generation *)

(** [audioPacket.samples] as an operand of [/]: NaN when undefined. *)
Definition samples_number (p : Packet) : JS.number :=
  match packet_samples p with
  | Some n => JS.of_Z n
  | None => JS.NaN
  end.

(** [(audioPacket.samples / trackInfo.samplerate * trackInfo.timescale) | 0] *)
Definition audioFrameDuration (trackInfo : MP4Track) (p : Packet) : Z :=
  JS.ToInt32 (JS.mul (JS.div (samples_number p) (samplerate trackInfo))
                     (timescale trackInfo)).

(** [(trackInfo.timescale / trackInfo.framerate) | 0] *)
Definition videoFrameDuration (trackInfo : MP4Track) : Z :=
  JS.ToInt32 (JS.div (timescale trackInfo) (framerate trackInfo)).

(** [(trackInfo.cache[0].timestamp * trackInfo.timescale / 1000) | 0]: the
    value [_chunk] computes and, since the line using it is commented out,
    never uses. *)
Definition currentTrackTime (trackInfo : MP4Track) : Z :=
  match cache trackInfo with
  | [] => 0
  | c0 :: _ =>
      JS.ToInt32 (JS.div (JS.mul (timestamp c0) (timescale trackInfo))
                         (JS.of_Z 1000))
  end.

(** What the first loop of [_chunk] collects for one track with a non-empty
    cache: the entry of [trafParts], of [tfdts] and of [tdatParts], and
    [totalDuration]. *)
Record TrafPart := {
  tfhd : Uint8Array;
  tfdt : Uint8Array;
  trunHead : Uint8Array;
  trunTail : Uint8Array;
  tdat : Uint8Array;
  totalDuration : Z
}.

Definition sumZ (l : list Z) : Z := fold_right Z.add 0 l.

Definition audioTrunTail (trackInfo : MP4Track) : Uint8Array :=
  flatten (Arr (Bytes (hex "02000000") ::
    flat_map (fun c =>
      [Bytes (encodeInt32 (audioFrameDuration trackInfo (packet c)));
       Bytes (encodeInt32 (len (packet_data (packet c))))])
      (cache trackInfo))).

Definition videoTrunTail (trackInfo : MP4Track) : Uint8Array :=
  let firstFrameFlags :=
    match cache trackInfo with
    | c0 :: _ =>
        match packet_frameType (packet c0) with
        | Some 1 => hex "02000000"
        | _ => hex "01010000"
        end
    | [] => hex "01010000"
    end in
  flatten (Arr (Bytes firstFrameFlags ::
    flat_map (fun c =>
      [Bytes (encodeInt32 (len (packet_data (packet c))));
       Bytes (encodeInt32 (JS.int_of (packet_compositionTime (packet c))))])
      (cache trackInfo))).

Definition tdatOf (trackInfo : MP4Track) : Uint8Array :=
  flatten (Arr (map (fun c => Bytes (packet_data (packet c))) (cache trackInfo))).

Definition cacheLength (trackInfo : MP4Track) : Z :=
  Z.of_nat (List.length (cache trackInfo)).

(** The body of the first loop of [_chunk] for the track at index [i], whose
    cache is not empty. *)
Definition trafPart (i : Z) (trackInfo : MP4Track) : result TrafPart :=
  let trackId := i + 1 in
  tfdt <- tag "tfdt" (Arr [Bytes (hex "00000000");
                           Bytes (encodeInt32 (cachedDuration trackInfo))]) ;;
  if ((type trackInfo =? "mp4a") || (type trackInfo =? "mp3"))%string then
    let trun1head := flatten (Arr [Bytes (hex "00000305");
                                   Bytes (encodeInt32 (cacheLength trackInfo))]) in
    tfhd1 <- tag "tfhd" (Arr [Bytes (hex "00020038");
                              Bytes (encodeInt32 trackId);
                              Bytes (hex "000004000000001A02000000")]) ;;
    Ok {| tfhd := tfhd1; tfdt := tfdt;
          trunHead := trun1head;
          trunTail := audioTrunTail trackInfo;
          tdat := tdatOf trackInfo;
          totalDuration :=
            sumZ (map (fun c => audioFrameDuration trackInfo (packet c))
                      (cache trackInfo)) |}
  else if ((type trackInfo =? "avc1") || (type trackInfo =? "vp6f"))%string then
    let trun2head := flatten (Arr [Bytes (hex "00000A05");
                                   Bytes (encodeInt32 (cacheLength trackInfo))]) in
    tfhd2 <- tag "tfhd" (Arr [Bytes (hex "00020038");
                              Bytes (encodeInt32 trackId);
                              Bytes (encodeInt32 (videoFrameDuration trackInfo));
                              Bytes (hex "0000127B01010000")]) ;;
    Ok {| tfhd := tfhd2; tfdt := tfdt;
          trunHead := trun2head;
          trunTail := videoTrunTail trackInfo;
          tdat := tdatOf trackInfo;
          totalDuration := cacheLength trackInfo * videoFrameDuration trackInfo |}
  else Throw UnsupportedCodec.

(** The first loop of [_chunk] from index [i] on: the parts of the tracks
    that contribute, in track order, and the tracks as the loop leaves them
    ([cachedDuration] advanced, cache emptied). *)
Fixpoint trafParts (i : Z) (tracks : list MP4Track)
    : result (list TrafPart * list MP4Track) :=
  match tracks with
  | [] => Ok ([], [])
  | trackInfo :: rest =>
      match cache trackInfo with
      | [] =>
          r <- trafParts (i + 1) rest ;;
          Ok (fst r, trackInfo :: snd r)
      | _ :: _ =>
          part <- trafPart i trackInfo ;;
          r <- trafParts (i + 1) rest ;;
          Ok (part :: fst r,
              set_cache (set_cachedDuration trackInfo
                           (cachedDuration trackInfo + totalDuration part)) []
              :: snd r)
      end
  end.

(** [moofLength] after the first loop. *)
Definition moofLengthOf (moofHeader : Uint8Array) (parts : list TrafPart) : Z :=
  fold_left (fun n part =>
               n + (8 + len (tfhd part) + 8 + len (trunHead part) + 16 + 4
                    + len (trunTail part)))
            parts (8 + len moofHeader + 8).

(** The second loop of [_chunk]: one [traf] box per part, each [trun]
    carrying the offset of its data from the start of the [moof] box. *)
Fixpoint trafs (parts : list TrafPart) (tdatOffset : Z)
    : result (list Uint8Array) :=
  match parts with
  | [] => Ok []
  | part :: rest =>
      trun <- tag "trun" (Arr [Bytes (trunHead part);
                               Bytes (encodeInt32 tdatOffset);
                               Bytes (trunTail part)]) ;;
      traf <- tag "traf" (Arr [Bytes (tfhd part); Bytes (tfdt part); Bytes trun]) ;;
      r <- trafs rest (tdatOffset + len (tdat part)) ;;
      Ok (traf :: r)
  end.

Definition _chunk (this : MP4Mux) : result MP4Mux :=
  let chunkIndex := chunkIndex this + 1 in
  let moofHeader := flatten (Arr [Bytes (hex "000000106D66686400000000");
                                  Bytes (encodeInt32 chunkIndex)]) in
  r <- trafParts 0 (tracks this) ;;
  let '(parts, tracks) := r in
  let moofLength := moofLengthOf moofHeader parts in
  moofParts <- trafs parts moofLength ;;
  moof <- tag "moof" (Arr (Bytes moofHeader :: map Bytes moofParts)) ;;
  mdat <- tag "mdat" (Arr (map (fun part => Bytes (tdat part)) parts)) ;;
  let chunk := flatten (Arr [Bytes moof; Bytes mdat]) in
  Ok {| tracks := tracks;
        audioTrackId := audioTrackId this;
        videoTrackId := videoTrackId this;
        waitForAdditionalData := waitForAdditionalData this;
        filePos := filePos this + len chunk;
        cachedPackets := 0;
        state := state this;
        chunkIndex := chunkIndex;
        emitted := emitted this ++ [Fragment chunk] |}.

(** ** Packet intake and flush *)

(** [this.tracks[id]] *)
Definition trackAt (tracks : list MP4Track) (id : Z) : option MP4Track :=
  if id <? 0 then None else nth_error tracks (Z.to_nat id).

Fixpoint pushAt (tracks : list MP4Track) (n : nat) (c : CachedPacket)
    : list MP4Track :=
  match tracks, n with
  | [], _ => []
  | t :: rest, O => set_cache t (cache t ++ [c]) :: rest
  | t :: rest, S n => t :: pushAt rest n c
  end.

(** [this.tracks[id].cache.push(c); this.cachedPackets++] *)
Definition cachePush (this : MP4Mux) (id : Z) (c : CachedPacket)
    : result MP4Mux :=
  match trackAt (tracks this) id with
  | None => Throw TypeError
  | Some _ =>
      Ok {| tracks := pushAt (tracks this) (Z.to_nat id) c;
            audioTrackId := audioTrackId this;
            videoTrackId := videoTrackId this;
            waitForAdditionalData := waitForAdditionalData this;
            filePos := filePos this;
            cachedPackets := cachedPackets this + 1;
            state := state this;
            chunkIndex := chunkIndex this;
            emitted := emitted this |}
  end.

(** [x !== 0] for a byte that may be [undefined]. *)
Definition is_not_zero (x : option Z) : bool :=
  match x with
  | Some 0 => false
  | _ => true
  end.

(** [pushPacket] up to and including the [switch (type)]: the header when it
    is due, the flush before a key frame, the sample into its cache. *)
Definition intake (this : MP4Mux) (type : Z) (data : Uint8Array)
    (timestamp : JS.number) : result MP4Mux :=
  this <- (if (state this =? 0) && negb (waitForAdditionalData this)
           then generateHeader this else Ok this) ;;
  if type =? AUDIO_PACKET then
    let audioPacket := parseAudiodata data in
    this <- (if AudioPacket.codecId audioPacket =? MP3_SOUND_CODEC_ID then
               Ok this
             else if AudioPacket.codecId audioPacket =? AAC_SOUND_CODEC_ID then
               if is_not_zero (AudioPacket.packetType audioPacket)
                  && (state this =? 0)
               then generateHeader this else Ok this
             else
               Throw (UnsupportedAudioCodec
                        (AudioPacket.codecDescription audioPacket))) ;;
    cachePush this (audioTrackId this)
      {| packet := Audio audioPacket; timestamp := timestamp |}
  else if type =? VIDEO_PACKET then
    let videoPacket := parseVideodata data in
    this <- (if VideoPacket.codecId videoPacket =? VP6_VIDEO_CODEC_ID then
               if (VideoPacket.frameType videoPacket =? 1)
                  && negb (cachedPackets this =? 0)
               then _chunk this else Ok this
             else if VideoPacket.codecId videoPacket =? AVC_VIDEO_CODEC_ID then
               this <- (if is_not_zero (VideoPacket.packetType videoPacket)
                           && (state this =? 0)
                        then generateHeader this else Ok this) ;;
               if (VideoPacket.frameType videoPacket =? 1)
                  && negb (cachedPackets this =? 0)
               then _chunk this else Ok this
             else
               Throw (UnsupportedVideoCodec
                        (VideoPacket.codecDescription videoPacket))) ;;
    cachePush this (videoTrackId this)
      {| packet := Video videoPacket; timestamp := timestamp |}
  else Throw (UnknownPacketType type).

Definition pushPacket (this : MP4Mux) (type : Z) (data : Uint8Array)
    (timestamp : JS.number) : result MP4Mux :=
  this <- intake this type data timestamp ;;
  if cachedPackets this >=? MAX_PACKETS_IN_CHUNK then _chunk this else Ok this.

Definition flush (this : MP4Mux) : result MP4Mux :=
  if cachedPackets this >? 0 then _chunk this else Ok this.

(** ** Runs of a muxer *)

Inductive Call :=
| PushPacket (type : Z) (data : Uint8Array) (timestamp : JS.number)
| Flush.

Definition call (this : MP4Mux) (c : Call) : result MP4Mux :=
  match c with
  | PushPacket type data timestamp => pushPacket this type data timestamp
  | Flush => flush this
  end.

(** A series of calls on one instance; it ends at the first call that
    throws. *)
Fixpoint calls (this : MP4Mux) (cs : list Call) : result MP4Mux :=
  match cs with
  | [] => Ok this
  | c :: rest => this <- call this c ;; calls this rest
  end.

(** The states a muxer can be in: those a series of calls that return leads
    to from a constructed instance. *)
Definition reachable (this : MP4Mux) : Prop :=
  exists metadata this0 cs,
    constructor metadata = Ok this0 /\ calls this0 cs = Ok this.

(** The buffers [_chunk] handed to [ondata], in order. *)
Fixpoint fragments (out : list Output) : list Uint8Array :=
  match out with
  | [] => []
  | Header _ :: rest => fragments rest
  | Fragment b :: rest => b :: fragments rest
  end.

Fixpoint headers (out : list Output) : list Uint8Array :=
  match out with
  | [] => []
  | Header b :: rest => b :: headers rest
  | Fragment _ :: rest => headers rest
  end.

(** Reading a box back: the big-endian 32-bit integer of four bytes, and the
    [sequence_number] field of the [mfhd] box that opens a fragment (8 bytes
    of [moof] header, 12 bytes of [mfhd] header and flags). *)
Definition decodeUint32 (b : Uint8Array) : Z :=
  match b with
  | [b3; b2; b1; b0] => b3 * 2 ^ 24 + b2 * 2 ^ 16 + b1 * 2 ^ 8 + b0
  | _ => 0
  end.

Definition sequenceNumber (chunk : Uint8Array) : Uint8Array :=
  firstn 4 (skipn 20 chunk).

(** ** Vocabulary of the properties *)

(** *** The state after each step *)

(** The state [generateHeader] leaves when it returns. *)
Definition afterHeader (this : MP4Mux) (header : Uint8Array) : MP4Mux :=
  {| tracks := map (fun t => set_cache t []) (tracks this);
     audioTrackId := audioTrackId this;
     videoTrackId := videoTrackId this;
     waitForAdditionalData := waitForAdditionalData this;
     filePos := filePos this + len header;
     cachedPackets := 0;
     state := 1;
     chunkIndex := chunkIndex this;
     emitted := emitted this ++ [Header header] |}.

(** The state [_chunk] leaves when it returns. *)
Definition afterChunk (this : MP4Mux) (tracks : list MP4Track)
    (chunk : Uint8Array) : MP4Mux :=
  {| tracks := tracks;
     audioTrackId := audioTrackId this;
     videoTrackId := videoTrackId this;
     waitForAdditionalData := waitForAdditionalData this;
     filePos := filePos this + len chunk;
     cachedPackets := 0;
     state := state this;
     chunkIndex := chunkIndex this + 1;
     emitted := emitted this ++ [Fragment chunk] |}.

(** The state [cachePush] leaves when it returns. *)
Definition afterPush (this : MP4Mux) (id : Z) (c : CachedPacket) : MP4Mux :=
  {| tracks := pushAt (tracks this) (Z.to_nat id) c;
     audioTrackId := audioTrackId this;
     videoTrackId := videoTrackId this;
     waitForAdditionalData := waitForAdditionalData this;
     filePos := filePos this;
     cachedPackets := cachedPackets this + 1;
     state := state this;
     chunkIndex := chunkIndex this;
     emitted := emitted this |}.

(** Everything [pushPacket] and [flush] do to the state is done by three
    primitive steps: the header (only ever asked for in state 0), a
    fragment, and a sample pushed to a cache. *)
Inductive prim : MP4Mux -> MP4Mux -> Prop :=
| prim_header this this' :
    state this = 0 -> generateHeader this = Ok this' -> prim this this'
| prim_chunk this this' :
    _chunk this = Ok this' -> prim this this'
| prim_push this id c this' :
    cachePush this id c = Ok this' -> prim this this'.

Inductive prims : MP4Mux -> MP4Mux -> Prop :=
| prims_nil this : prims this this
| prims_cons this this1 this2 :
    prim this this1 -> prims this1 this2 -> prims this this2.

(** *** Packets and tracks *)

Definition mp3_sample_counts : list (option Z) := [Some 384; Some 576; Some 1152].

(** The packets that make an uninitialized muxer emit its header on the
    deferred path: an AAC or an AVC sample whose packet type is not 0. *)
Definition headerTrigger (type : Z) (data : Uint8Array) : bool :=
  ((type =? AUDIO_PACKET)
   && (AudioPacket.codecId (parseAudiodata data) =? AAC_SOUND_CODEC_ID)
   && is_not_zero (AudioPacket.packetType (parseAudiodata data)))
  || ((type =? VIDEO_PACKET)
      && (VideoPacket.codecId (parseVideodata data) =? AVC_VIDEO_CODEC_ID)
      && is_not_zero (VideoPacket.packetType (parseVideodata data))).

(** The in-band configuration samples: AAC or AVC with packet type 0. *)
Definition configSample (type : Z) (data : Uint8Array) : bool :=
  ((type =? AUDIO_PACKET)
   && (AudioPacket.codecId (parseAudiodata data) =? AAC_SOUND_CODEC_ID)
   && negb (is_not_zero (AudioPacket.packetType (parseAudiodata data))))
  || ((type =? VIDEO_PACKET)
      && (VideoPacket.codecId (parseVideodata data) =? AVC_VIDEO_CODEC_ID)
      && negb (is_not_zero (VideoPacket.packetType (parseVideodata data)))).

(** A video envelope of a supported codec that is no key frame. *)
Definition interVideo (data : Uint8Array) : bool :=
  ((VideoPacket.codecId (parseVideodata data) =? VP6_VIDEO_CODEC_ID)
   || (VideoPacket.codecId (parseVideodata data) =? AVC_VIDEO_CODEC_ID))
  && negb (VideoPacket.frameType (parseVideodata data) =? 1).

Definition videoSample (data : Uint8Array) (ts : JS.number) : CachedPacket :=
  {| packet := Video (parseVideodata data); timestamp := ts |}.

(** The sample [pushPacket] caches for a packet of type 8 or 9. *)
Definition sampleOf (type : Z) (data : Uint8Array) (ts : JS.number)
    : CachedPacket :=
  if type =? AUDIO_PACKET
  then {| packet := Audio (parseAudiodata data); timestamp := ts |}
  else {| packet := Video (parseVideodata data); timestamp := ts |}.

(** The index of the track a packet of type 8 or 9 goes to. *)
Definition trackIdOf (this : MP4Mux) (type : Z) : Z :=
  if type =? AUDIO_PACKET then audioTrackId this else videoTrackId this.

(** A video packet whose frame type is 1, a key frame. *)
Definition keyFlagged (type : Z) (data : Uint8Array) : bool :=
  (type =? VIDEO_PACKET)
  && (VideoPacket.frameType (parseVideodata data) =? 1).

Definition supportedAudio (data : Uint8Array) : Prop :=
  AudioPacket.codecId (parseAudiodata data) = MP3_SOUND_CODEC_ID \/
  AudioPacket.codecId (parseAudiodata data) = AAC_SOUND_CODEC_ID.

Definition supportedVideo (data : Uint8Array) : Prop :=
  VideoPacket.codecId (parseVideodata data) = VP6_VIDEO_CODEC_ID \/
  VideoPacket.codecId (parseVideodata data) = AVC_VIDEO_CODEC_ID.

(** The track types of the legacy configuration. *)
Definition legacyType (t : MP4Track) : Prop :=
  type t = "mp3"%string \/ type t = "vp6f"%string.

(** The tracks whose sample entry is built from the first cached sample. *)
Definition needsConfig (t : MP4Track) : bool :=
  ((type t =? "mp4a") || (type t =? "avc1"))%string.

Definition isAudioTrack (t : MP4Track) : bool :=
  ((type t =? "mp4a") || (type t =? "mp3"))%string.

Definition isVideoTrack (t : MP4Track) : bool :=
  ((type t =? "avc1") || (type t =? "vp6f"))%string.

(** *** Invariants of a run *)

(** The number of samples waiting in the caches. *)
Definition pendingCount (tracks : list MP4Track) : Z :=
  sumZ (map cacheLength tracks).

(** The samples waiting in the caches, in track order. *)
Definition pending (this : MP4Mux) : list CachedPacket :=
  flat_map cache (tracks this).

(** The number of payload bytes waiting in the caches. *)
Definition payloadBytes (tracks : list MP4Track) : Z :=
  sumZ (map (fun t => len (tdatOf t)) tracks).

Record Inv (this : MP4Mux) : Prop := {
  inv_state : state this = 0 \/ state this = 1;
  inv_headers :
    List.length (headers (emitted this)) = Z.to_nat (state this);
  inv_chunkIndex :
    chunkIndex this = Z.of_nat (List.length (fragments (emitted this)));
  inv_sequence :
    map sequenceNumber (fragments (emitted this)) =
    map (fun k => encodeInt32 (Z.of_nat k))
        (seq 1 (List.length (fragments (emitted this))));
  inv_pending : cachedPackets this = pendingCount (tracks this)
}.

(** A muxer as the constructor returns it. *)
Record Fresh (this : MP4Mux) : Prop := {
  fresh_state : state this = 0;
  fresh_emitted : emitted this = [];
  fresh_cachedPackets : cachedPackets this = 0;
  fresh_chunkIndex : chunkIndex this = 0;
  fresh_filePos : filePos this = 0;
  fresh_caches : Forall (fun t => cache t = []) (tracks this)
}.

(** An initialized muxer with a video track, tracks of the legacy types,
    [k] samples pending and [bytes] bytes of payload in them. *)
Record Ready (this : MP4Mux) (k bytes : Z) : Prop := {
  ready_state : state this = 1;
  ready_track : exists t, trackAt (tracks this) (videoTrackId this) = Some t;
  ready_types : Forall legacyType (tracks this);
  ready_cachedPackets : cachedPackets this = k;
  ready_pending : pendingCount (tracks this) = k;
  ready_payload : payloadBytes (tracks this) = bytes
}.

(** *** Boxes, fragments and durations *)

(** The buffer [tag] returns when it returns. *)
Definition box (name : string) (payload : Uint8Array) : Uint8Array :=
  encodeInt32 (8 + len payload) ++ strBytes name ++ payload.

Definition moofHeaderOf (chunkIndex : Z) : Uint8Array :=
  flatten (Arr [Bytes (hex "000000106D66686400000000");
                Bytes (encodeInt32 chunkIndex)]).

(** The sizes of what a track contributes. *)
Definition fitting (t : MP4Track) (part : TrafPart) : Prop :=
  len (tfhd part) = 28 /\ len (tfdt part) = 16 /\ len (trunHead part) = 8 /\
  len (trunTail part) = 4 + 8 * cacheLength t /\ tdat part = tdatOf t.

(** What the parts of a fragment add up to. *)
Definition trafBytes (parts : list TrafPart) : Z :=
  sumZ (map (fun part => 72 + len (trunTail part)) parts).

Definition tdatBytes (parts : list TrafPart) : Z :=
  sumZ (map (fun part => len (tdat part)) parts).

(** The tracks with a non-empty cache, with their indices, in track order;
    [i] is the index of the first track of the list. *)
Fixpoint contributing (i : Z) (tracks : list MP4Track) : list (Z * MP4Track) :=
  match tracks with
  | [] => []
  | t :: rest =>
      match cache t with
      | [] => contributing (i + 1) rest
      | _ :: _ => (i, t) :: contributing (i + 1) rest
      end
  end.

(** The run entries of an audio track: a duration and a size per sample. *)
Definition audioRunEntries (t : MP4Track) : Uint8Array :=
  flat_map (fun c => encodeInt32 (audioFrameDuration t (packet c))
                     ++ encodeInt32 (len (packet_data (packet c))))
           (cache t).

(** The total duration of the cached samples of a track, as [_chunk]
    computes it. *)
Definition fragmentDuration (t : MP4Track) : Z :=
  if isAudioTrack t
  then sumZ (map (fun c => audioFrameDuration t (packet c)) (cache t))
  else cacheLength t * videoFrameDuration t.

(** A track after a fragment: untouched if its cache was empty. *)
Definition advance (t : MP4Track) : MP4Track :=
  match cache t with
  | [] => t
  | _ :: _ =>
      set_cache (set_cachedDuration t (cachedDuration t + fragmentDuration t)) []
  end.

(** The formulas of the specification evaluated on doubles, each operation
    rounded to nearest: floor(frameSampleCount / sampleRate x timescale)
    and floor(timescale / frameRate). *)
Definition floorAudioDuration (t : MP4Track) (p : Packet) : option Z :=
  JS.floor (JS.mul (JS.div (samples_number p) (samplerate t)) (timescale t)).

Definition floorVideoDuration (t : MP4Track) : option Z :=
  JS.floor (JS.div (timescale t) (framerate t)).

(** The first formula evaluated on the rationals, without rounding. *)
Definition exactAudioDuration (frameSampleCount sampleRate timescale : Z) : Z :=
  Qfloor (inject_Z frameSampleCount / inject_Z sampleRate * inject_Z timescale).

(** The base media decode time a [tfdt] box of version 0 holds: the 32-bit
    integer after the 8 bytes of the box header and the 4 bytes of version
    and flags. *)
Definition baseMediaDecodeTime (tfdt : Uint8Array) : Z :=
  decodeUint32 (firstn 4 (skipn 12 tfdt)).

Definition retimeSample (f : JS.number -> JS.number) (c : CachedPacket)
    : CachedPacket :=
  {| packet := packet c; timestamp := f (timestamp c) |}.

Definition retimeTrack (f : JS.number -> JS.number) (t : MP4Track) : MP4Track :=
  set_cache t (map (retimeSample f) (cache t)).

(** The muxer with the time stamp of every cached sample replaced. *)
Definition retime (f : JS.number -> JS.number) (this : MP4Mux) : MP4Mux :=
  {| tracks := map (retimeTrack f) (tracks this);
     audioTrackId := audioTrackId this;
     videoTrackId := videoTrackId this;
     waitForAdditionalData := waitForAdditionalData this;
     filePos := filePos this;
     cachedPackets := cachedPackets this;
     state := state this;
     chunkIndex := chunkIndex this;
     emitted := emitted this |}.

(** *** Encodings, layout and served calls *)

(** Equality of two byte buffers, as a boolean. *)
Definition eqb_bytes (a b : Uint8Array) : bool :=
  if list_eq_dec Z.eq_dec a b then true else false.

(** A 24-bit field read as a signed number. *)
Definition signed24 (u : Z) : Z := if u <? 2 ^ 23 then u else u - 2 ^ 24.

(** The samples of an MPEG audio frame, by the version and layer fields of
    the second byte of its header. *)
Definition mpegFrameSamples (h : Z) : Z :=
  let version := (h / 8) mod 4 in
  let layer := (h / 2) mod 4 in
  if layer =? 1 then (if version =? 3 then 1152 else 576)
  else if layer =? 3 then 384 else 1152.

(** The number of bytes handed to [ondata]. *)
Definition emittedBytes (out : list Output) : Z :=
  sumZ (map (fun o => match o with Header b | Fragment b => len b end) out).

(** A track without its buffering state. *)
Definition trackConfig (t : MP4Track) : MP4Track :=
  set_cache (set_cachedDuration t 0) [].

(** [buf.subarray(off, off + n)] *)
Definition slice (buf : Uint8Array) (off n : Z) : Uint8Array :=
  firstn (Z.to_nat n) (skipn (Z.to_nat off) buf).

(** What the first loop of [_chunk] adds to [moofLength] for one track. *)
Definition trafSize (part : TrafPart) : Z :=
  8 + len (tfhd part) + 8 + len (trunHead part) + 16 + 4 + len (trunTail part).

(** The flags of the first sample of a video run. *)
Definition firstFrameFlags (t : MP4Track) : Uint8Array :=
  match cache t with
  | c0 :: _ =>
      match packet_frameType (packet c0) with
      | Some 1 => hex "02000000"
      | _ => hex "01010000"
      end
  | [] => hex "01010000"
  end.

(** The run entries of a video track: a size and a composition time offset
    per sample. *)
Definition videoRunEntries (t : MP4Track) : Uint8Array :=
  flat_map (fun c => encodeInt32 (len (packet_data (packet c)))
                     ++ encodeInt32 (JS.int_of
                                       (packet_compositionTime (packet c))))
           (cache t).

(** The configuration record of an AVC track as [generateHeader] stores it:
    the bits 0xE0 of byte 5 set. *)
Definition avcCPatched (avcC : Uint8Array) : Uint8Array :=
  match at_ avcC 5 with
  | Some b => firstn 5 avcC ++ JS.bor b 0xE0 mod 256 :: skipn 6 avcC
  | None => avcC
  end.

(** A track whose [trak] box can be built: a track of one of the four
    types, holding its configuration sample if it is an AAC or AVC track. *)
Definition configured (t : MP4Track) : Prop :=
  (type t = "mp3" \/ type t = "vp6f")%string \/
  (needsConfig t = true /\
   exists c0 rest, cache t = c0 :: rest /\
                   len (packet_data (packet c0)) <= 0xFFFFFF).

(** The bytes of a [trak] box up to the track id: the size and type of
    the track header with its version and flags, creation and modification
    times. *)
Definition TKHD : Uint8Array := hex "0000005C746B68640000000F0000000000000000".

(** The track types [_chunk] has a case for. *)
Definition supportedTrack (t : MP4Track) : Prop :=
  isAudioTrack t || isVideoTrack t = true.

(** A muxer that serves its packets: the header emitted, or due at the next
    packet and of legacy tracks; tracks of the four types, of which the
    audio and the video track exist if they are set; at most [limit] samples
    pending, none of more than [B] bytes. *)
Record Steady (B limit : Z) (this : MP4Mux) : Prop := {
  steady_state :
    state this = 1 \/
    (state this = 0 /\ waitForAdditionalData this = false /\
     len_tracks (tracks this) <= 2 /\ Forall legacyType (tracks this));
  steady_types : Forall supportedTrack (tracks this);
  steady_audio :
    audioTrackId this <> -1 ->
    exists t, trackAt (tracks this) (audioTrackId this) = Some t;
  steady_video :
    videoTrackId this <> -1 ->
    exists t, trackAt (tracks this) (videoTrackId this) = Some t;
  steady_counter : cachedPackets this = pendingCount (tracks this);
  steady_limit : pendingCount (tracks this) <= limit;
  steady_payload : payloadBytes (tracks this) <= B * pendingCount (tracks this)
}.

(** The calls such a muxer serves: a flush, or a packet of a supported
    codec for a track the muxer has, with at most [B] bytes of payload. *)
Definition served (this0 : MP4Mux) (B : Z) (c : Call) : Prop :=
  match c with
  | Flush => True
  | PushPacket type data _ =>
      (type = AUDIO_PACKET /\ audioTrackId this0 <> -1 /\
       supportedAudio data /\
       len (AudioPacket.data (parseAudiodata data)) <= B) \/
      (type = VIDEO_PACKET /\ videoTrackId this0 <> -1 /\
       supportedVideo data /\
       len (VideoPacket.data (parseVideodata data)) <= B)
  end.

(** The result of a call carried through a function on states. *)
Definition map_result {A B} (g : A -> B) (r : result A) : result B :=
  match r with
  | Ok a => Ok (g a)
  | Throw e => Throw e
  end.

(** A call with its time stamp replaced. *)
Definition retimeCall (f : JS.number -> JS.number) (c : Call) : Call :=
  match c with
  | PushPacket type data ts => PushPacket type data (f ts)
  | Flush => Flush
  end.

(** What a muxer of the legacy path has emitted: nothing, or the header and
    then fragments only. *)
Definition headerFirst (this : MP4Mux) : Prop :=
  (state this = 0 /\ cachedPackets this = 0 /\ emitted this = []) \/
  (state this = 1 /\
   exists header chunks, emitted this = Header header :: map Fragment chunks).

(** The track the constructor builds for one descriptor. *)
Definition descriptorTrack (metadata : Metadata) (info : TrackInfo) : MP4Track :=
  let track samplerate channels framerate width height :=
    {| language := info_language info; type := sampletype info;
       timescale := info_timescale info; cache := []; cachedDuration := 0;
       samplerate := samplerate; channels := channels;
       framerate := framerate; width := width; height := height |} in
  if is_sampletype (sampletype info) (audiocodecid metadata) then
    track (audiosamplerate metadata) (audiochannels metadata)
          JS.NaN JS.NaN JS.NaN
  else if is_sampletype (sampletype info) (videocodecid metadata) then
    track JS.NaN JS.NaN (videoframerate metadata)
          (meta_width metadata) (meta_height metadata)
  else track JS.NaN JS.NaN JS.NaN JS.NaN JS.NaN.

(** The descriptors the constructor takes for the audio track and for the
    video track: a descriptor that matches both codec ids is an audio
    descriptor. *)
Definition isAudioInfo (metadata : Metadata) (info : TrackInfo) : bool :=
  is_sampletype (sampletype info) (audiocodecid metadata).
Definition isVideoInfo (metadata : Metadata) (info : TrackInfo) : bool :=
  negb (isAudioInfo metadata info)
  && is_sampletype (sampletype info) (videocodecid metadata).

(** [k] is the index of the last element of [l] that satisfies [p], counted
    from [i], or [none] if there is no such element. *)
Definition lastAt {A} (p : A -> bool) (l : list A) (i none k : Z) : Prop :=
  (k = none /\ Forall (fun x => p x = false) l) \/
  (exists pre x post,
     l = pre ++ x :: post /\ p x = true /\
     Forall (fun x => p x = false) post /\
     k = i + Z.of_nat (List.length pre)).

(** The constant parts of a [trak] box. *)
Definition TKHD_FLAGS : Uint8Array := hex "00000000FFFFFFFF00000000000000000000".
Definition TKHD_MATRIX : Uint8Array :=
  hex "0000000100000000000000000000000000000001000000000000000000000000000040000000".
Definition MDHD : Uint8Array := hex "000000206D6468640000000000000000000000000000".
Definition HDLR_SOUN : Uint8Array :=
  hex "00000000002D68646C720000000000000000736F756E000000000000000000000000536F756E6448616E646C657200".
Definition HDLR_VIDE : Uint8Array :=
  hex "00000000002D68646C72000000000000000076696465000000000000000000000000566964656F48616E646C657200".
Definition SMHD_DINF : Uint8Array :=
  hex "00000010736D686400000000000000000000002464696E660000001C6472656600000000000000010000000C75726C2000000001".
Definition VMHD_DINF : Uint8Array :=
  hex "00000014766D68640000000100000000000000000000002464696E660000001C6472656600000000000000010000000C75726C2000000001".

(** The bytes of box headers and run entries that a fragment spends on the
    tracks from index [i] on: 76 per track with a non-empty cache and 8 per
    sample. *)
Definition trackOverhead (tracks : list MP4Track) : Z :=
  sumZ (map (fun it => 76 + 8 * cacheLength (snd it)) (contributing 0 tracks)).

(** The two characters that print a byte in hexadecimal, in upper or in
    lower case. *)
Definition hexChar (upper : bool) (d : Z) : ascii :=
  nth (Z.to_nat d)
      (list_ascii_of_string
         (if upper then "0123456789ABCDEF" else "0123456789abcdef"))
      "0"%char.
Fixpoint toHex (upper : bool) (bytes : Uint8Array) : string :=
  match bytes with
  | [] => EmptyString
  | b :: rest =>
      String (hexChar upper (b / 16))
             (String (hexChar upper (b mod 16)) (toHex upper rest))
  end.

(** *** Concrete configurations and packets *)

(** A legacy configuration with a VP6 video track only: 25 frames per
    second, 320 x 240. *)
Definition legacyVideo : Metadata :=
  {| trackinfo := None;
     audiocodecid := CidUndefined;
     videocodecid := CidNumber 4;
     audiosamplerate := JS.NaN;
     audiochannels := JS.NaN;
     videoframerate := JS.NaN;
     meta_framerate := JS.of_Z 25;
     meta_width := JS.of_Z 320;
     meta_height := JS.of_Z 240 |}.

(** Track descriptors for an AAC and an AVC track: the deferred path. *)
Definition deferredAacAvc : Metadata :=
  {| trackinfo :=
       Some [ {| info_language := "und"; sampletype := "mp4a";
                 info_timescale := JS.of_Z 44100 |};
              {| info_language := "und"; sampletype := "avc1";
                 info_timescale := JS.of_Z 25000 |} ];
     audiocodecid := CidString "mp4a";
     videocodecid := CidString "avc1";
     audiosamplerate := JS.of_Z 44100;
     audiochannels := JS.of_Z 2;
     videoframerate := JS.of_Z 25;
     meta_framerate := JS.NaN;
     meta_width := JS.of_Z 320;
     meta_height := JS.of_Z 240 |}.

(** Track descriptors for an AVC track alone. *)
Definition deferredAvc : Metadata :=
  {| trackinfo :=
       Some [ {| info_language := "und"; sampletype := "avc1";
                 info_timescale := JS.of_Z 25000 |} ];
     audiocodecid := CidUndefined;
     videocodecid := CidString "avc1";
     audiosamplerate := JS.NaN;
     audiochannels := JS.NaN;
     videoframerate := JS.of_Z 25;
     meta_framerate := JS.NaN;
     meta_width := JS.of_Z 320;
     meta_height := JS.of_Z 240 |}.

(** Track descriptors for an AVC track alone with the time scale [scale], at
    one frame per second. *)
Definition deferredAvcScale (scale : Z) : Metadata :=
  {| trackinfo :=
       Some [ {| info_language := "und"; sampletype := "avc1";
                 info_timescale := JS.of_Z scale |} ];
     audiocodecid := CidUndefined;
     videocodecid := CidString "avc1";
     audiosamplerate := JS.NaN;
     audiochannels := JS.NaN;
     videoframerate := JS.of_Z 1;
     meta_framerate := JS.NaN;
     meta_width := JS.of_Z 320;
     meta_height := JS.of_Z 240 |}.

(** Track descriptors for an AAC track alone, sampled at [rate] Hz, with the
    sample rate as its time scale. *)
Definition deferredAac (rate : Z) : Metadata :=
  {| trackinfo :=
       Some [ {| info_language := "und"; sampletype := "mp4a";
                 info_timescale := JS.of_Z rate |} ];
     audiocodecid := CidString "mp4a";
     videocodecid := CidUndefined;
     audiosamplerate := JS.of_Z rate;
     audiochannels := JS.of_Z 2;
     videoframerate := JS.NaN;
     meta_framerate := JS.NaN;
     meta_width := JS.NaN;
     meta_height := JS.NaN |}.

(** Track descriptors for a timed-text track followed by an AAC track. *)
Definition deferredTextAac : Metadata :=
  {| trackinfo :=
       Some [ {| info_language := "und"; sampletype := "tx3g";
                 info_timescale := JS.of_Z 1000 |};
              {| info_language := "und"; sampletype := "mp4a";
                 info_timescale := JS.of_Z 44100 |} ];
     audiocodecid := CidString "mp4a";
     videocodecid := CidUndefined;
     audiosamplerate := JS.of_Z 44100;
     audiochannels := JS.of_Z 2;
     videoframerate := JS.NaN;
     meta_framerate := JS.NaN;
     meta_width := JS.NaN;
     meta_height := JS.NaN |}.

(** Track descriptors for a timed-text track alone: no audio track, no
    video track. *)
Definition deferredText : Metadata :=
  {| trackinfo :=
       Some [ {| info_language := "und"; sampletype := "tx3g";
                 info_timescale := JS.of_Z 1000 |} ];
     audiocodecid := CidUndefined;
     videocodecid := CidUndefined;
     audiosamplerate := JS.NaN;
     audiochannels := JS.NaN;
     videoframerate := JS.NaN;
     meta_framerate := JS.NaN;
     meta_width := JS.NaN;
     meta_height := JS.NaN |}.

(** VP6 envelopes: an inter frame and a key frame. *)
Definition vp6Inter : Uint8Array := [0x24; 0x00; 1; 2; 3].
Definition vp6Key : Uint8Array := [0x14; 0x00; 9; 9].

(** AAC envelopes: the sequence configuration (packet type 0) and a raw
    frame (packet type 1). *)
Definition aacConfig : Uint8Array := [0xAF; 0x00; 0x12; 0x10].
Definition aacFrame : Uint8Array := [0xAF; 0x01; 0x21; 0x10; 0x04].

(** AVC envelopes: the sequence configuration (packet type 0) sent as a key
    frame and as an inter frame, a key-frame slice and an inter-frame slice
    (packet type 1). *)
Definition avcRecord : Uint8Array :=
  [0x01; 0x42; 0x00; 0x1E; 0xFF; 0x01; 0x00; 0x00].
Definition avcConfig : Uint8Array := [0x17; 0x00; 0; 0; 0] ++ avcRecord.
Definition avcConfigInter : Uint8Array := [0x27; 0x00; 0; 0; 0] ++ avcRecord.
Definition avcKey : Uint8Array := [0x17; 0x01; 0; 0; 0; 0x65; 0x88].
Definition avcInter : Uint8Array := [0x27; 0x01; 0; 0; 0; 0x41; 0x9A].

(** An MP3 envelope: 44100 Hz, 16 bits, stereo. *)
Definition mp3Frame : Uint8Array := [0x2F; 0xFF; 0xFB; 0x90; 0x00].

Definition t0 : JS.number := JS.of_Z 0.

Definition push (type : Z) (data : Uint8Array) : Call :=
  PushPacket type data t0.

(** Track descriptors for one audio track of sample type '.mp3'. *)
Definition deferredDotMp3 : Metadata :=
  {| trackinfo :=
       Some [ {| info_language := "und"; sampletype := ".mp3";
                 info_timescale := JS.of_Z 44100 |} ];
     audiocodecid := CidString ".mp3";
     videocodecid := CidUndefined;
     audiosamplerate := JS.of_Z 44100;
     audiochannels := JS.of_Z 2;
     videoframerate := JS.NaN;
     meta_framerate := JS.NaN;
     meta_width := JS.NaN;
     meta_height := JS.NaN |}.

(** * Properties *)

(** ** 32-bit integers and the integer encoders *)

Lemma wrap32_range z : - 2 ^ 31 <= JS.wrap32 z < 2 ^ 31.
Proof. unfold JS.wrap32. pose proof (Z.mod_pos_bound (z + 2 ^ 31) (2 ^ 32)). lia. Qed.

Lemma wrap32_small z : - 2 ^ 31 <= z < 2 ^ 31 -> JS.wrap32 z = z.
Proof. intros H. unfold JS.wrap32. rewrite Z.mod_small; lia. Qed.

Lemma wrap32_mod z : JS.wrap32 z mod 2 ^ 32 = z mod 2 ^ 32.
Proof.
  unfold JS.wrap32.
  rewrite <- (Z.add_opp_r _ (2 ^ 31)), <- Zplus_mod_idemp_l, Z.mod_mod by lia.
  rewrite Zplus_mod_idemp_l. f_equal. lia.
Qed.

Lemma band_255 x : JS.band x 255 = JS.wrap32 x mod 256.
Proof.
  unfold JS.band. rewrite (wrap32_small 255) by lia.
  change 255 with (Z.ones 8). rewrite Z.land_ones by lia. reflexivity.
Qed.

Lemma band_255_range x : 0 <= JS.band x 255 < 256.
Proof. rewrite band_255. apply Z.mod_pos_bound. lia. Qed.

Lemma sar_div x n : 0 <= n -> JS.sar x n = JS.wrap32 x / 2 ^ n.
Proof. intros. unfold JS.sar. apply Z.shiftr_div_pow2. assumption. Qed.

Lemma encodeInt32_bytes n :
  encodeInt32 n =
    [(JS.wrap32 n / 2 ^ 24) mod 256; (JS.wrap32 n / 2 ^ 16) mod 256;
     (JS.wrap32 n / 2 ^ 8) mod 256; JS.wrap32 n mod 256].
Proof.
  unfold encodeInt32. rewrite !band_255, !sar_div by lia.
  pose proof (wrap32_range n) as Hn. revert Hn.
  generalize (JS.wrap32 n). intros a Ha.
  change (2 ^ 31) with 2147483648 in Ha.
  change (2 ^ 24) with 16777216. change (2 ^ 16) with 65536.
  change (2 ^ 8) with 256.
  rewrite !wrap32_small; [reflexivity | | | ];
    change (2 ^ 31) with 2147483648;
    Z.to_euclidean_division_equations; lia.
Qed.

Lemma decode_encodeInt32 n : decodeUint32 (encodeInt32 n) = n mod 2 ^ 32.
Proof.
  rewrite encodeInt32_bytes, <- wrap32_mod. cbn [decodeUint32].
  generalize (JS.wrap32 n). intro a.
  change (2 ^ 24) with 16777216. change (2 ^ 16) with 65536.
  change (2 ^ 8) with 256. change (2 ^ 32) with 4294967296.
  Z.to_euclidean_division_equations. lia.
Qed.

Lemma decode_encodeInt32_small n :
  0 <= n < 2 ^ 32 -> decodeUint32 (encodeInt32 n) = n.
Proof. intros. rewrite decode_encodeInt32. apply Z.mod_small. assumption. Qed.

Lemma encodeInt32_length n : List.length (encodeInt32 n) = 4%nat.
Proof. reflexivity. Qed.

(** ** The box-wrap operation [tag] *)

Lemma charCode_range c : 0 <= charCode c < 256.
Proof.
  unfold charCode. pose proof (N_ascii_bounded c) as H.
  split; [apply N2Z.is_nonneg | ].
  change 256 with (Z.of_N 256). apply N2Z.inj_lt. assumption.
Qed.

Lemma strBytes_ascii s : strBytes s = map charCode (list_ascii_of_string s).
Proof.
  unfold strBytes. apply map_ext. intros c.
  change 255 with (Z.ones 8). rewrite Z.land_ones by lia.
  apply Z.mod_small, charCode_range.
Qed.

Lemma strBytes_length s : List.length (strBytes s) = String.length s.
Proof.
  unfold strBytes. rewrite length_map.
  induction s as [| c s IH]; simpl; congruence.
Qed.

Lemma tag_ok name data :
  strlen name = 4 -> 8 + len (flatten data) <= 0x7FFFFFFF ->
  tag name data =
    Ok (encodeInt32 (8 + len (flatten data)) ++ strBytes name ++ flatten data).
Proof.
  intros Hn Hl. unfold tag.
  rewrite (proj2 (Z.eqb_eq _ _) Hn). cbn [negb].
  destruct (Z.gtb_spec (8 + len (flatten data)) 0x7FFFFFFF) as [Hgt | _];
    [lia | ].
  cbn [flatten map concat]. rewrite app_nil_r. reflexivity.
Qed.

Lemma tag_throws name data e :
  tag name data = Throw e ->
  (strlen name <> 4 /\ e = BadTagName name) \/
  (strlen name = 4 /\ 0x7FFFFFFF < 8 + len (flatten data) /\ e = BadTagLength).
Proof.
  unfold tag. destruct (Z.eqb_spec (strlen name) 4) as [Hn | Hn]; cbn [negb].
  - destruct (Z.gtb_spec (8 + len (flatten data)) 0x7FFFFFFF) as [Hgt | Hle].
    + intros [= <-]. right. repeat split; [assumption | lia].
    + discriminate.
  - intros [= <-]. left. split; [assumption | reflexivity].
Qed.

Lemma tag_inv name data buf :
  tag name data = Ok buf ->
  strlen name = 4 /\ 8 + len (flatten data) <= 0x7FFFFFFF /\
  buf = encodeInt32 (8 + len (flatten data)) ++ strBytes name ++ flatten data.
Proof.
  intros H.
  destruct (Z.eq_dec (strlen name) 4) as [Hn | Hn].
  - destruct (Z_le_gt_dec (8 + len (flatten data)) 0x7FFFFFFF) as [Hl | Hl].
    + rewrite tag_ok in H by assumption. injection H as <-. auto.
    + exfalso. revert H. unfold tag.
      rewrite (proj2 (Z.eqb_eq _ _) Hn). cbn [negb].
      destruct (Z.gtb_spec (8 + len (flatten data)) 0x7FFFFFFF);
        [discriminate | lia].
  - exfalso. revert H. unfold tag.
    rewrite (proj2 (Z.eqb_neq _ _) Hn). discriminate.
Qed.

Lemma len_app (a b : Uint8Array) : len (a ++ b) = len a + len b.
Proof. unfold len. rewrite length_app. lia. Qed.

Lemma len_nonneg (a : Uint8Array) : 0 <= len a.
Proof. unfold len. lia. Qed.

Lemma len_strBytes s : len (strBytes s) = strlen s.
Proof. unfold len, strlen. rewrite strBytes_length. reflexivity. Qed.

Lemma len_encodeInt32 n : len (encodeInt32 n) = 4.
Proof. reflexivity. Qed.

Lemma tag_length name data buf :
  tag name data = Ok buf -> len buf = 8 + len (flatten data).
Proof.
  intros H. apply tag_inv in H. destruct H as (Hn & _ & ->).
  rewrite !len_app, len_strBytes, len_encodeInt32. lia.
Qed.

(** C5. For a tag [T] of four characters and a payload [P] whose flattened
    length plus 8 does not exceed 0x7FFFFFFF, [tag T P] returns a buffer whose
    first four bytes are the big-endian 32-bit integer [8 + len P], whose
    bytes 4..8 are the character codes of [T], and whose remaining bytes are
    the flattened [P]. [tag] throws exactly when [T] is not of length 4 or
    the total length exceeds 0x7FFFFFFF, and what it throws is a format
    error. *)
Theorem tag_box_layout (T : string) (P : jsval) :
  (strlen T = 4 /\ 8 + len (flatten P) <= 0x7FFFFFFF ->
   exists buf,
     tag T P = Ok buf /\
     firstn 4 buf = encodeInt32 (8 + len (flatten P)) /\
     decodeUint32 (firstn 4 buf) = 8 + len (flatten P) /\
     firstn 4 (skipn 4 buf) = map charCode (list_ascii_of_string T) /\
     skipn 8 buf = flatten P) /\
  ((exists e, tag T P = Throw e) <->
   (strlen T <> 4 \/ 0x7FFFFFFF < 8 + len (flatten P))) /\
  (forall e, tag T P = Throw e -> kind_of e = Some FormatError).
Proof.
  split; [ | split].
  - intros [Hn Hl]. eexists. split; [apply tag_ok; assumption | ].
    pose proof (strBytes_length T) as HT.
    assert (HT4 : List.length (strBytes T) = 4%nat) by (unfold strlen in Hn; lia).
    set (n := 8 + len (flatten P)) in *.
    assert (H4 : firstn 4 (encodeInt32 n ++ strBytes T ++ flatten P)
                 = encodeInt32 n) by reflexivity.
    assert (H48 : skipn 4 (encodeInt32 n ++ strBytes T ++ flatten P)
                 = strBytes T ++ flatten P) by reflexivity.
    split; [exact H4 | split; [ | split]].
    + rewrite H4. apply decode_encodeInt32_small.
      pose proof (len_nonneg (flatten P)). subst n.
      change (2 ^ 32) with 4294967296. lia.
    + rewrite H48, <- HT4, firstn_app, Nat.sub_diag, firstn_all.
      cbn [firstn]. rewrite app_nil_r. apply strBytes_ascii.
    + change 8%nat with (4 + 4)%nat. rewrite <- skipn_skipn, H48.
      rewrite <- HT4, skipn_app, Nat.sub_diag, skipn_all. reflexivity.
  - split.
    + intros [e He]. apply tag_throws in He. destruct He as [[? _] | (_ & ? & _)].
      * left. assumption.
      * right. assumption.
    + intros H. unfold tag.
      destruct (Z.eqb_spec (strlen T) 4) as [Hn | Hn]; cbn [negb].
      * destruct (Z.gtb_spec (8 + len (flatten P)) 0x7FFFFFFF).
        -- eexists. reflexivity.
        -- lia.
      * eexists. reflexivity.
  - intros e He. apply tag_throws in He.
    destruct He as [[_ ->] | (_ & _ & ->)]; reflexivity.
Qed.

(** C5 at a concrete box: the [glbl] box of a VP6 sample entry. *)
Lemma tag_box_layout_witness :
  exists buf,
    tag "glbl" (Arr [Bytes (hex "00")]) = Ok buf /\
    firstn 4 buf = [0; 0; 0; 9] /\
    decodeUint32 (firstn 4 buf) = 9 /\
    firstn 4 (skipn 4 buf) = [103; 108; 98; 108] /\
    skipn 8 buf = [0].
Proof.
  destruct (proj1 (tag_box_layout "glbl" (Arr [Bytes (hex "00")])))
    as (buf & H1 & H2 & H3 & H4 & H5).
  - split; [reflexivity | vm_compute; discriminate].
  - exists buf. repeat split; assumption.
Defined.

(** ** The audio envelope *)

(** Checking a property of a byte by running through the 256 bytes. *)
Lemma forall_byte (P : Z -> bool) :
  forallb P (map Z.of_nat (seq 0 256)) = true ->
  forall b, 0 <= b < 256 -> P b = true.
Proof.
  intros H b Hb. rewrite forallb_forall in H. apply H.
  apply in_map_iff. exists (Z.to_nat b). split; [lia | ].
  apply in_seq. lia.
Qed.

(** The layout of byte 0 of an audio envelope: codec id in the high four
    bits, then two bits of sample-rate index, one bit of sample size and one
    bit of channel count. *)
Lemma parseAudiodata_byte0 b0 rest :
  0 <= b0 < 256 ->
  let p := parseAudiodata (b0 :: rest) in
  AudioPacket.codecId p = b0 / 16 /\
  AudioPacket.rate p = nth (Z.to_nat ((b0 / 4) mod 4)) SOUNDRATES 0 /\
  AudioPacket.size p = (if (b0 / 2) mod 2 =? 0 then 8 else 16) /\
  AudioPacket.channels p = (if b0 mod 2 =? 0 then 1 else 2).
Proof.
  intros Hb p.
  assert (E : AudioPacket.codecId p = JS.sar b0 4 /\
              AudioPacket.rate p
                = nth (Z.to_nat (JS.band (JS.sar b0 2) 3)) SOUNDRATES 0 /\
              AudioPacket.size p = (if JS.band b0 2 =? 0 then 8 else 16) /\
              AudioPacket.channels p = (if JS.band b0 1 =? 0 then 1 else 2)).
  { subst p. unfold parseAudiodata. cbn [at_ nth_error JS.int_of].
    destruct (JS.sar b0 4 =? AAC_SOUND_CODEC_ID);
      [ | destruct (JS.sar b0 4 =? MP3_SOUND_CODEC_ID)];
      cbn; auto. }
  destruct E as (-> & -> & -> & ->).
  pose proof (forall_byte
    (fun b => (JS.sar b 4 =? b / 16)
              && (JS.band (JS.sar b 2) 3 =? (b / 4) mod 4)
              && (Bool.eqb (JS.band b 2 =? 0) ((b / 2) mod 2 =? 0))
              && (Bool.eqb (JS.band b 1 =? 0) (b mod 2 =? 0)))
    eq_refl b0 Hb) as H.
  cbv beta in H. rewrite !andb_true_iff in H.
  destruct H as (((H1 & H2) & H3) & H4).
  apply Z.eqb_eq in H1, H2. apply Bool.eqb_prop in H3, H4.
  rewrite H1, H2, H3, H4. auto.
Qed.

(** C6, as the code has it. The envelope byte 0b00101010 (0x2A) carries sample-rate
    index 2 and sample-size flag 1: it parses to codec id 2 (MP3), 22050 Hz,
    16 bits, one channel (byte 0 holds the codec id in its high four bits,
    then the two-bit rate index into 5500, 11025, 22050, 44100, the sample
    size flag and the channel flag). The MP3, 44100 Hz, 8-bit, mono envelope is the
    byte 0b00101100 (0x2C), and it parses to codec id 2, 44100, 8 and 1. In both
    cases the frame sample count is 384, 576 or 1152, and the payload starts
    at offset 1. *)
Theorem parseAudiodata_mp3_envelope (rest : Uint8Array) :
  (forall b0, 0 <= b0 < 256 ->
   let p := parseAudiodata (b0 :: rest) in
   AudioPacket.codecId p = b0 / 16 /\
   AudioPacket.rate p = nth (Z.to_nat ((b0 / 4) mod 4)) SOUNDRATES 0 /\
   AudioPacket.size p = (if (b0 / 2) mod 2 =? 0 then 8 else 16) /\
   AudioPacket.channels p = (if b0 mod 2 =? 0 then 1 else 2)) /\
  (let p := parseAudiodata (0x2A :: rest) in
   AudioPacket.codecId p = 2 /\ AudioPacket.rate p = 22050 /\
   AudioPacket.size p = 16 /\ AudioPacket.channels p = 1 /\
   In (AudioPacket.samples p) mp3_sample_counts /\
   AudioPacket.data p = rest) /\
  (let p := parseAudiodata (0x2C :: rest) in
   AudioPacket.codecId p = 2 /\ AudioPacket.rate p = 44100 /\
   AudioPacket.size p = 8 /\ AudioPacket.channels p = 1 /\
   In (AudioPacket.samples p) mp3_sample_counts /\
   AudioPacket.data p = rest).
Proof.
  split; [intros b0 Hb; apply parseAudiodata_byte0; assumption | ].
  split; cbv zeta; unfold parseAudiodata;
    cbn [at_ nth_error JS.int_of];
    match goal with
    | |- context [JS.sar ?b 4] =>
        change (JS.sar b 4 =? AAC_SOUND_CODEC_ID) with false;
        change (JS.sar b 4 =? MP3_SOUND_CODEC_ID) with true
    end;
    cbn [AudioPacket.codecId AudioPacket.rate AudioPacket.size
         AudioPacket.channels AudioPacket.samples AudioPacket.data];
    (repeat split; try reflexivity);
    unfold mp3_sample_counts;
    repeat match goal with
           | |- context [if ?c then _ else _] => destruct c
           end;
    cbn; auto.
Qed.

(** C6, the claim as written fails: byte 0b00101010 does not parse to
    44100 Hz and 8 bits. *)
Lemma parseAudiodata_0x2A_not_44100_8 :
  let p := parseAudiodata [0x2A; 0xFF; 0xFB] in
  ~ (AudioPacket.codecId p = 2 /\ AudioPacket.rate p = 44100 /\
     AudioPacket.size p = 8 /\ AudioPacket.channels p = 1).
Proof. cbv zeta. intros (_ & H & _). vm_compute in H. discriminate. Qed.

(** ** The primitive steps of a muxer *)

Lemma bind_ok {A B} (r : result A) (k : A -> result B) b :
  bind r k = Ok b <-> exists a, r = Ok a /\ k a = Ok b.
Proof.
  destruct r as [a | e]; cbn.
  - split; [intros H; exists a; auto | intros (a' & [= <-] & H); exact H].
  - split; [discriminate | intros (a' & [=] & _)].
Qed.

Lemma bind_throw {A B} (r : result A) (k : A -> result B) e :
  bind r k = Throw e <->
  r = Throw e \/ exists a, r = Ok a /\ k a = Throw e.
Proof.
  destruct r as [a | e']; cbn.
  - split; [intros H; right; exists a; auto
           | intros [[=] | (a' & [= <-] & H)]; exact H].
  - split; [intros [= <-]; left; reflexivity
           | intros [[= <-] | (a' & [=] & _)]; reflexivity].
Qed.

Lemma generateHeader_inv this this' :
  generateHeader this = Ok this' ->
  exists ts header,
    traks 0 (tracks this) = Ok ts /\ this' = afterHeader this header.
Proof.
  unfold generateHeader. intros H.
  apply bind_ok in H. destruct H as (ts & Hts & H).
  apply bind_ok in H. destruct H as (moov & _ & H).
  injection H as <-. eexists _, _. split; [exact Hts | reflexivity].
Qed.

Lemma cachePush_inv this id c this' :
  cachePush this id c = Ok this' ->
  (exists t, trackAt (tracks this) id = Some t) /\ this' = afterPush this id c.
Proof.
  unfold cachePush. destruct (trackAt (tracks this) id) as [t | ]; [ | discriminate].
  intros [= <-]. split; [exists t | ]; reflexivity.
Qed.

Lemma cachePush_throws this id c e :
  cachePush this id c = Throw e ->
  trackAt (tracks this) id = None /\ e = TypeError.
Proof.
  unfold cachePush. destruct (trackAt (tracks this) id); [discriminate | ].
  intros [= <-]. auto.
Qed.

Lemma _chunk_inv this this' :
  _chunk this = Ok this' ->
  exists parts tracks' moofParts moof mdat,
    trafParts 0 (tracks this) = Ok (parts, tracks') /\
    trafs parts (moofLengthOf (moofHeaderOf (chunkIndex this + 1)) parts)
      = Ok moofParts /\
    tag "moof" (Arr (Bytes (moofHeaderOf (chunkIndex this + 1))
                     :: map Bytes moofParts)) = Ok moof /\
    tag "mdat" (Arr (map (fun part => Bytes (tdat part)) parts)) = Ok mdat /\
    this' = afterChunk this tracks' (moof ++ mdat).
Proof.
  unfold _chunk. fold (moofHeaderOf (chunkIndex this + 1)). intros H.
  apply bind_ok in H. destruct H as ([parts tracks'] & Hp & H).
  apply bind_ok in H. destruct H as (moofParts & Hm & H).
  apply bind_ok in H. destruct H as (moof & Hmoof & H).
  apply bind_ok in H. destruct H as (mdat & Hmdat & H).
  injection H as <-.
  exists parts, tracks', moofParts, moof, mdat.
  repeat (split; [assumption | ]).
  unfold afterChunk. cbn [flatten map concat]. rewrite app_nil_r. reflexivity.
Qed.

Lemma sequenceNumber_at (pre post : Uint8Array) k :
  List.length pre = 20%nat ->
  sequenceNumber (pre ++ encodeInt32 k ++ post) = encodeInt32 k.
Proof.
  intros H. unfold sequenceNumber.
  rewrite skipn_app, H, Nat.sub_diag, skipn_all2 by lia.
  cbn [skipn app]. reflexivity.
Qed.

(** The fragment [_chunk] emits carries the incremented [chunkIndex] in the
    sequence-number field of its [mfhd] box. *)
Lemma _chunk_emits this this' :
  _chunk this = Ok this' ->
  exists tracks' chunk,
    this' = afterChunk this tracks' chunk /\
    sequenceNumber chunk = encodeInt32 (chunkIndex this + 1).
Proof.
  intros H. apply _chunk_inv in H.
  destruct H as (parts & tracks' & moofParts & moof & mdat & _ & _ & Hmoof & _ & ->).
  exists tracks', (moof ++ mdat). split; [reflexivity | ].
  apply tag_inv in Hmoof. destruct Hmoof as (_ & _ & ->).
  set (n := 8 + len _).
  cbn [flatten map concat]. unfold moofHeaderOf. cbn [flatten map concat].
  rewrite app_nil_r.
  set (h := hex "000000106D66686400000000").
  set (rest := concat (map flatten (map Bytes moofParts))).
  replace ((encodeInt32 n ++ strBytes "moof"
            ++ (h ++ encodeInt32 (chunkIndex this + 1)) ++ rest) ++ mdat)
    with ((encodeInt32 n ++ strBytes "moof" ++ h)
          ++ encodeInt32 (chunkIndex this + 1) ++ (rest ++ mdat))
    by (rewrite <- !app_assoc; reflexivity).
  apply sequenceNumber_at. reflexivity.
Qed.

Create HintDb mux.
#[local] Hint Constructors prim prims : mux.

Lemma prims_trans a b c : prims a b -> prims b c -> prims a c.
Proof. induction 1; eauto with mux. Qed.

(** Taking apart a computation that returned. *)
Ltac inv_ok :=
  repeat match goal with
    | H : bind _ _ = Ok _ |- _ =>
        apply bind_ok in H; let a := fresh "this" in
        let E := fresh "E" in destruct H as (a & E & H)
    | H : Ok _ = Ok _ |- _ => injection H as H; try subst
    | H : Throw _ = Ok _ |- _ => discriminate H
    | H : (if ?c then _ else _) = Ok _ |- _ =>
        let C := fresh "C" in destruct c eqn:C
    end.

Ltac bool_facts :=
  repeat match goal with
    | H : andb _ _ = true |- _ => apply andb_true_iff in H; destruct H
    | H : (_ =? _) = true |- _ => apply Z.eqb_eq in H
    | H : (_ =? _) = false |- _ => apply Z.eqb_neq in H
    | H : negb _ = true |- _ => apply negb_true_iff in H
    | H : negb _ = false |- _ => apply negb_false_iff in H
    end.

Lemma intake_prims this type data ts this' :
  intake this type data ts = Ok this' -> prims this this'.
Proof.
  unfold intake. intros H. inv_ok; bool_facts; eauto 12 with mux.
Qed.

Lemma pushPacket_prims this type data ts this' :
  pushPacket this type data ts = Ok this' -> prims this this'.
Proof.
  unfold pushPacket. intros H. apply bind_ok in H.
  destruct H as (s & Hs & H). apply intake_prims in Hs.
  destruct (cachedPackets s >=? MAX_PACKETS_IN_CHUNK).
  - eapply prims_trans; eauto with mux.
  - injection H as <-. assumption.
Qed.

Lemma flush_prims this this' : flush this = Ok this' -> prims this this'.
Proof.
  unfold flush. destruct (cachedPackets this >? 0).
  - eauto with mux.
  - intros [= <-]. constructor.
Qed.

Lemma calls_prims cs : forall this this',
  calls this cs = Ok this' -> prims this this'.
Proof.
  induction cs as [| c cs IH]; cbn [calls]; intros this this' H.
  - injection H as <-. constructor.
  - apply bind_ok in H. destruct H as (s & Hs & H).
    eapply prims_trans; [ | eapply IH; eassumption].
    destruct c; cbn [call] in Hs;
      [eapply pushPacket_prims | eapply flush_prims]; eassumption.
Qed.

(** ** Invariants of the state *)

Lemma fragments_app a b : fragments (a ++ b) = fragments a ++ fragments b.
Proof.
  induction a as [| [h | f] a IH]; cbn [fragments app]; [ | | rewrite IH];
    auto.
Qed.

Lemma headers_app a b : headers (a ++ b) = headers a ++ headers b.
Proof.
  induction a as [| [h | f] a IH]; cbn [headers app]; [ | rewrite IH | ];
    auto.
Qed.

Lemma trafParts_cleared tracks : forall i parts tracks',
  trafParts i tracks = Ok (parts, tracks') ->
  Forall (fun t => cache t = []) tracks'.
Proof.
  induction tracks as [| t r IH]; cbn [trafParts]; intros i parts tracks' H.
  - injection H as <- <-. constructor.
  - destruct (cache t) eqn:Ec.
    + apply bind_ok in H. destruct H as ([ps ts] & Hr & H).
      injection H as <- <-. apply IH in Hr. constructor; assumption.
    + apply bind_ok in H. destruct H as (part & _ & H).
      apply bind_ok in H. destruct H as ([ps ts] & Hr & H).
      injection H as <- <-. apply IH in Hr.
      constructor; [reflexivity | assumption].
Qed.

Lemma pendingCount_empty tracks :
  Forall (fun t => cache t = []) tracks -> pendingCount tracks = 0.
Proof.
  unfold pendingCount, cacheLength.
  induction 1 as [| t r Ht _ IH]; cbn [map sumZ fold_right]; [reflexivity | ].
  fold (sumZ (map (fun t => Z.of_nat (List.length (cache t))) r)).
  rewrite Ht. cbn [List.length]. unfold sumZ in *. lia.
Qed.

Lemma pendingCount_cleared tracks :
  pendingCount (map (fun t => set_cache t []) tracks) = 0.
Proof.
  apply pendingCount_empty. apply Forall_forall. intros t Ht.
  apply in_map_iff in Ht. destruct Ht as (t0 & <- & _). reflexivity.
Qed.

Lemma pushAt_pending tracks : forall n c t,
  nth_error tracks n = Some t ->
  pendingCount (pushAt tracks n c) = pendingCount tracks + 1.
Proof.
  unfold pendingCount, cacheLength, sumZ.
  induction tracks as [| t0 r IH]; intros [| n] c t H; cbn in H; try discriminate.
  - cbn [pushAt map fold_right set_cache cache]. rewrite length_app.
    cbn [List.length]. lia.
  - cbn [pushAt map fold_right]. rewrite (IH _ _ _ H). lia.
Qed.

Lemma prim_Inv this this' : prim this this' -> Inv this -> Inv this'.
Proof.
  intros Hp [Hs Hh Hc Hq Hn]. destruct Hp as [this this' H0 H | this this' H | this id c this' H].
  - apply generateHeader_inv in H. destruct H as (ts & header & _ & ->).
    constructor; cbn [afterHeader state emitted chunkIndex cachedPackets tracks].
    + auto.
    + rewrite headers_app, length_app, Hh, H0. reflexivity.
    + rewrite fragments_app, app_nil_r. assumption.
    + rewrite fragments_app, app_nil_r. assumption.
    + symmetry. apply pendingCount_cleared.
  - pose proof H as H'. apply _chunk_emits in H. destruct H as (tracks' & chunk & -> & Hseq).
    apply _chunk_inv in H'.
    destruct H' as (parts & tracks'' & ? & ? & ? & Hp & _ & _ & _ & Heq).
    assert (tracks' = tracks'') by (apply (f_equal tracks) in Heq; exact Heq).
    subst tracks''. clear Heq.
    constructor; cbn [afterChunk state emitted chunkIndex cachedPackets tracks].
    + assumption.
    + rewrite headers_app, app_nil_r. assumption.
    + rewrite fragments_app, length_app, Hc. cbn [fragments List.length]. lia.
    + rewrite fragments_app, length_app. cbn [fragments List.length].
      rewrite map_app, Nat.add_1_r, seq_S, map_app, Hq. cbn [map].
      rewrite Hseq, Hc. do 3 f_equal. lia.
    + symmetry. apply pendingCount_empty. eapply trafParts_cleared. eassumption.
  - apply cachePush_inv in H. destruct H as ((t & Ht) & ->).
    constructor; cbn [afterPush state emitted chunkIndex cachedPackets tracks];
      try assumption.
    unfold trackAt in Ht. destruct (id <? 0); [discriminate | ].
    rewrite (pushAt_pending _ _ _ _ Ht). lia.
Qed.

Lemma prims_Inv this this' : prims this this' -> Inv this -> Inv this'.
Proof. induction 1; eauto using prim_Inv. Qed.

(** *** The constructed muxer *)

Lemma trackinfoLoop_caches metadata infos : forall i acc,
  Forall (fun t => cache t = []) (fst (fst acc)) ->
  Forall (fun t => cache t = [])
         (fst (fst (trackinfoLoop metadata infos i acc))).
Proof.
  induction infos as [| info rest IH]; intros i [[ts a] v] H;
    cbn [trackinfoLoop]; [assumption | ].
  cbn [fst] in H.
  destruct (is_sampletype _ (audiocodecid metadata));
    [ | destruct (is_sampletype _ (videocodecid metadata))];
    apply IH; cbn [fst]; apply Forall_app; split; try assumption;
    constructor; constructor || reflexivity.
Qed.

Lemma constructor_Fresh metadata this :
  constructor metadata = Ok this -> Fresh this.
Proof.
  unfold constructor. destruct (trackinfo metadata) as [infos | ].
  - pose proof (trackinfoLoop_caches metadata infos 0 ([], -1, -1)
                  (Forall_nil _)) as Hc.
    destruct (trackinfoLoop metadata infos 0 ([], -1, -1)) as [[ts a] v].
    intros [= <-]. constructor; try reflexivity. exact Hc.
  - intros H. apply bind_ok in H. destruct H as ([ts a] & Ha & H).
    assert (Hts : Forall (fun t => cache t = []) ts).
    { destruct (truthy (audiocodecid metadata));
        [destruct (is_not_number (audiocodecid metadata) 2);
           [discriminate | ] | ];
        injection Ha as <- <-; repeat constructor. }
    destruct (truthy (videocodecid metadata));
      [destruct (is_not_number (videocodecid metadata) 4);
         [discriminate | ] | ];
      injection H as <-; constructor; try reflexivity; cbn [mkMux tracks];
      try assumption.
    apply Forall_app. split; [assumption | repeat constructor].
Qed.

Lemma Fresh_Inv this : Fresh this -> Inv this.
Proof.
  intros [Hs He Hn Hc _ Ht]. constructor.
  - left. assumption.
  - rewrite He, Hs. reflexivity.
  - rewrite He, Hc. reflexivity.
  - rewrite He. reflexivity.
  - rewrite Hn. symmetry. apply pendingCount_empty. assumption.
Qed.

Lemma reachable_prims this :
  reachable this -> exists this0, Fresh this0 /\ prims this0 this.
Proof.
  intros (metadata & this0 & cs & H0 & Hc). exists this0.
  split; [eapply constructor_Fresh | eapply calls_prims]; eassumption.
Qed.

Lemma reachable_Inv this : reachable this -> Inv this.
Proof.
  intros H. apply reachable_prims in H. destruct H as (this0 & H0 & Hp).
  eapply prims_Inv; [eassumption | apply Fresh_Inv; assumption].
Qed.

Lemma reachable_constructed metadata this :
  constructor metadata = Ok this -> reachable this.
Proof. intros H. exists metadata, this, []. split; [assumption | reflexivity]. Qed.

Lemma calls_app cs1 : forall cs2 this,
  calls this (cs1 ++ cs2) = (s <- calls this cs1 ;; calls s cs2).
Proof.
  induction cs1 as [| c cs1 IH]; intros cs2 this; cbn [calls app bind];
    [reflexivity | ].
  destruct (call this c) as [s | e]; cbn [bind]; [apply IH | reflexivity].
Qed.

Lemma reachable_calls this cs this' :
  reachable this -> calls this cs = Ok this' -> reachable this'.
Proof.
  intros (metadata & this0 & cs0 & H0 & Hc) H.
  exists metadata, this0, (cs0 ++ cs). split; [assumption | ].
  rewrite calls_app, Hc. exact H.
Qed.

Lemma reachable_call this c this' :
  reachable this -> call this c = Ok this' -> reachable this'.
Proof.
  intros Hr H. apply (reachable_calls this [c]); [assumption | ].
  cbn [calls]. rewrite H. reflexivity.
Qed.

Lemma pendingCount_nonneg tracks : 0 <= pendingCount tracks.
Proof.
  unfold pendingCount, cacheLength, sumZ.
  induction tracks as [| t r IH]; cbn [map fold_right]; lia.
Qed.

(** ** Sequence numbers of the fragments *)

(** C7. Along any series of [pushPacket] and [flush] calls on a constructed
    muxer, the k-th fragment handed to [ondata] (k = 1, 2, ...) carries k in
    the sequence-number field of its [mfhd] box (as the 32-bit big-endian
    integer [encodeInt32 k]), and [chunkIndex] counts the fragments
    emitted. *)
Theorem fragment_sequence_numbers
    (metadata : Metadata) (this0 : MP4Mux) (cs : list Call) (this : MP4Mux) :
  constructor metadata = Ok this0 ->
  calls this0 cs = Ok this ->
  let fs := fragments (emitted this) in
  map sequenceNumber fs
    = map (fun k => encodeInt32 (Z.of_nat k)) (seq 1 (List.length fs)) /\
  chunkIndex this = Z.of_nat (List.length fs) /\
  forall k f, nth_error fs k = Some f -> Z.of_nat k + 1 < 2 ^ 32 ->
              decodeUint32 (sequenceNumber f) = Z.of_nat k + 1.
Proof.
  intros H0 Hc fs.
  assert (HI : Inv this).
  { apply reachable_Inv. exists metadata, this0, cs. auto. }
  destruct HI as [_ _ Hidx Hseq _]. fold fs in Hidx, Hseq.
  split; [exact Hseq | split; [exact Hidx | ]].
  intros k f Hk Hlt.
  assert (Hlen : (k < List.length fs)%nat)
    by (apply nth_error_Some; congruence).
  apply (map_nth_error sequenceNumber) in Hk. rewrite Hseq in Hk.
  rewrite nth_error_map, nth_error_seq in Hk.
  destruct (Nat.ltb_spec k (List.length fs)); [ | lia].
  cbn [option_map] in Hk. injection Hk as <-.
  rewrite decode_encodeInt32_small; lia.
Qed.

(** Running a series of calls from the state an equation [_ = Ok m] names. *)
Ltac run_from H0 cs Hc :=
  match type of H0 with
  | _ = Ok ?m => eassert (Hc : calls m cs = Ok _) by (vm_compute; reflexivity)
  end.

(** C7 on a run that emits two fragments: five VP6 inter frames (the ceiling
    cuts fragment 1), a key frame, and a flush (fragment 2). *)
Lemma fragment_sequence_numbers_witness :
  exists this0 this,
    constructor legacyVideo = Ok this0 /\
    calls this0 [push 9 vp6Inter; push 9 vp6Inter; push 9 vp6Inter;
                 push 9 vp6Inter; push 9 vp6Inter; push 9 vp6Key; Flush]
      = Ok this /\
    map sequenceNumber (fragments (emitted this)) = [[0; 0; 0; 1]; [0; 0; 0; 2]] /\
    chunkIndex this = 2.
Proof.
  eassert (H0 : constructor legacyVideo = Ok _) by (vm_compute; reflexivity).
  run_from H0 [push 9 vp6Inter; push 9 vp6Inter; push 9 vp6Inter;
               push 9 vp6Inter; push 9 vp6Inter; push 9 vp6Key; Flush] Hc.
  destruct (fragment_sequence_numbers _ _ _ _ H0 Hc) as (H1 & H2 & _).
  eexists _, _. split; [exact H0 | split; [exact Hc | split]].
  - rewrite H1. vm_compute. reflexivity.
  - rewrite H2. vm_compute. reflexivity.
Defined.

(** ** Explicit flush *)

Lemma reachable_cachedPackets this : reachable this -> 0 <= cachedPackets this.
Proof.
  intros H. apply reachable_Inv in H. destruct H as [_ _ _ _ ->].
  apply pendingCount_nonneg.
Qed.

(** C8. In a state with no pending packet [flush] returns the state as it
    is: nothing is handed to [ondata], and neither [chunkIndex] nor any
    other field changes. With pending packets it is one [_chunk]: one
    fragment is handed to [ondata], numbered [chunkIndex + 1]. *)
Theorem flush_spec (this : MP4Mux) :
  reachable this ->
  (cachedPackets this = 0 -> flush this = Ok this) /\
  (cachedPackets this <> 0 ->
   flush this = _chunk this /\
   forall this', flush this = Ok this' ->
     exists tracks' chunk,
       this' = afterChunk this tracks' chunk /\
       emitted this' = emitted this ++ [Fragment chunk] /\
       chunkIndex this' = chunkIndex this + 1 /\
       sequenceNumber chunk = encodeInt32 (chunkIndex this + 1)).
Proof.
  intros Hr. pose proof (reachable_cachedPackets this Hr) as Hn.
  unfold flush. split; intros H.
  - rewrite H. reflexivity.
  - destruct (Z.gtb_spec (cachedPackets this) 0); [ | lia].
    split; [reflexivity | ]. intros this' Hc.
    apply _chunk_emits in Hc. destruct Hc as (tracks' & chunk & -> & Hs).
    exists tracks', chunk. auto.
Qed.

(** C8 on a fresh muxer (nothing pending) and on the same muxer with two
    samples pending. *)
Lemma flush_spec_witness :
  exists this0 this2,
    constructor legacyVideo = Ok this0 /\
    flush this0 = Ok this0 /\
    calls this0 [push 9 vp6Inter; push 9 vp6Inter] = Ok this2 /\
    flush this2 = _chunk this2.
Proof.
  eassert (H0 : constructor legacyVideo = Ok _) by (vm_compute; reflexivity).
  run_from H0 [push 9 vp6Inter; push 9 vp6Inter] Hc.
  eexists _, _. split; [exact H0 | split; [ | split; [exact Hc | ]]].
  - apply (flush_spec _ (reachable_constructed _ _ H0)). reflexivity.
  - apply (flush_spec _ (reachable_calls _ _ _ (reachable_constructed _ _ H0) Hc)).
    vm_compute. discriminate.
Defined.

(** ** The header/fragment state machine *)

(** Replacing every primitive step that returned by the state it left. *)
Ltac prim_facts :=
  repeat match goal with
    | H : generateHeader ?a = Ok ?b |- _ =>
        apply generateHeader_inv in H;
        let ts := fresh "ts" in let h := fresh "header" in
        destruct H as (ts & h & _ & H); try subst b
    | H : _chunk ?a = Ok ?b |- _ =>
        apply _chunk_emits in H;
        let tr := fresh "tracks'" in let c := fresh "chunk" in
        destruct H as (tr & c & H & _); try subst b
    | H : cachePush ?a _ _ = Ok ?b |- _ =>
        apply cachePush_inv in H; destruct H as (_ & H); try subst b
    end.

Lemma prim_frame this this' :
  prim this this' ->
  waitForAdditionalData this' = waitForAdditionalData this /\
  audioTrackId this' = audioTrackId this /\
  videoTrackId this' = videoTrackId this /\
  (state this = 1 -> state this' = 1).
Proof. intros [? ? ? H | ? ? H | ? ? ? ? H]; prim_facts; cbn; auto. Qed.

Lemma prims_frame this this' :
  prims this this' ->
  waitForAdditionalData this' = waitForAdditionalData this /\
  audioTrackId this' = audioTrackId this /\
  videoTrackId this' = videoTrackId this /\
  (state this = 1 -> state this' = 1).
Proof.
  induction 1 as [| a b c Hp _ IH]; [auto | ].
  apply prim_frame in Hp.
  destruct Hp as (E1 & E2 & E3 & Hs), IH as (E4 & E5 & E6 & Hs').
  repeat split; try congruence. auto.
Qed.

Lemma configSample_no_trigger type data :
  configSample type data = true -> headerTrigger type data = false.
Proof.
  unfold configSample, headerTrigger.
  destruct (type =? AUDIO_PACKET) eqn:Ea, (type =? VIDEO_PACKET) eqn:Ev;
    cbn [andb orb];
    try (apply Z.eqb_eq in Ea, Ev; subst type; discriminate);
    repeat match goal with
      | |- context [is_not_zero ?x] => destruct (is_not_zero x)
      | |- context [?a =? ?b] => destruct (a =? b)
      end; cbn; congruence.
Qed.

(** What [pushPacket] does to the state of an uninitialized muxer on the
    deferred path. *)
Lemma pushPacket_deferred_state this type data ts this' :
  waitForAdditionalData this = true -> state this = 0 ->
  pushPacket this type data ts = Ok this' ->
  state this' = (if headerTrigger type data then 1 else 0).
Proof.
  intros Hw Hs H. unfold pushPacket, intake in H. rewrite Hw, Hs in H.
  cbn [Z.eqb negb andb] in H. unfold headerTrigger.
  inv_ok; bool_facts; prim_facts;
    cbn [state afterHeader afterChunk afterPush] in *;
    repeat match goal with
      | H : ?a = _ |- context [?a] => rewrite H
      | H : ?a <> ?b |- context [?a =? ?b] =>
          rewrite (proj2 (Z.eqb_neq a b) H)
      end;
    try congruence;
    cbn; try congruence;
    repeat match goal with
      | H : ?a = _ |- context [?a] => rewrite H
      | H : ?a <> ?b |- context [?a =? ?b] =>
          rewrite (proj2 (Z.eqb_neq a b) H)
      | |- context [?a =? ?b] => destruct (a =? b)
      | |- context [is_not_zero ?x] => destruct (is_not_zero x)
      end; cbn; try congruence; try lia.
Qed.

Lemma prims_headers this this' :
  prims this this' -> state this = 1 ->
  headers (emitted this') = headers (emitted this).
Proof.
  induction 1 as [| a b c Hp Hps IH]; intros Hs; [reflexivity | ].
  pose proof (prim_frame _ _ Hp) as (_ & _ & _ & Hb).
  rewrite IH by auto.
  destruct Hp as [? ? H0 H | ? ? H | ? ? ? ? H]; [lia | | ];
    prim_facts; cbn [emitted afterChunk afterPush];
    [rewrite headers_app, app_nil_r | ]; reflexivity.
Qed.

Lemma reachable_headers this :
  reachable this ->
  (state this = 0 /\ headers (emitted this) = []) \/
  (state this = 1 /\ exists h, headers (emitted this) = [h]).
Proof.
  intros H. apply reachable_Inv in H. destruct H as [[Hs | Hs] Hh _ _ _];
    rewrite Hs in Hh; [left | right]; split; try assumption.
  - destruct (headers (emitted this)); [reflexivity | discriminate].
  - destruct (headers (emitted this)) as [| h [| ? ?]]; try discriminate.
    exists h. reflexivity.
Qed.

Lemma pending_empty tracks :
  Forall (fun t => cache t = []) tracks -> flat_map cache tracks = [].
Proof.
  induction 1 as [| t r Ht _ IH]; cbn [flat_map]; [ | rewrite Ht, IH];
    reflexivity.
Qed.

Lemma pushAt_sole tracks : forall n c t,
  Forall (fun t => cache t = []) tracks ->
  nth_error tracks n = Some t ->
  flat_map cache (pushAt tracks n c) = [c].
Proof.
  induction tracks as [| t0 r IH]; intros [| n] c t Hall H; cbn in H;
    try discriminate; inversion Hall as [| ? ? H0 Hr]; subst.
  - cbn [pushAt flat_map set_cache cache]. rewrite H0, (pending_empty _ Hr).
    reflexivity.
  - cbn [pushAt flat_map]. rewrite H0, (IH _ _ _ Hr H). reflexivity.
Qed.

Lemma afterHeader_cleared this header :
  Forall (fun t => cache t = []) (tracks (afterHeader this header)).
Proof.
  cbn [afterHeader tracks]. apply Forall_forall. intros t Ht.
  apply in_map_iff in Ht. destruct Ht as (t0 & <- & _). reflexivity.
Qed.

Lemma _chunk_cleared this this' :
  _chunk this = Ok this' -> Forall (fun t => cache t = []) (tracks this').
Proof.
  intros H. apply _chunk_inv in H.
  destruct H as (parts & tracks' & ? & ? & ? & Hp & _ & _ & _ & ->).
  cbn [afterChunk tracks]. eapply trafParts_cleared. eassumption.
Qed.

Lemma cachePush_sole this id c this' :
  Forall (fun t => cache t = []) (tracks this) ->
  cachePush this id c = Ok this' ->
  pending this' = [c].
Proof.
  intros Hall H. apply cachePush_inv in H. destruct H as ((t & Ht) & ->).
  unfold pending. cbn [afterPush tracks]. unfold trackAt in Ht.
  destruct (id <? 0); [discriminate | ].
  eapply pushAt_sole; eassumption.
Qed.

(** What [pushPacket] does with an in-band configuration sample on the
    deferred path, in state 0: no header; a key frame flag on pending samples
    flushes them first, and the ceiling flushes the sample with the others. *)
Lemma pushPacket_configSample this type data ts this' :
  waitForAdditionalData this = true -> state this = 0 ->
  configSample type data = true ->
  pushPacket this type data ts = Ok this' ->
  if keyFlagged type data && negb (cachedPackets this =? 0)
  then cachedPackets this' = 1 /\
       pending this' = [sampleOf type data ts] /\
       exists tracks' chunk,
         _chunk this = Ok (afterChunk this tracks' chunk) /\
         emitted this' = emitted this ++ [Fragment chunk]
  else if cachedPackets this + 1 >=? MAX_PACKETS_IN_CHUNK
  then cachedPackets this' = 0 /\ pending this' = [] /\
       _chunk (afterPush this (trackIdOf this type) (sampleOf type data ts))
       = Ok this' /\
       exists chunk, emitted this' = emitted this ++ [Fragment chunk]
  else cachedPackets this' = cachedPackets this + 1 /\
       (exists t, trackAt (tracks this) (trackIdOf this type) = Some t) /\
       tracks this'
       = pushAt (tracks this) (Z.to_nat (trackIdOf this type))
                (sampleOf type data ts) /\
       emitted this' = emitted this.
Proof.
  intros Hw Hs Hc Hp. unfold pushPacket, intake in Hp. rewrite Hw, Hs in Hp.
  cbn [Z.eqb negb andb bind] in Hp.
  unfold configSample in Hc. unfold keyFlagged, sampleOf, trackIdOf.
  destruct (type =? AUDIO_PACKET) eqn:Ea.
  - assert (Ev : (type =? VIDEO_PACKET) = false)
      by (apply Z.eqb_eq in Ea; subst type; reflexivity).
    rewrite Ev in *. cbn [andb orb] in Hc |- *.
    rewrite orb_false_r in Hc. apply andb_true_iff in Hc.
    destruct Hc as (Hcodec & Hpt). apply Z.eqb_eq in Hcodec.
    apply negb_true_iff in Hpt.
    rewrite Hcodec, Hpt in Hp.
    change (AAC_SOUND_CODEC_ID =? MP3_SOUND_CODEC_ID) with false in Hp.
    change (AAC_SOUND_CODEC_ID =? AAC_SOUND_CODEC_ID) with true in Hp.
    cbn [andb bind] in Hp.
    apply bind_ok in Hp. destruct Hp as (s & Hpush & Hp).
    apply cachePush_inv in Hpush. destruct Hpush as (Ht & ->).
    cbn [afterPush cachedPackets] in Hp.
    destruct (cachedPackets this + 1 >=? MAX_PACKETS_IN_CHUNK).
    + pose proof (_chunk_cleared _ _ Hp) as Hcl. pose proof Hp as Hk.
      apply _chunk_emits in Hp. destruct Hp as (tr & chunk & -> & _).
      split; [reflexivity | split; [ | split; [exact Hk | ]]].
      * unfold pending. apply pending_empty, Hcl.
      * eexists. reflexivity.
    + injection Hp as <-. cbn [afterPush cachedPackets tracks emitted].
      auto.
  - cbn [andb orb] in Hc. apply andb_true_iff in Hc.
    destruct Hc as (Hc & Hpt). apply andb_true_iff in Hc.
    destruct Hc as (Ev & Hcodec). apply Z.eqb_eq in Hcodec.
    apply negb_true_iff in Hpt.
    rewrite Ev, Hcodec, Hpt in Hp. rewrite Ev. cbn [andb].
    change (AVC_VIDEO_CODEC_ID =? VP6_VIDEO_CODEC_ID) with false in Hp.
    change (AVC_VIDEO_CODEC_ID =? AVC_VIDEO_CODEC_ID) with true in Hp.
    cbn [andb bind] in Hp.
    destruct ((VideoPacket.frameType (parseVideodata data) =? 1)
              && negb (cachedPackets this =? 0)) eqn:Ek;
      cbn [andb] in Hp |- *.
    + apply bind_ok in Hp. destruct Hp as (s & E & Hp).
      apply bind_ok in E. destruct E as (s1 & Hk & Hpush).
      pose proof (_chunk_cleared _ _ Hk) as Hcl. pose proof Hk as Hk0.
      apply _chunk_emits in Hk. destruct Hk as (tr & chunk & -> & _).
      pose proof (cachePush_sole _ _ _ _ Hcl Hpush) as Hsole.
      apply cachePush_inv in Hpush. destruct Hpush as (_ & ->).
      cbn [afterPush afterChunk cachedPackets] in Hp.
      change (0 + 1 >=? MAX_PACKETS_IN_CHUNK) with false in Hp.
      injection Hp as <-.
      split; [reflexivity | split; [exact Hsole | ]].
      exists tr, chunk. split; [exact Hk0 | reflexivity].
    + apply bind_ok in Hp. destruct Hp as (s & Hpush & Hp).
      apply cachePush_inv in Hpush. destruct Hpush as (Ht & ->).
      cbn [afterPush cachedPackets] in Hp.
      destruct (cachedPackets this + 1 >=? MAX_PACKETS_IN_CHUNK).
      * pose proof (_chunk_cleared _ _ Hp) as Hcl. pose proof Hp as Hk.
        apply _chunk_emits in Hp. destruct Hp as (tr & chunk & -> & _).
        split; [reflexivity | split; [ | split; [exact Hk | ]]].
        -- unfold pending. apply pending_empty, Hcl.
        -- eexists. reflexivity.
      * injection Hp as <-. cbn [afterPush cachedPackets tracks emitted].
        auto.
Qed.

(** C1, as the code has it. A muxer emits at most one header: in state 0
    none has been emitted, in state 1 exactly one, and once in state 1 it
    stays there and emits no other. On the deferred path an uninitialized
    muxer does not emit the header on an in-band configuration sample (AAC
    or AVC packet type 0): the state stays 0 and the sample goes the way of
    any sample. If it is an AVC sample flagged as a key frame and samples
    are pending, these leave in a fragment and it is the only sample cached;
    otherwise, if it is the fifth sample pending, it leaves with the other
    four in a fragment; otherwise it is appended to the cache of its track
    and nothing is emitted. The muxer emits the header on the first AAC or
    AVC sample whose packet type is not 0, and on no other packet, nor on a
    flush. *)
Theorem deferred_header_emission (this : MP4Mux) :
  reachable this ->
  ((state this = 0 /\ headers (emitted this) = []) \/
   (state this = 1 /\ exists h, headers (emitted this) = [h])) /\
  (state this = 1 ->
   forall cs this', calls this cs = Ok this' ->
     state this' = 1 /\ headers (emitted this') = headers (emitted this)) /\
  (waitForAdditionalData this = true -> state this = 0 ->
   forall type data ts this',
     pushPacket this type data ts = Ok this' ->
     (configSample type data = true ->
      state this' = 0 /\ headers (emitted this') = [] /\
      if keyFlagged type data && negb (cachedPackets this =? 0)
      then cachedPackets this' = 1 /\
           pending this' = [sampleOf type data ts] /\
           exists tracks' chunk,
             _chunk this = Ok (afterChunk this tracks' chunk) /\
             emitted this' = emitted this ++ [Fragment chunk]
      else if cachedPackets this + 1 >=? MAX_PACKETS_IN_CHUNK
      then cachedPackets this' = 0 /\ pending this' = [] /\
           _chunk (afterPush this (trackIdOf this type)
                             (sampleOf type data ts)) = Ok this' /\
           exists chunk, emitted this' = emitted this ++ [Fragment chunk]
      else cachedPackets this' = cachedPackets this + 1 /\
           (exists t, trackAt (tracks this) (trackIdOf this type) = Some t) /\
           tracks this'
           = pushAt (tracks this) (Z.to_nat (trackIdOf this type))
                    (sampleOf type data ts) /\
           emitted this' = emitted this) /\
     (headerTrigger type data = true ->
      state this' = 1 /\ exists h, headers (emitted this') = [h]) /\
     (headerTrigger type data = false ->
      state this' = 0 /\ headers (emitted this') = [])) /\
  (state this = 0 ->
   forall this', flush this = Ok this' ->
     state this' = 0 /\ headers (emitted this') = []).
Proof.
  intros Hr. split; [apply reachable_headers; assumption | split; [ | split]].
  - intros Hs cs this' Hc. apply calls_prims in Hc. split.
    + apply (prims_frame _ _ Hc). assumption.
    + apply prims_headers; assumption.
  - intros Hw Hs type data ts this' Hp.
    pose proof (pushPacket_deferred_state _ _ _ _ _ Hw Hs Hp) as Hst.
    assert (Hr' : reachable this')
      by (apply (reachable_call this (PushPacket type data ts)); assumption).
    apply reachable_headers in Hr'.
    assert (Hno : headerTrigger type data = false ->
                  state this' = 0 /\ headers (emitted this') = []).
    { intros Ht. rewrite Ht in Hst.
      destruct Hr' as [[_ Hh] | [Hs' _]]; [auto | lia]. }
    split; [ | split].
    + intros Hc.
      destruct (Hno (configSample_no_trigger _ _ Hc)) as (Hs' & Hh).
      split; [exact Hs' | split; [exact Hh | ]].
      exact (pushPacket_configSample _ _ _ _ _ Hw Hs Hc Hp).
    + intros Ht. rewrite Ht in Hst.
      destruct Hr' as [[Hs' _] | [_ Hh]]; [lia | auto].
    + exact Hno.
  - intros Hs this' Hf.
    assert (Hr' : reachable this')
      by (apply (reachable_call this Flush); assumption).
    apply reachable_headers in Hr'.
    assert (Hs' : state this' = 0).
    { unfold flush in Hf. destruct (cachedPackets this >? 0).
      - apply _chunk_emits in Hf. destruct Hf as (tr & chunk & -> & _).
        exact Hs.
      - injection Hf as <-. exact Hs. }
    destruct Hr' as [[_ Hh] | [Hs1 _]]; [auto | lia].
Qed.

(** C1 on the deferred AAC + AVC muxer: the two configuration samples leave
    it uninitialized with nothing emitted; the first AVC slice then makes it
    emit the header. Had three more AAC configuration samples come instead,
    the last of them, the fifth sample pending, would have left with the
    others in a fragment, the muxer still uninitialized and no header
    emitted. *)
Lemma deferred_header_emission_witness :
  exists this0 this2 this3 this4 this5,
    constructor deferredAacAvc = Ok this0 /\
    calls this0 [push 9 avcConfig; push 8 aacConfig] = Ok this2 /\
    state this2 = 0 /\ emitted this2 = [] /\
    pushPacket this2 9 avcKey t0 = Ok this3 /\
    (state this3 = 1 /\ exists h, headers (emitted this3) = [h]) /\
    calls this2 [push 8 aacConfig; push 8 aacConfig] = Ok this4 /\
    emitted this4 = [] /\ cachedPackets this4 = 4 /\
    pushPacket this4 8 aacConfig t0 = Ok this5 /\
    state this5 = 0 /\ headers (emitted this5) = [] /\
    cachedPackets this5 = 0 /\ pending this5 = [] /\
    exists chunk, emitted this5 = [Fragment chunk].
Proof.
  eassert (H0 : constructor deferredAacAvc = Ok _) by (vm_compute; reflexivity).
  run_from H0 [push 9 avcConfig; push 8 aacConfig] Hc.
  match type of Hc with
  | _ = Ok ?m =>
      eassert (Hp : pushPacket m 9 avcKey t0 = Ok _) by (vm_compute; reflexivity);
      eassert (Hc4 : calls m [push 8 aacConfig; push 8 aacConfig] = Ok _)
        by (vm_compute; reflexivity)
  end.
  match type of Hc4 with
  | _ = Ok ?m =>
      eassert (Hp5 : pushPacket m 8 aacConfig t0 = Ok _)
        by (vm_compute; reflexivity)
  end.
  pose proof (reachable_calls _ _ _ (reachable_constructed _ _ H0) Hc) as Hr2.
  pose proof (reachable_calls _ _ _ Hr2 Hc4) as Hr4.
  pose proof (proj1 (proj2 (proj1 (proj2 (proj2
                (deferred_header_emission _ Hr2)))
                eq_refl eq_refl _ _ _ _ Hp)) eq_refl) as H3.
  pose proof (proj1 (proj1 (proj2 (proj2
                (deferred_header_emission _ Hr4)))
                eq_refl eq_refl _ _ _ _ Hp5) eq_refl) as (Hs5 & Hh5 & H5).
  cbv beta iota delta [keyFlagged Z.eqb Pos.eqb AUDIO_PACKET VIDEO_PACKET
                       andb negb cachedPackets Z.add Pos.add Pos.succ
                       Z.geb Z.compare Pos.compare Pos.compare_cont
                       MAX_PACKETS_IN_CHUNK emitted app] in H5.
  destruct H5 as (Hn5 & Hpe5 & _ & Hem5).
  eexists _, _, _, _, _.
  split; [exact H0 | split; [exact Hc | ]].
  split; [reflexivity | split; [reflexivity | split; [exact Hp | ]]].
  split; [exact H3 | split; [exact Hc4 | ]].
  split; [reflexivity | split; [reflexivity | split; [exact Hp5 | ]]].
  split; [exact Hs5 | split; [exact Hh5 | split; [exact Hn5 | ]]].
  split; [exact Hpe5 | exact Hem5].
Defined.

(** C1, the claim as written fails: an AAC configuration sample (packet type
    0) pushed to an uninitialized muxer on the deferred path is cached; no
    header is emitted and the state stays 0. The same holds for an AVC
    configuration sample. *)
Lemma config_sample_emits_no_header :
  exists this0 this1 this2,
    constructor deferredAacAvc = Ok this0 /\
    waitForAdditionalData this0 = true /\ state this0 = 0 /\
    pushPacket this0 8 aacConfig t0 = Ok this1 /\
    state this1 = 0 /\ emitted this1 = [] /\ cachedPackets this1 = 1 /\
    pushPacket this0 9 avcConfig t0 = Ok this2 /\
    state this2 = 0 /\ emitted this2 = [] /\ cachedPackets this2 = 1.
Proof.
  eexists _, _, _.
  split; [vm_compute; reflexivity | ].
  split; [reflexivity | split; [reflexivity | ]].
  split; [vm_compute; reflexivity | ].
  split; [reflexivity | split; [reflexivity | split; [reflexivity | ]]].
  split; [vm_compute; reflexivity | ].
  split; [reflexivity | split; reflexivity].
Qed.

(** *** Between two calls *)

Lemma generateHeader_state this this' :
  generateHeader this = Ok this' -> state this' = 1 /\ cachedPackets this' = 0.
Proof. intros H. prim_facts. auto. Qed.

(** When the header is due on entry, [pushPacket] is the header followed by
    [pushPacket] on the initialized muxer. *)
Lemma pushPacket_header_first this type data ts :
  state this = 0 -> waitForAdditionalData this = false ->
  pushPacket this type data ts =
    (this1 <- generateHeader this ;; pushPacket this1 type data ts).
Proof.
  intros Hs Hw. unfold pushPacket at 1. unfold intake at 1.
  rewrite Hs, Hw. cbn [Z.eqb negb andb].
  destruct (generateHeader this) as [this1 | e] eqn:E; cbn [bind]; [ | reflexivity].
  apply generateHeader_state in E. destruct E as [E _].
  unfold pushPacket, intake.
  replace ((state this1 =? 0) && negb (waitForAdditionalData this1))
    with false by (rewrite E; reflexivity).
  reflexivity.
Qed.

Lemma pushPacket_below_ceiling this type data ts this' :
  pushPacket this type data ts = Ok this' ->
  cachedPackets this' < MAX_PACKETS_IN_CHUNK.
Proof.
  unfold pushPacket. intros H. apply bind_ok in H. destruct H as (s & _ & H).
  destruct (Z.geb_spec (cachedPackets s) MAX_PACKETS_IN_CHUNK).
  - prim_facts. cbn. reflexivity.
  - injection H as <-. assumption.
Qed.

(** The states between two calls: fewer than five samples pending, and
    none at all while a muxer whose header is not deferred is still
    uninitialized. *)
Lemma reachable_boundary this :
  reachable this ->
  cachedPackets this < MAX_PACKETS_IN_CHUNK /\
  (state this = 0 -> waitForAdditionalData this = false ->
   cachedPackets this = 0).
Proof.
  intros (metadata & this0 & cs & H0 & Hc). revert this Hc.
  induction cs as [| c cs IH] using rev_ind; intros this Hc.
  - injection Hc as <-. apply constructor_Fresh in H0.
    destruct H0 as [_ _ -> _ _ _]. split; [reflexivity | auto].
  - rewrite calls_app in Hc. apply bind_ok in Hc. destruct Hc as (s & Hs & Hc).
    assert (Hr : reachable s) by (exists metadata, this0, cs; auto).
    destruct (IH s Hs) as [Hlt HE]. clear IH.
    cbn [calls] in Hc. apply bind_ok in Hc. destruct Hc as (s' & Hc & [= <-]).
    destruct c as [type data ts | ]; cbn [call] in Hc.
    + split; [eapply pushPacket_below_ceiling; eassumption | ].
      intros Hst Hw. exfalso.
      pose proof (pushPacket_prims _ _ _ _ _ Hc) as Hp.
      apply prims_frame in Hp. destruct Hp as (Hw' & _ & _ & Hmono).
      rewrite Hw in Hw'. symmetry in Hw'.
      destruct (inv_state _ (reachable_Inv _ Hr)) as [Hs0 | Hs1]; [ | lia].
      rewrite pushPacket_header_first in Hc by assumption.
      apply bind_ok in Hc. destruct Hc as (s1 & Hh & Hc).
      apply generateHeader_state in Hh. destruct Hh as [Hh _].
      apply pushPacket_prims, prims_frame in Hc. lia.
    + unfold flush in Hc. destruct (cachedPackets s >? 0).
      * prim_facts. cbn. split; [reflexivity | auto].
      * injection Hc as <-. auto.
Qed.

(** ** Key frames *)

Lemma bind_assoc {A B C} (r : result A) (f : A -> result B)
    (g : B -> result C) :
  bind (bind r f) g = bind r (fun a => bind (f a) g).
Proof. destruct r; reflexivity. Qed.

(** A sample pushed to a muxer with nothing pending stays below the ceiling:
    it is the only sample pending, and nothing is emitted. *)
Lemma push_after_clear mid id key this' :
  (s <- cachePush mid id key ;;
   if cachedPackets s >=? MAX_PACKETS_IN_CHUNK then _chunk s else Ok s)
    = Ok this' ->
  Forall (fun t => cache t = []) (tracks mid) ->
  cachedPackets mid = 0 ->
  cachePush mid id key = Ok this' /\
  pending this' = [key] /\ cachedPackets this' = 1 /\
  emitted this' = emitted mid.
Proof.
  intros H Hclr Hcp. apply bind_ok in H. destruct H as (s & Hpush & H).
  pose proof (cachePush_sole _ _ _ _ Hclr Hpush) as Hsole.
  pose proof Hpush as Hpush'.
  apply cachePush_inv in Hpush'. destruct Hpush' as (_ & Es).
  assert (Hone : cachedPackets s = 1) by (subst s; cbn; lia).
  rewrite Hone in H. cbn in H. injection H as <-.
  repeat split; try assumption. subst s. reflexivity.
Qed.

(** C2, as the code has it. A key frame (VP6 or AVC) arrives while samples
    are pending. Unless this very call emits the header, the pending samples
    are first flushed as one fragment ([_chunk] on the state as the call
    found it), and the key frame is then cached. When the call emits the
    header (an AVC sample of packet type other than 0 on an uninitialized
    muxer), the header takes the pending samples, no fragment is emitted,
    and the key frame is then cached. Either way the key frame is the only
    sample pending after the call. *)
Theorem key_frame_flush (this : MP4Mux) (data : Uint8Array) (ts : JS.number)
    (this' : MP4Mux) :
  reachable this ->
  VideoPacket.codecId (parseVideodata data) = VP6_VIDEO_CODEC_ID \/
  VideoPacket.codecId (parseVideodata data) = AVC_VIDEO_CODEC_ID ->
  VideoPacket.frameType (parseVideodata data) = 1 ->
  cachedPackets this <> 0 ->
  pushPacket this VIDEO_PACKET data ts = Ok this' ->
  let key := {| packet := Video (parseVideodata data); timestamp := ts |} in
  pending this' = [key] /\ cachedPackets this' = 1 /\
  (headerTrigger VIDEO_PACKET data && (state this =? 0) = false ->
   exists flushed,
     _chunk this = Ok flushed /\
     cachePush flushed (videoTrackId this) key = Ok this' /\
     exists chunk, emitted this' = emitted this ++ [Fragment chunk]) /\
  (headerTrigger VIDEO_PACKET data && (state this =? 0) = true ->
   exists initialized,
     generateHeader this = Ok initialized /\
     cachePush initialized (videoTrackId this) key = Ok this' /\
     exists header, emitted this' = emitted this ++ [Header header]).
Proof.
  intros Hr Hcodec Hkey Hn Hp key.
  destruct (reachable_boundary _ Hr) as [_ HE].
  assert (Hfirst : (state this =? 0) && negb (waitForAdditionalData this) = false).
  { destruct (Z.eqb_spec (state this) 0) as [Hs | Hs]; [ | reflexivity].
    destruct (waitForAdditionalData this); [reflexivity | ].
    exfalso. apply Hn, HE; auto. }
  assert (Hnz : negb (cachedPackets this =? 0) = true)
    by (apply negb_true_iff, Z.eqb_neq; assumption).
  unfold pushPacket, intake in Hp. rewrite Hfirst in Hp.
  change (VIDEO_PACKET =? AUDIO_PACKET) with false in Hp.
  change (VIDEO_PACKET =? VIDEO_PACKET) with true in Hp.
  cbn [bind] in Hp. rewrite Hkey in Hp.
  change (1 =? 1) with true in Hp. cbn [andb] in Hp.
  fold key in Hp. rewrite bind_assoc in Hp.
  unfold headerTrigger.
  change (VIDEO_PACKET =? AUDIO_PACKET) with false.
  change (VIDEO_PACKET =? VIDEO_PACKET) with true. cbn [andb orb].
  destruct Hcodec as [Hc | Hc]; rewrite Hc in *;
    [change (VP6_VIDEO_CODEC_ID =? VP6_VIDEO_CODEC_ID) with true in Hp;
     change (VP6_VIDEO_CODEC_ID =? AVC_VIDEO_CODEC_ID) with false
    |change (AVC_VIDEO_CODEC_ID =? VP6_VIDEO_CODEC_ID) with false in Hp;
     change (AVC_VIDEO_CODEC_ID =? AVC_VIDEO_CODEC_ID) with true in Hp;
     change (AVC_VIDEO_CODEC_ID =? AVC_VIDEO_CODEC_ID) with true];
    cbn [andb] in *.
  - (* VP6 *)
    rewrite Hnz in Hp.
    apply bind_ok in Hp. destruct Hp as (flushed & Hch & Hp).
    pose proof (_chunk_cleared _ _ Hch) as Hclr.
    pose proof Hch as Hch'. apply _chunk_emits in Hch'.
    destruct Hch' as (tracks' & chunk & Ef & _).
    replace (videoTrackId flushed) with (videoTrackId this) in Hp
      by (subst; reflexivity).
    apply push_after_clear in Hp; [ | assumption | subst; reflexivity].
    destruct Hp as (Hpush & Hsole & Hone & Hem).
    split; [assumption | split; [assumption | split]]; [ | discriminate].
    intros _. exists flushed. split; [assumption | split; [assumption | ]].
    exists chunk. rewrite Hem, Ef. reflexivity.
  - (* AVC *)
    destruct (is_not_zero (VideoPacket.packetType (parseVideodata data))
              && (state this =? 0)) eqn:Htrig.
    + rewrite bind_assoc in Hp.
      apply bind_ok in Hp. destruct Hp as (initialized & Hh & Hp).
      pose proof Hh as Hh'. apply generateHeader_inv in Hh'.
      destruct Hh' as (tks & header & _ & Ei).
      replace (cachedPackets initialized) with 0 in Hp by (subst; reflexivity).
      cbn [Z.eqb negb bind] in Hp.
      replace (videoTrackId initialized) with (videoTrackId this) in Hp
        by (subst; reflexivity).
      apply push_after_clear in Hp;
        [ | rewrite Ei; apply afterHeader_cleared | subst; reflexivity].
      destruct Hp as (Hpush & Hsole & Hone & Hem).
      split; [assumption | split; [assumption | split]]; [discriminate | ].
      intros _. exists initialized. split; [assumption | split; [assumption | ]].
      exists header. rewrite Hem, Ei. reflexivity.
    + cbn [bind] in Hp. rewrite Hnz in Hp.
      apply bind_ok in Hp. destruct Hp as (flushed & Hch & Hp).
      pose proof (_chunk_cleared _ _ Hch) as Hclr.
      pose proof Hch as Hch'. apply _chunk_emits in Hch'.
      destruct Hch' as (tracks' & chunk & Ef & _).
      replace (videoTrackId flushed) with (videoTrackId this) in Hp
        by (subst; reflexivity).
      apply push_after_clear in Hp; [ | assumption | subst; reflexivity].
      destruct Hp as (Hpush & Hsole & Hone & Hem).
      split; [assumption | split; [assumption | split]]; [ | discriminate].
      intros _. exists flushed. split; [assumption | split; [assumption | ]].
      exists chunk. rewrite Hem, Ef. reflexivity.
Qed.

(** C2 on the legacy VP6 muxer: two inter frames are pending when a key
    frame arrives; they go out as fragment 1 and the key frame is left
    pending alone. *)
Lemma key_frame_flush_witness :
  exists this0 this2 this3 header chunk,
    constructor legacyVideo = Ok this0 /\
    calls this0 [push 9 vp6Inter; push 9 vp6Inter] = Ok this2 /\
    cachedPackets this2 = 2 /\
    pushPacket this2 9 vp6Key t0 = Ok this3 /\
    pending this3
      = [{| packet := Video (parseVideodata vp6Key); timestamp := t0 |}] /\
    emitted this3 = [Header header; Fragment chunk] /\
    sequenceNumber chunk = [0; 0; 0; 1].
Proof.
  eassert (H0 : constructor legacyVideo = Ok _) by (vm_compute; reflexivity).
  run_from H0 [push 9 vp6Inter; push 9 vp6Inter] Hc.
  match type of Hc with
  | _ = Ok ?m =>
      eassert (Hp : pushPacket m 9 vp6Key t0 = Ok _) by (vm_compute; reflexivity)
  end.
  match type of Hc with
  | _ = Ok ?m =>
      assert (Hne : cachedPackets m <> 0) by (vm_compute; discriminate)
  end.
  destruct (key_frame_flush _ vp6Key t0 _
              (reachable_calls _ _ _ (reachable_constructed _ _ H0) Hc)
              (or_introl eq_refl) eq_refl Hne Hp) as (Hsole & _).
  eexists _, _, _, _, _.
  split; [exact H0 | split; [exact Hc | split; [reflexivity | ]]].
  split; [exact Hp | split; [exact Hsole | ]].
  split; reflexivity.
Defined.

(** C2, the claim as written fails: with the two configuration samples
    pending on the deferred AAC + AVC muxer, the first AVC key-frame slice
    makes the muxer emit its header, which takes the pending samples; no
    fragment is emitted by the call (nor before it). *)
Lemma key_frame_on_uninitialized_emits_no_fragment :
  exists this0 this2 this3 header,
    constructor deferredAacAvc = Ok this0 /\
    calls this0 [push 9 avcConfig; push 8 aacConfig] = Ok this2 /\
    cachedPackets this2 = 2 /\
    VideoPacket.codecId (parseVideodata avcKey) = AVC_VIDEO_CODEC_ID /\
    VideoPacket.frameType (parseVideodata avcKey) = 1 /\
    pushPacket this2 VIDEO_PACKET avcKey t0 = Ok this3 /\
    emitted this3 = [Header header] /\
    fragments (emitted this3) = [] /\
    pending this3
      = [{| packet := Video (parseVideodata avcKey); timestamp := t0 |}].
Proof.
  eassert (H0 : constructor deferredAacAvc = Ok _) by (vm_compute; reflexivity).
  run_from H0 [push 9 avcConfig; push 8 aacConfig] Hc.
  match type of Hc with
  | _ = Ok ?m =>
      eassert (Hp : pushPacket m VIDEO_PACKET avcKey t0 = Ok _)
        by (vm_compute; reflexivity)
  end.
  eexists _, _, _, _.
  split; [exact H0 | split; [exact Hc | split; [reflexivity | ]]].
  split; [reflexivity | split; [reflexivity | split; [exact Hp | ]]].
  split; [reflexivity | split; reflexivity].
Qed.

(** ** The ceiling on pending packets *)

(** On an initialized muxer an inter frame is cached, and the ceiling is
    then checked; nothing else happens. *)
Lemma pushPacket_inter this data ts :
  state this = 1 -> interVideo data = true ->
  pushPacket this VIDEO_PACKET data ts =
    (s <- cachePush this (videoTrackId this) (videoSample data ts) ;;
     if cachedPackets s >=? MAX_PACKETS_IN_CHUNK then _chunk s else Ok s).
Proof.
  intros Hs Hi. unfold interVideo in Hi.
  apply andb_true_iff in Hi. destruct Hi as [Hc Hk].
  apply negb_true_iff in Hk.
  unfold pushPacket, intake. rewrite Hs.
  change (VIDEO_PACKET =? AUDIO_PACKET) with false.
  change (VIDEO_PACKET =? VIDEO_PACKET) with true.
  cbn [Z.eqb andb bind]. rewrite Hk. cbn [andb].
  destruct (VideoPacket.codecId (parseVideodata data) =? VP6_VIDEO_CODEC_ID);
    [reflexivity | ].
  cbn [orb] in Hc. rewrite Hc, Hs. cbn [Z.eqb]. rewrite andb_false_r.
  reflexivity.
Qed.

Lemma inter_push_below this data ts this' :
  state this = 1 -> interVideo data = true ->
  cachedPackets this + 1 < MAX_PACKETS_IN_CHUNK ->
  pushPacket this VIDEO_PACKET data ts = Ok this' ->
  this' = afterPush this (videoTrackId this) (videoSample data ts).
Proof.
  intros Hs Hi Hlt H. rewrite pushPacket_inter in H by assumption.
  apply bind_ok in H. destruct H as (s & Hp & H).
  apply cachePush_inv in Hp. destruct Hp as (_ & ->).
  cbn [afterPush cachedPackets] in H.
  destruct (Z.geb_spec (cachedPackets this + 1) MAX_PACKETS_IN_CHUNK); [lia | ].
  injection H as <-. reflexivity.
Qed.

Lemma inter_push_ceiling this data ts this' :
  state this = 1 -> interVideo data = true ->
  MAX_PACKETS_IN_CHUNK <= cachedPackets this + 1 ->
  pushPacket this VIDEO_PACKET data ts = Ok this' ->
  _chunk (afterPush this (videoTrackId this) (videoSample data ts)) = Ok this'.
Proof.
  intros Hs Hi Hlt H. rewrite pushPacket_inter in H by assumption.
  apply bind_ok in H. destruct H as (s & Hp & H).
  apply cachePush_inv in Hp. destruct Hp as (_ & ->).
  cbn [afterPush cachedPackets] in H.
  destruct (Z.geb_spec (cachedPackets this + 1) MAX_PACKETS_IN_CHUNK); [ | lia].
  exact H.
Qed.

(** Five inter frames pushed to a fresh muxer whose header is not deferred:
    the header goes out on entry to the first call, the first four calls
    emit nothing else, and the fifth emits fragment 1. *)
Lemma five_inter_frames metadata this0 d1 d2 d3 d4 d5 ts1 ts2 ts3 ts4 ts5 this5 :
  constructor metadata = Ok this0 ->
  waitForAdditionalData this0 = false ->
  forallb interVideo [d1; d2; d3; d4; d5] = true ->
  calls this0 [PushPacket VIDEO_PACKET d1 ts1; PushPacket VIDEO_PACKET d2 ts2;
               PushPacket VIDEO_PACKET d3 ts3; PushPacket VIDEO_PACKET d4 ts4;
               PushPacket VIDEO_PACKET d5 ts5] = Ok this5 ->
  exists this4 header chunk,
    calls this0 [PushPacket VIDEO_PACKET d1 ts1; PushPacket VIDEO_PACKET d2 ts2;
                 PushPacket VIDEO_PACKET d3 ts3; PushPacket VIDEO_PACKET d4 ts4]
      = Ok this4 /\
    emitted this4 = [Header header] /\ cachedPackets this4 = 4 /\
    emitted this5 = [Header header; Fragment chunk] /\
    cachedPackets this5 = 0 /\
    sequenceNumber chunk = encodeInt32 1.
Proof.
  intros H0 Hw Hi Hc. apply constructor_Fresh in H0.
  destruct H0 as [Hs He Hn Hx _ _].
  cbn [forallb] in Hi. rewrite !andb_true_iff in Hi.
  destruct Hi as (I1 & I2 & I3 & I4 & I5 & _).
  cbn [calls] in Hc.
  apply bind_ok in Hc. destruct Hc as (s1 & H1 & Hc).
  apply bind_ok in Hc. destruct Hc as (s2 & H2 & Hc).
  apply bind_ok in Hc. destruct Hc as (s3 & H3 & Hc).
  apply bind_ok in Hc. destruct Hc as (s4 & H4 & Hc).
  apply bind_ok in Hc. destruct Hc as (s5 & H5 & Hc).
  injection Hc as <-. cbn [call] in *.
  exists s4.
  assert (F4 : calls this0
                 [PushPacket VIDEO_PACKET d1 ts1; PushPacket VIDEO_PACKET d2 ts2;
                  PushPacket VIDEO_PACKET d3 ts3; PushPacket VIDEO_PACKET d4 ts4]
               = Ok s4).
  { cbn [calls call]. rewrite H1. cbn [bind]. rewrite H2. cbn [bind].
    rewrite H3. cbn [bind]. rewrite H4. reflexivity. }
  rewrite pushPacket_header_first in H1 by assumption.
  apply bind_ok in H1. destruct H1 as (h0 & Hh & H1).
  apply generateHeader_inv in Hh. destruct Hh as (tks & header & _ & ->).
  apply inter_push_below in H1; [ | reflexivity | assumption | cbn; unfold MAX_PACKETS_IN_CHUNK; lia ].
  subst s1.
  apply inter_push_below in H2; [ | reflexivity | assumption | cbn; unfold MAX_PACKETS_IN_CHUNK; lia ].
  subst s2.
  apply inter_push_below in H3; [ | reflexivity | assumption | cbn; unfold MAX_PACKETS_IN_CHUNK; lia ].
  subst s3.
  apply inter_push_below in H4; [ | reflexivity | assumption | cbn; unfold MAX_PACKETS_IN_CHUNK; lia ].
  apply inter_push_ceiling in H5;
    [ | subst s4; reflexivity | assumption | subst s4; cbn; unfold MAX_PACKETS_IN_CHUNK; lia ].
  apply _chunk_emits in H5. destruct H5 as (tracks' & chunk & -> & Hseq).
  exists header, chunk.
  split; [exact F4 | ].
  subst s4. cbn [afterChunk afterPush afterHeader emitted cachedPackets chunkIndex]
    in *.
  rewrite He, Hx in *. cbn [app Z.add] in *.
  repeat split; try reflexivity. exact Hseq.
Qed.

(** ** Boxes that fit *)

Lemma len_cons (a : Z) (l : Uint8Array) : len (a :: l) = 1 + len l.
Proof. unfold len. cbn [List.length]. lia. Qed.

Lemma len_nil : len [] = 0.
Proof. reflexivity. Qed.

Lemma len_encodeUint16 n : len (encodeUint16 n) = 2.
Proof. reflexivity. Qed.

Lemma len_encodeFloat n : len (encodeFloat n) = 4.
Proof. reflexivity. Qed.

Lemma len_encodeFloat16 n : len (encodeFloat16 n) = 2.
Proof. reflexivity. Qed.

Lemma len_encodeLang s : len (encodeLang s) = 2.
Proof. reflexivity. Qed.

Lemma tag_returns name data :
  strlen name = 4 -> 8 + len (flatten data) <= 0x7FFFFFFF ->
  exists box, tag name data = Ok box /\ len box = 8 + len (flatten data).
Proof.
  intros Hn Hl. eexists. split; [apply tag_ok; assumption | ].
  rewrite !len_app, len_strBytes, len_encodeInt32. lia.
Qed.

(** The length of a buffer assembled from encoders and constants. *)
Ltac len_consts :=
  repeat match goal with
    | |- context [len (hex ?s)] =>
        let v := eval vm_compute in (len (hex s)) in
        change (len (hex s)) with v
    | |- context [len ?c] =>
        is_const c;
        let v := eval vm_compute in (len c) in
        change (len c) with v
    end.

Ltac len_simpl :=
  cbn [flatten map concat];
  rewrite ?len_app, ?len_cons, ?len_nil, ?len_encodeInt32, ?len_encodeUint16,
    ?len_encodeFloat, ?len_encodeFloat16, ?len_encodeLang;
  len_consts.

(** One [tag] of the goal that fits: it is replaced by the box it returns,
    of which only the length is kept. *)
Ltac tag_step :=
  match goal with
  | |- context [tag ?n ?d] =>
      let box := fresh "box" in let E := fresh "E" in let L := fresh "L" in
      destruct (tag_returns n d) as (box & E & L);
      [ reflexivity
      | len_simpl; lia
      | rewrite E; cbn [bind]; clear E;
        revert L; len_simpl; intro L ]
  end.

Lemma trak_vp6f i t :
  type t = "vp6f"%string -> exists box, trak i t = Ok box /\ len box = 436.
Proof.
  intros Ht. unfold trak, codecInfo. rewrite Ht.
  cbn [String.eqb Ascii.eqb Bool.eqb].
  repeat tag_step. eexists. split; [reflexivity | lia].
Qed.

Lemma trak_mp3 i t :
  type t = "mp3"%string -> exists box, trak i t = Ok box /\ len box = 373.
Proof.
  intros Ht. unfold trak, codecInfo. rewrite Ht.
  cbn [String.eqb Ascii.eqb Bool.eqb].
  repeat tag_step. eexists. split; [reflexivity | lia].
Qed.

Lemma traks_legacy tracks : forall i,
  Forall legacyType tracks ->
  exists boxes,
    traks i tracks = Ok boxes /\
    len (concat boxes) <= 436 * len_tracks tracks.
Proof.
  unfold len_tracks.
  induction tracks as [| t r IH]; intros i H; cbn [traks].
  - exists []. split; [reflexivity | cbn; lia].
  - inversion H as [| ? ? Ht Hr]; subst.
    destruct (IH (i + 1) Hr) as (boxes & -> & Hl).
    assert (Hb : exists box, trak i t = Ok box /\ len box <= 436).
    { destruct Ht as [Ht | Ht];
        [destruct (trak_mp3 i t Ht) as (box & E & L)
        |destruct (trak_vp6f i t Ht) as (box & E & L)];
        exists box; split; try assumption; lia. }
    destruct Hb as (box & -> & Hbl). cbn [bind].
    eexists. split; [reflexivity | ].
    cbn [concat List.length]. rewrite len_app. lia.
Qed.

Lemma flatten_bytes (boxes : list Uint8Array) :
  concat (map flatten (map Bytes boxes)) = concat boxes.
Proof. rewrite map_map. cbn [flatten]. rewrite map_id. reflexivity. Qed.

(** The header of a muxer of legacy tracks is always generated. *)
Lemma generateHeader_legacy this :
  Forall legacyType (tracks this) -> len_tracks (tracks this) <= 2 ->
  exists this', generateHeader this = Ok this'.
Proof.
  intros Ht Hn. unfold generateHeader.
  destruct (traks_legacy _ 0 Ht) as (boxes & -> & Hl). cbn [bind].
  destruct (tag_returns "moov"
              (Arr [Arr [Bytes MVHD; Bytes (encodeInt32 (len_tracks (tracks this)))];
                    Arr (map Bytes boxes); Bytes MVEX_AND_UDAT]))
    as (moov & -> & _).
  - reflexivity.
  - cbn [flatten map concat]. rewrite flatten_bytes.
    rewrite ?len_app, ?len_nil, ?len_encodeInt32. len_consts. lia.
  - cbn [bind]. eexists. reflexivity.
Qed.

(** ** Header generation and the cached configuration *)

Lemma codecInfo_empty t :
  needsConfig t = true -> cache t = [] -> codecInfo t = Throw TypeError.
Proof.
  unfold needsConfig, codecInfo. intros Hn Hc.
  destruct (type t =? "mp4a")%string eqn:Ea.
  - rewrite Hc. reflexivity.
  - cbn [orb] in Hn. apply String.eqb_eq in Hn. rewrite Hn, Hc. reflexivity.
Qed.

Lemma trak_empty i t :
  needsConfig t = true -> cache t = [] -> trak i t = Throw TypeError.
Proof.
  intros Hn Hc. unfold trak. rewrite codecInfo_empty by assumption. reflexivity.
Qed.

Lemma traks_ok_caches tracks : forall i boxes,
  traks i tracks = Ok boxes ->
  forall t, In t tracks -> needsConfig t = true -> cache t <> [].
Proof.
  induction tracks as [| t0 r IH]; intros i boxes H t Hin Hn Hc;
    [destruct Hin | ].
  cbn [traks] in H. apply bind_ok in H. destruct H as (b & Hb & H).
  apply bind_ok in H. destruct H as (bs & Hbs & _).
  destruct Hin as [<- | Hin].
  - rewrite trak_empty in Hb by assumption. discriminate.
  - eapply IH; eassumption.
Qed.

Lemma traks_app pre : forall i post,
  traks i (pre ++ post) =
    (a <- traks i pre ;;
     b <- traks (i + len_tracks pre) post ;;
     Ok (a ++ b)).
Proof.
  unfold len_tracks.
  induction pre as [| t r IH]; intros i post; cbn [app traks bind List.length].
  - rewrite Z.add_0_r. destruct (traks i post); reflexivity.
  - destruct (trak i t) as [b | e]; cbn [bind]; [ | reflexivity].
    rewrite IH. replace (i + 1 + Z.of_nat (List.length r))
      with (i + Z.of_nat (S (List.length r))) by lia.
    destruct (traks (i + 1) r) as [a | e]; cbn [bind]; [ | reflexivity].
    destruct (traks _ post); reflexivity.
Qed.

(** C9, as the code has it. [generateHeader] returns only if every 'mp4a'
    and every 'avc1' track holds a cached sample. When such a track has an
    empty cache, the loop over the tracks throws at the first track that
    cannot be built: if every track before the empty one was built, it
    throws the [TypeError] of reading [cache[0].packet], which is none of the
    error kinds of the specification; otherwise it throws the error of that
    earlier track. *)
Theorem header_needs_cached_configuration (this : MP4Mux) :
  (forall this',
     generateHeader this = Ok this' ->
     forall t, In t (tracks this) -> needsConfig t = true -> cache t <> []) /\
  (forall pre t post,
     tracks this = pre ++ t :: post ->
     needsConfig t = true -> cache t = [] ->
     (forall boxes, traks 0 pre = Ok boxes ->
                    generateHeader this = Throw TypeError) /\
     (forall e, traks 0 pre = Throw e -> generateHeader this = Throw e) /\
     exists e, generateHeader this = Throw e) /\
  kind_of TypeError = None.
Proof.
  split; [ | split; [ | reflexivity]].
  - intros this' H. apply generateHeader_inv in H.
    destruct H as (ts & header & Hts & _). eapply traks_ok_caches. eassumption.
  - intros pre t post Ht Hn Hc.
    assert (E : generateHeader this =
                (a <- traks 0 pre ;; Throw TypeError)).
    { unfold generateHeader. rewrite Ht, traks_app. cbn [traks].
      rewrite trak_empty by assumption.
      destruct (traks 0 pre); reflexivity. }
    rewrite E. split; [ | split].
    + intros boxes ->. reflexivity.
    + intros e ->. reflexivity.
    + destruct (traks 0 pre); eexists; reflexivity.
Qed.

(** C9 on the deferred AAC + AVC muxer: the AVC configuration sample is
    cached, then an AAC frame makes the muxer emit its header while the cache
    of the AVC track holds a sample and that of the AAC track is empty: a
    [TypeError]. *)
Lemma header_needs_cached_configuration_witness :
  exists this0 this1,
    constructor deferredAacAvc = Ok this0 /\
    calls this0 [push 9 avcConfig] = Ok this1 /\
    generateHeader this1 = Throw TypeError /\
    pushPacket this1 8 aacFrame t0 = Throw TypeError.
Proof.
  eassert (H0 : constructor deferredAacAvc = Ok _) by (vm_compute; reflexivity).
  run_from H0 [push 9 avcConfig] Hc.
  eexists _, _. split; [exact H0 | split; [exact Hc | split]].
  - match goal with
    | |- generateHeader ?m = _ =>
        match eval cbv [tracks] in (tracks m) with
        | ?t :: ?post =>
            exact (proj1 (proj1 (proj2 (header_needs_cached_configuration m))
                            [] t post eq_refl eq_refl eq_refl) [] eq_refl)
        end
    end.
  - vm_compute. reflexivity.
Defined.

(** C9, the claim as written fails: header emission fires (on an AAC frame)
    while the cache of the 'mp4a' track is empty, and what is thrown is
    'not supported track type', raised for the track before it: one of the
    error kinds of the specification. *)
Lemma header_on_empty_cache_throws_specified_error :
  exists this0 t,
    constructor deferredTextAac = Ok this0 /\
    nth_error (tracks this0) 1 = Some t /\
    type t = "mp4a"%string /\ cache t = [] /\
    headerTrigger 8 aacFrame = true /\
    generateHeader this0 = Throw NotSupportedTrackType /\
    pushPacket this0 8 aacFrame t0 = Throw NotSupportedTrackType /\
    kind_of NotSupportedTrackType = Some UnsupportedCodecError.
Proof.
  eexists _, _.
  split; [vm_compute; reflexivity | ].
  split; [reflexivity | split; [reflexivity | split; [reflexivity | ]]].
  split; [reflexivity | split; [vm_compute; reflexivity | ]].
  split; [vm_compute; reflexivity | reflexivity].
Qed.

(** ** Packets for a track the muxer does not have *)

Lemma cachePush_no_track this c : cachePush this (-1) c = Throw TypeError.
Proof. reflexivity. Qed.

Lemma generateHeader_ids this this' :
  generateHeader this = Ok this' ->
  state this' = 1 /\ cachedPackets this' = 0 /\
  audioTrackId this' = audioTrackId this /\
  videoTrackId this' = videoTrackId this.
Proof. intros H. prim_facts. cbn. auto. Qed.

Lemma _chunk_ids this this' :
  _chunk this = Ok this' ->
  state this' = state this /\
  audioTrackId this' = audioTrackId this /\
  videoTrackId this' = videoTrackId this.
Proof. intros H. prim_facts. cbn. auto. Qed.

(** An audio packet of a supported codec pushed to a muxer that has no audio
    track never returns: it throws the error of the header, if the header is
    due in this call and cannot be generated, and a [TypeError] otherwise. *)
Lemma audio_without_track this data ts :
  audioTrackId this = -1 -> supportedAudio data ->
  pushPacket this AUDIO_PACKET data ts = Throw TypeError \/
  exists e, generateHeader this = Throw e /\
            pushPacket this AUDIO_PACKET data ts = Throw e.
Proof.
  intros Ha Hc. unfold pushPacket, intake.
  change (AUDIO_PACKET =? AUDIO_PACKET) with true. cbn match.
  assert (Hpush : forall m,
            audioTrackId m = -1 ->
            (this0 <-
             cachePush m (audioTrackId m)
               {| packet := Audio (parseAudiodata data); timestamp := ts |} ;;
             (if cachedPackets this0 >=? MAX_PACKETS_IN_CHUNK
              then _chunk this0 else Ok this0)) = Throw TypeError).
  { intros m ->. reflexivity. }
  destruct ((state this =? 0) && negb (waitForAdditionalData this)) eqn:Hfirst.
  - destruct (generateHeader this) as [this1 | e] eqn:Hh; cbn [bind].
    + apply generateHeader_ids in Hh. destruct Hh as (Hs1 & _ & Ha1 & _).
      rewrite Ha in Ha1. left.
      destruct Hc as [-> | ->].
      * cbn [Z.eqb Pos.eqb bind MP3_SOUND_CODEC_ID]. apply Hpush. assumption.
      * change (AAC_SOUND_CODEC_ID =? MP3_SOUND_CODEC_ID) with false.
        change (AAC_SOUND_CODEC_ID =? AAC_SOUND_CODEC_ID) with true.
        cbn match. rewrite Hs1. cbn [Z.eqb]. rewrite andb_false_r.
        cbn [bind]. apply Hpush. assumption.
    + right. exists e. auto.
  - cbn [bind]. destruct Hc as [-> | ->].
    + left. cbn [Z.eqb Pos.eqb bind MP3_SOUND_CODEC_ID]. apply Hpush. assumption.
    + change (AAC_SOUND_CODEC_ID =? MP3_SOUND_CODEC_ID) with false.
      change (AAC_SOUND_CODEC_ID =? AAC_SOUND_CODEC_ID) with true.
      cbn match.
      destruct (is_not_zero (AudioPacket.packetType (parseAudiodata data))
                && (state this =? 0)); cbn [bind].
      * destruct (generateHeader this) as [this1 | e] eqn:Hh; cbn [bind].
        -- apply generateHeader_ids in Hh. destruct Hh as (_ & _ & Ha1 & _).
           rewrite Ha in Ha1. left. apply Hpush. assumption.
        -- right. exists e. auto.
      * left. apply Hpush. assumption.
Qed.

(** The same for a video packet and a muxer that has no video track; here
    the flush before a key frame may throw first as well. *)
Lemma video_without_track this data ts :
  videoTrackId this = -1 -> supportedVideo data ->
  pushPacket this VIDEO_PACKET data ts = Throw TypeError \/
  (exists e, generateHeader this = Throw e /\
             pushPacket this VIDEO_PACKET data ts = Throw e) \/
  (exists mid e, (mid = this \/ generateHeader this = Ok mid) /\
                 _chunk mid = Throw e /\
                 pushPacket this VIDEO_PACKET data ts = Throw e).
Proof.
  intros Hv Hc.
  remember (pushPacket this VIDEO_PACKET data ts) as R eqn:ER.
  unfold pushPacket, intake in ER.
  change (VIDEO_PACKET =? AUDIO_PACKET) with false in ER.
  change (VIDEO_PACKET =? VIDEO_PACKET) with true in ER. cbn match in ER.
  rewrite !bind_assoc in ER.
  assert (Hpush : forall m,
            videoTrackId m = -1 ->
            (this0 <-
             cachePush m (videoTrackId m)
               {| packet := Video (parseVideodata data); timestamp := ts |} ;;
             (if cachedPackets this0 >=? MAX_PACKETS_IN_CHUNK
              then _chunk this0 else Ok this0)) = Throw TypeError).
  { intros m ->. reflexivity. }
  (* the flush before a key frame, from a state [m] reached without error *)
  assert (Hflush : forall m,
            videoTrackId m = -1 ->
            (mid <- (if (VideoPacket.frameType (parseVideodata data) =? 1)
                        && negb (cachedPackets m =? 0)
                     then _chunk m else Ok m) ;;
             this0 <-
             cachePush mid (videoTrackId mid)
               {| packet := Video (parseVideodata data); timestamp := ts |} ;;
             (if cachedPackets this0 >=? MAX_PACKETS_IN_CHUNK
              then _chunk this0 else Ok this0)) = Throw TypeError \/
            exists e,
              _chunk m = Throw e /\
              (mid <- (if (VideoPacket.frameType (parseVideodata data) =? 1)
                          && negb (cachedPackets m =? 0)
                       then _chunk m else Ok m) ;;
               this0 <-
               cachePush mid (videoTrackId mid)
                 {| packet := Video (parseVideodata data); timestamp := ts |} ;;
               (if cachedPackets this0 >=? MAX_PACKETS_IN_CHUNK
                then _chunk this0 else Ok this0)) = Throw e).
  { intros m Hm.
    destruct ((VideoPacket.frameType (parseVideodata data) =? 1)
              && negb (cachedPackets m =? 0)); cbn [bind].
    - destruct (_chunk m) as [mid | e] eqn:Hk; cbn [bind].
      + apply _chunk_ids in Hk. destruct Hk as (_ & _ & Hv').
        left. apply Hpush. congruence.
      + right. exists e. auto.
    - left. apply Hpush. assumption. }
  destruct ((state this =? 0) && negb (waitForAdditionalData this)) eqn:Hfirst.
  - destruct (generateHeader this) as [this1 | e] eqn:Hh; cbn [bind] in ER.
    + pose proof Hh as Hh'.
      apply generateHeader_ids in Hh'. destruct Hh' as (Hs1 & _ & _ & Hv1).
      rewrite Hv in Hv1.
      assert (ER' : R =
                (mid <- (if (VideoPacket.frameType (parseVideodata data) =? 1)
                            && negb (cachedPackets this1 =? 0)
                         then _chunk this1 else Ok this1) ;;
                 this0 <-
                 cachePush mid (videoTrackId mid)
                   {| packet := Video (parseVideodata data); timestamp := ts |} ;;
                 (if cachedPackets this0 >=? MAX_PACKETS_IN_CHUNK
                  then _chunk this0 else Ok this0))).
      { rewrite ER. destruct Hc as [-> | ->].
        - change (VP6_VIDEO_CODEC_ID =? VP6_VIDEO_CODEC_ID) with true.
          cbn match. rewrite ?bind_assoc. reflexivity.
        - change (AVC_VIDEO_CODEC_ID =? VP6_VIDEO_CODEC_ID) with false.
          change (AVC_VIDEO_CODEC_ID =? AVC_VIDEO_CODEC_ID) with true.
          cbn match. rewrite Hs1. cbn [Z.eqb]. rewrite andb_false_r.
          cbn [bind]. rewrite ?bind_assoc. reflexivity. }
      destruct (Hflush this1 Hv1) as [E | (e & Ek & E)]; rewrite E in ER'.
      * left. exact ER'.
      * right. right. exists this1, e. auto.
    + right. left. exists e. auto.
  - cbn [bind] in ER.
    assert (ER' : R =
              (mid <- (if (VideoPacket.frameType (parseVideodata data) =? 1)
                          && negb (cachedPackets this =? 0)
                       then _chunk this else Ok this) ;;
               this0 <-
               cachePush mid (videoTrackId mid)
                 {| packet := Video (parseVideodata data); timestamp := ts |} ;;
               (if cachedPackets this0 >=? MAX_PACKETS_IN_CHUNK
                then _chunk this0 else Ok this0)) \/
            (exists e, generateHeader this = Throw e /\ R = Throw e) \/
            (exists this1,
               generateHeader this = Ok this1 /\ videoTrackId this1 = -1 /\
               R =
               (mid <- (if (VideoPacket.frameType (parseVideodata data) =? 1)
                           && negb (cachedPackets this1 =? 0)
                        then _chunk this1 else Ok this1) ;;
                this0 <-
                cachePush mid (videoTrackId mid)
                  {| packet := Video (parseVideodata data); timestamp := ts |} ;;
                (if cachedPackets this0 >=? MAX_PACKETS_IN_CHUNK
                 then _chunk this0 else Ok this0)))).
    { destruct Hc as [Ec | Ec]; rewrite Ec in ER.
      - change (VP6_VIDEO_CODEC_ID =? VP6_VIDEO_CODEC_ID) with true in ER.
        cbn match in ER. rewrite ?bind_assoc in ER. left. exact ER.
      - change (AVC_VIDEO_CODEC_ID =? VP6_VIDEO_CODEC_ID) with false in ER.
        change (AVC_VIDEO_CODEC_ID =? AVC_VIDEO_CODEC_ID) with true in ER.
        cbn match in ER. rewrite ?bind_assoc in ER.
        destruct (is_not_zero (VideoPacket.packetType (parseVideodata data))
                  && (state this =? 0)).
        + destruct (generateHeader this) as [this1 | e] eqn:Hh; cbn [bind] in ER.
          * right. right. exists this1.
            apply generateHeader_ids in Hh. destruct Hh as (_ & _ & _ & Hv1).
            split; [reflexivity | split; [congruence | exact ER]].
          * right. left. exists e. auto.
        + cbn [bind] in ER. left. exact ER. }
    destruct ER' as [ER' | [(e & Hh & ER') | (this1 & Hh & Hv1 & ER')]].
    + destruct (Hflush this Hv) as [E | (e & Ek & E)]; rewrite E in ER'.
      * left. exact ER'.
      * right. right. exists this, e. auto.
    + right. left. exists e. auto.
    + destruct (Hflush this1 Hv1) as [E | (e & Ek & E)]; rewrite E in ER'.
      * left. exact ER'.
      * right. right. exists this1, e. auto.
Qed.

(** *** The legacy configuration *)

Lemma trafParts_types tracks : forall i parts tracks',
  trafParts i tracks = Ok (parts, tracks') ->
  map type tracks' = map type tracks.
Proof.
  induction tracks as [| t r IH]; cbn [trafParts]; intros i parts tracks' H.
  - injection H as <- <-. reflexivity.
  - destruct (cache t) eqn:Ec.
    + apply bind_ok in H. destruct H as ([ps ts] & Hr & H).
      injection H as <- <-. apply IH in Hr. cbn [map snd]. congruence.
    + apply bind_ok in H. destruct H as (part & _ & H).
      apply bind_ok in H. destruct H as ([ps ts] & Hr & H).
      injection H as <- <-. apply IH in Hr. cbn [map snd type set_cache].
      cbn [set_cachedDuration type]. congruence.
Qed.

Lemma pushAt_types tracks : forall n c,
  map type (pushAt tracks n c) = map type tracks.
Proof.
  induction tracks as [| t r IH]; intros [| n] c; cbn [pushAt map];
    try reflexivity.
  rewrite IH. reflexivity.
Qed.

Lemma prim_types this this' :
  prim this this' -> map type (tracks this') = map type (tracks this).
Proof.
  intros [a b _ H | a b H | a id c b H].
  - prim_facts. cbn [afterHeader tracks]. rewrite map_map. reflexivity.
  - apply _chunk_inv in H.
    destruct H as (parts & tracks' & ? & ? & ? & Hp & _ & _ & _ & ->).
    cbn [afterChunk tracks]. eapply trafParts_types. eassumption.
  - prim_facts. cbn [afterPush tracks]. apply pushAt_types.
Qed.

Lemma prims_types this this' :
  prims this this' -> map type (tracks this') = map type (tracks this).
Proof.
  induction 1 as [| a b c Hp _ IH]; [reflexivity | ].
  rewrite IH. apply prim_types. assumption.
Qed.

Lemma legacyType_types l1 l2 :
  map type l1 = map type l2 ->
  Forall legacyType l1 -> Forall legacyType l2 /\ len_tracks l2 = len_tracks l1.
Proof.
  intros E H. split.
  - assert (F : Forall (fun s => s = "mp3"%string \/ s = "vp6f"%string)
                       (map type l1))
      by (apply Forall_map; exact H).
    rewrite E in F. apply Forall_map in F. exact F.
  - unfold len_tracks. apply (f_equal (@List.length _)) in E.
    rewrite !length_map in E. lia.
Qed.

Lemma constructor_legacy metadata this :
  constructor metadata = Ok this -> trackinfo metadata = None ->
  Forall legacyType (tracks this) /\ len_tracks (tracks this) <= 2 /\
  waitForAdditionalData this = false.
Proof.
  unfold constructor. intros H E. rewrite E in H.
  apply bind_ok in H. destruct H as ([ts a] & Ha & H).
  assert (Hts : Forall legacyType ts /\ len_tracks ts <= 1).
  { destruct (truthy (audiocodecid metadata));
      [destruct (is_not_number (audiocodecid metadata) 2);
         [discriminate | ] | ];
      injection Ha as <- <-; split;
      try (constructor; [left; reflexivity | constructor]);
      try constructor; cbn; lia. }
  destruct Hts as [Hts Hn].
  destruct (truthy (videocodecid metadata));
    [destruct (is_not_number (videocodecid metadata) 4);
       [discriminate | ] | ];
    injection H as <-; cbn [mkMux tracks waitForAdditionalData].
  - split; [ | split; [ | reflexivity]].
    + apply Forall_app. split; [assumption | ].
      constructor; [right; reflexivity | constructor].
    + unfold len_tracks in *. rewrite length_app. cbn [List.length]. lia.
  - split; [assumption | split; [lia | reflexivity]].
Qed.

(** C10, as the code has it. A packet of a supported codec whose track the
    muxer does not have never returns. An audio packet throws the
    [TypeError] of reading [this.tracks[-1].cache], which is none of the
    error kinds of the specification, unless the header is due in the same
    call and its generation throws first. A video packet does the same,
    unless the header or the flush before a key frame throws first. On a
    muxer built from the legacy configuration without an audio track, an
    audio packet of a supported codec always throws that [TypeError]. *)
Theorem packet_for_missing_track (this : MP4Mux) (data : Uint8Array)
    (ts : JS.number) :
  (audioTrackId this = -1 -> supportedAudio data ->
   (forall this', pushPacket this AUDIO_PACKET data ts <> Ok this') /\
   (pushPacket this AUDIO_PACKET data ts = Throw TypeError \/
    exists e, generateHeader this = Throw e /\
              pushPacket this AUDIO_PACKET data ts = Throw e)) /\
  (videoTrackId this = -1 -> supportedVideo data ->
   (forall this', pushPacket this VIDEO_PACKET data ts <> Ok this') /\
   (pushPacket this VIDEO_PACKET data ts = Throw TypeError \/
    (exists e, generateHeader this = Throw e /\
               pushPacket this VIDEO_PACKET data ts = Throw e) \/
    (exists mid e, (mid = this \/ generateHeader this = Ok mid) /\
                   _chunk mid = Throw e /\
                   pushPacket this VIDEO_PACKET data ts = Throw e))) /\
  (forall metadata this0 cs,
     constructor metadata = Ok this0 -> trackinfo metadata = None ->
     calls this0 cs = Ok this ->
     audioTrackId this = -1 -> supportedAudio data ->
     pushPacket this AUDIO_PACKET data ts = Throw TypeError) /\
  kind_of TypeError = None.
Proof.
  split; [ | split; [ | split; [ | reflexivity]]].
  - intros Ha Hc. pose proof (audio_without_track this data ts Ha Hc) as H.
    split; [ | exact H].
    intros this' E. destruct H as [H | (e & _ & H)]; congruence.
  - intros Hv Hc. pose proof (video_without_track this data ts Hv Hc) as H.
    split; [ | exact H].
    intros this' E.
    destruct H as [H | [(e & _ & H) | (mid & e & _ & _ & H)]]; congruence.
  - intros metadata this0 cs H0 Hl Hcs Ha Hc.
    destruct (audio_without_track this data ts Ha Hc) as [H | (e & He & _)];
      [exact H | exfalso].
    destruct (constructor_legacy _ _ H0 Hl) as (Ht & Hn & _).
    apply calls_prims, prims_types in Hcs. symmetry in Hcs.
    destruct (legacyType_types _ _ Hcs Ht) as (Ht' & Hn').
    destruct (generateHeader_legacy this Ht') as (this' & E); [lia | ].
    congruence.
Qed.

(** C10 on the legacy VP6-only muxer: an MP3 packet throws [TypeError] when
    it is the first packet, and after a video frame as well. *)
Lemma packet_for_missing_track_witness :
  exists this0 this1,
    constructor legacyVideo = Ok this0 /\
    audioTrackId this0 = -1 /\
    pushPacket this0 AUDIO_PACKET mp3Frame t0 = Throw TypeError /\
    calls this0 [push 9 vp6Key] = Ok this1 /\
    pushPacket this1 AUDIO_PACKET mp3Frame t0 = Throw TypeError.
Proof.
  eassert (H0 : constructor legacyVideo = Ok _) by (vm_compute; reflexivity).
  run_from H0 [push 9 vp6Key] Hc.
  eexists _, _.
  split; [exact H0 | split; [reflexivity | split; [ | split; [exact Hc | ]]]].
  - exact (proj1 (proj2 (proj2 (packet_for_missing_track _ mp3Frame t0)))
             legacyVideo _ [] H0 eq_refl eq_refl eq_refl (or_introl eq_refl)).
  - exact (proj1 (proj2 (proj2 (packet_for_missing_track _ mp3Frame t0)))
             legacyVideo _ _ H0 eq_refl Hc eq_refl (or_introl eq_refl)).
Defined.

(** C10, the claim as written fails: on a muxer without an audio track, an
    AAC frame (a supported codec) makes the muxer generate its header first,
    and the call throws 'not supported track type', one of the error kinds
    of the specification, before any track is accessed. Likewise for an AVC
    slice on the same muxer, which has no video track either. *)
Lemma packet_for_missing_track_throws_specified_error :
  exists this0,
    constructor deferredText = Ok this0 /\
    audioTrackId this0 = -1 /\ videoTrackId this0 = -1 /\
    AudioPacket.codecId (parseAudiodata aacFrame) = AAC_SOUND_CODEC_ID /\
    pushPacket this0 AUDIO_PACKET aacFrame t0 = Throw NotSupportedTrackType /\
    VideoPacket.codecId (parseVideodata avcKey) = AVC_VIDEO_CODEC_ID /\
    pushPacket this0 VIDEO_PACKET avcKey t0 = Throw NotSupportedTrackType /\
    kind_of NotSupportedTrackType = Some UnsupportedCodecError.
Proof.
  eexists. split; [vm_compute; reflexivity | ].
  split; [reflexivity | split; [reflexivity | split; [reflexivity | ]]].
  split; [vm_compute; reflexivity | split; [reflexivity | ]].
  split; [vm_compute; reflexivity | reflexivity].
Qed.

(** ** Durations *)

(** *** Truncation and floor *)

Lemma trunc_floor x k : JS.floor x = Some k -> 0 <= k -> JS.trunc x = k.
Proof.
  destruct x as [s | s | | s m e]; cbn [JS.floor JS.trunc]; try discriminate.
  - intros [= <-] _. reflexivity.
  - intros [= <-]. destruct (Z.leb_spec 0 e) as [He | He].
    + intros _. rewrite Z.shiftl_mul_pow2 by assumption.
      destruct s; [ | reflexivity].
      change (Z.neg m) with (- Z.pos m). lia.
    + rewrite Z.shiftr_div_pow2 by lia. destruct s; [ | reflexivity].
      intros Hk. exfalso.
      assert (Hp : 0 < 2 ^ (- e)) by (apply Z.pow_pos_nonneg; lia).
      assert (Hlt : Z.neg m / 2 ^ (- e) < 0)
        by (apply Z.div_lt_upper_bound; lia).
      lia.
Qed.

Lemma ToInt32_floor x k :
  JS.floor x = Some k -> 0 <= k < 2 ^ 31 -> JS.ToInt32 x = k.
Proof.
  intros Hf Hk. unfold JS.ToInt32. rewrite (trunc_floor x k Hf) by lia.
  apply wrap32_small. lia.
Qed.

(** *** What one track contributes to a fragment *)

Lemma tag_box name data b : tag name data = Ok b -> b = box name (flatten data).
Proof. intros H. apply tag_inv in H. destruct H as (_ & _ & ->). reflexivity. Qed.

Lemma audioTrunTail_entries t :
  audioTrunTail t = hex "02000000" ++ audioRunEntries t.
Proof.
  unfold audioTrunTail, audioRunEntries. cbn [flatten map concat]. f_equal.
  induction (cache t) as [| c r IH]; cbn [flat_map map concat app flatten];
    [reflexivity | ].
  rewrite IH, <- app_assoc. reflexivity.
Qed.

Lemma trafPart_inv i t part :
  trafPart i t = Ok part ->
  tfdt part = box "tfdt" (hex "00000000" ++ encodeInt32 (cachedDuration t)) /\
  totalDuration part = fragmentDuration t /\
  tdat part = tdatOf t /\
  (isAudioTrack t = true ->
   trunTail part = hex "02000000" ++ audioRunEntries t).
Proof.
  unfold trafPart, fragmentDuration, isAudioTrack. intros H.
  apply bind_ok in H. destruct H as (b & Hb & H).
  apply tag_box in Hb. cbn [flatten map concat] in Hb.
  rewrite app_nil_r in Hb. subst b.
  destruct ((type t =? "mp4a") || (type t =? "mp3"))%string.
  - apply bind_ok in H. destruct H as (h & _ & H). injection H as <-.
    cbn [tfdt totalDuration tdat trunTail].
    repeat split. intros _. apply audioTrunTail_entries.
  - destruct ((type t =? "avc1") || (type t =? "vp6f"))%string; [ | discriminate].
    apply bind_ok in H. destruct H as (h & _ & H). injection H as <-.
    cbn [tfdt totalDuration tdat trunTail].
    repeat split. discriminate.
Qed.

Lemma trafParts_spec tracks : forall i parts tracks',
  trafParts i tracks = Ok (parts, tracks') ->
  Forall2 (fun it part => trafPart (fst it) (snd it) = Ok part)
          (contributing i tracks) parts /\
  tracks' = map advance tracks.
Proof.
  induction tracks as [| t r IH]; cbn [trafParts contributing map];
    intros i parts tracks' H.
  - injection H as <- <-. split; [constructor | reflexivity].
  - unfold advance at 1. destruct (cache t) eqn:Ec.
    + apply bind_ok in H. destruct H as ([ps ts] & Hr & H).
      injection H as <- <-. apply IH in Hr. destruct Hr as (Hf & ->).
      split; [exact Hf | reflexivity].
    + apply bind_ok in H. destruct H as (part & Hp & H).
      apply bind_ok in H. destruct H as ([ps ts] & Hr & H).
      injection H as <- <-. apply IH in Hr. destruct Hr as (Hf & ->).
      cbn [fst snd]. split.
      * constructor; [exact Hp | exact Hf].
      * apply trafPart_inv in Hp. destruct Hp as (_ & -> & _). reflexivity.
Qed.

Lemma trafs_spec parts : forall tdatOffset boxes,
  trafs parts tdatOffset = Ok boxes ->
  Forall2 (fun part traf =>
             exists offset,
               traf = box "traf" (tfhd part ++ tfdt part
                                  ++ box "trun" (trunHead part
                                                 ++ encodeInt32 offset
                                                 ++ trunTail part)))
          parts boxes.
Proof.
  induction parts as [| part r IH]; cbn [trafs]; intros off boxes H.
  - injection H as <-. constructor.
  - apply bind_ok in H. destruct H as (trun & Htrun & H).
    apply bind_ok in H. destruct H as (traf & Htraf & H).
    apply bind_ok in H. destruct H as (bs & Hbs & H). injection H as <-.
    constructor; [ | eapply IH; eassumption].
    exists off. apply tag_box in Htrun, Htraf.
    cbn [flatten map concat] in Htrun, Htraf.
    rewrite app_nil_r in Htrun, Htraf. subst. reflexivity.
Qed.

(** *** Time stamps play no part *)

Lemma trafPart_retime f i t : trafPart i (retimeTrack f t) = trafPart i t.
Proof.
  unfold trafPart, retimeTrack, audioTrunTail, videoTrunTail, tdatOf,
    cacheLength, audioFrameDuration, videoFrameDuration.
  cbn [set_cache type cache cachedDuration samplerate timescale framerate].
  rewrite length_map, !map_map, !flat_map_concat_map, !map_map.
  cbn [retimeSample packet].
  destruct (cache t) as [| c0 r]; reflexivity.
Qed.

Lemma trafParts_retime f tracks : forall i,
  trafParts i (map (retimeTrack f) tracks) = trafParts i tracks.
Proof.
  induction tracks as [| t r IH]; intros i; cbn [map trafParts];
    [reflexivity | ].
  rewrite trafPart_retime, IH.
  destruct t as [lang ty tsc ca cd sr ch fr w h].
  destruct ca as [| c0 ca]; reflexivity.
Qed.

Lemma _chunk_retime f this : _chunk (retime f this) = _chunk this.
Proof.
  unfold _chunk. cbn [retime tracks chunkIndex audioTrackId videoTrackId
                      waitForAdditionalData filePos state emitted].
  rewrite trafParts_retime. reflexivity.
Qed.

Lemma baseMediaDecodeTime_box n :
  baseMediaDecodeTime (box "tfdt" (hex "00000000" ++ encodeInt32 n))
  = n mod 2 ^ 32.
Proof.
  unfold baseMediaDecodeTime, box.
  change (hex "00000000") with [0; 0; 0; 0].
  change (strBytes "tfdt") with [116; 102; 100; 116].
  set (size := encodeInt32 _).
  assert (Hs : List.length size = 4%nat) by apply encodeInt32_length.
  destruct size as [| s0 [| s1 [| s2 [| s3 [| ? ?]]]]]; try discriminate.
  cbn [app skipn].
  pose proof (encodeInt32_length n) as Hn.
  destruct (encodeInt32 n) as [| n0 [| n1 [| n2 [| n3 [| ? ?]]]]] eqn:En;
    try discriminate.
  cbn [firstn]. rewrite <- En. apply decode_encodeInt32.
Qed.

(** C4, as the code has it. In the fragment [_chunk] emits, every track with
    a non-empty cache has, in track order, one [traf] box holding its
    [tfhd], its [tfdt] and its [trun]; the [tfdt] carries the track's
    [cachedDuration] as it was before the call, written as a 32-bit integer:
    the value read back is [cachedDuration] modulo 2^32, which is
    [cachedDuration] itself as long as that lies in 0 .. 2^32-1; and nothing
    in the fragment depends on a time stamp. The run entries of an audio
    track give each sample the duration [(samples / samplerate * timescale)
    | 0]: division and multiplication in double precision, each rounded to
    nearest, then truncated to 32 bits; this is the floor of that double
    product when it lies in 0 .. 2^31-1. A video sample lasts [(timescale /
    framerate) | 0], likewise. After the call the [cachedDuration] of every
    such track has grown by the sum of these durations (audio) or by the
    number of cached samples times the frame duration (video), and its cache
    is empty; the other tracks are untouched. *)
Theorem fragment_timing (this this' : MP4Mux) :
  _chunk this = Ok this' ->
  (exists parts trafBoxes mdat,
     emitted this' =
       emitted this
       ++ [Fragment (box "moof" (moofHeaderOf (chunkIndex this + 1)
                                 ++ concat trafBoxes) ++ mdat)] /\
     Forall2 (fun part traf =>
                exists offset,
                  traf = box "traf" (tfhd part ++ tfdt part
                                     ++ box "trun" (trunHead part
                                                    ++ encodeInt32 offset
                                                    ++ trunTail part)))
             parts trafBoxes /\
     Forall2 (fun it part =>
                tfdt part = box "tfdt" (hex "00000000"
                                        ++ encodeInt32 (cachedDuration (snd it))) /\
                baseMediaDecodeTime (tfdt part)
                = cachedDuration (snd it) mod 2 ^ 32 /\
                (0 <= cachedDuration (snd it) < 2 ^ 32 ->
                 baseMediaDecodeTime (tfdt part) = cachedDuration (snd it)) /\
                (isAudioTrack (snd it) = true ->
                 trunTail part = hex "02000000" ++ audioRunEntries (snd it)))
             (contributing 0 (tracks this)) parts) /\
  tracks this' = map advance (tracks this) /\
  (forall f, _chunk (retime f this) = Ok this') /\
  (forall t p k,
     floorAudioDuration t p = Some k -> 0 <= k < 2 ^ 31 ->
     audioFrameDuration t p = k) /\
  (forall t k,
     floorVideoDuration t = Some k -> 0 <= k < 2 ^ 31 ->
     videoFrameDuration t = k).
Proof.
  intros H. split; [ | split; [ | split; [ | split]]].
  - apply _chunk_inv in H.
    destruct H as (parts & tracks' & moofParts & moof & mdat
                   & Hp & Htr & Hmoof & _ & ->).
    exists parts, moofParts, mdat. split; [ | split].
    + apply tag_box in Hmoof. cbn [flatten map concat] in Hmoof.
      rewrite flatten_bytes in Hmoof. subst moof. reflexivity.
    + eapply trafs_spec. eassumption.
    + apply trafParts_spec in Hp. destruct Hp as (Hf & _).
      eapply Forall2_impl; [ | exact Hf].
      intros it part Hit. apply trafPart_inv in Hit.
      destruct Hit as (Htfdt & _ & _ & Htail).
      split; [exact Htfdt | ]. rewrite Htfdt, baseMediaDecodeTime_box.
      split; [reflexivity | split; [ | exact Htail]].
      intros Hb. apply Z.mod_small. exact Hb.
  - apply _chunk_inv in H.
    destruct H as (parts & tracks' & ? & ? & ? & Hp & _ & _ & _ & ->).
    apply trafParts_spec in Hp. destruct Hp as (_ & ->). reflexivity.
  - intros f. rewrite _chunk_retime. exact H.
  - intros t p k Hf Hk. apply ToInt32_floor; assumption.
  - intros t k Hf Hk. apply ToInt32_floor; assumption.
Qed.

(** C4 on an AAC track at 44100 Hz with two frames pending: each lasts 1024
    units, the fragment's [tfdt] carries 0, and the track has advanced by
    2048 after the fragment. *)
Lemma fragment_timing_witness :
  exists this0 this3 this4 t,
    constructor (deferredAac 44100) = Ok this0 /\
    calls this0 [push 8 aacConfig; push 8 aacFrame; push 8 aacFrame] = Ok this3 /\
    tracks this3 = [t] /\
    map (fun c => audioFrameDuration t (packet c)) (cache t) = [1024; 1024] /\
    _chunk this3 = Ok this4 /\
    map cachedDuration (tracks this4) = [2048] /\
    map cache (tracks this4) = [[]].
Proof.
  eassert (H0 : constructor (deferredAac 44100) = Ok _)
    by (vm_compute; reflexivity).
  run_from H0 [push 8 aacConfig; push 8 aacFrame; push 8 aacFrame] Hc.
  match type of Hc with
  | _ = Ok ?m => eassert (Hk : _chunk m = Ok _) by (vm_compute; reflexivity)
  end.
  destruct (fragment_timing _ _ Hk) as (_ & Ht & _).
  eexists _, _, _, _.
  split; [exact H0 | split; [exact Hc | split; [reflexivity | ]]].
  split; [vm_compute; reflexivity | split; [exact Hk | ]].
  rewrite Ht. split; vm_compute; reflexivity.
Defined.

(** C4, the claim as written fails when the floor is taken of the exact
    value: an AAC track at 5500 Hz with time scale 5500. A frame of 1024
    samples lasts floor(1024 / 5500 x 5500) = 1024 units, but the double
    1024 / 5500 * 5500 is 1023.9999999999999 and the run entry says 1023;
    after a fragment of two frames the track has advanced by 2046. *)
Lemma audio_duration_below_exact_floor :
  exists this0 this3 this4 t,
    constructor (deferredAac 5500) = Ok this0 /\
    calls this0 [push 8 aacConfig; push 8 aacFrame; push 8 aacFrame] = Ok this3 /\
    tracks this3 = [t] /\
    samplerate t = JS.of_Z 5500 /\ timescale t = JS.of_Z 5500 /\
    map (fun c => packet_samples (packet c)) (cache t) = [Some 1024; Some 1024] /\
    map (fun c => audioFrameDuration t (packet c)) (cache t) = [1023; 1023] /\
    exactAudioDuration 1024 5500 5500 = 1024 /\
    flush this3 = Ok this4 /\
    map cachedDuration (tracks this4) = [2046].
Proof.
  eassert (H0 : constructor (deferredAac 5500) = Ok _)
    by (vm_compute; reflexivity).
  run_from H0 [push 8 aacConfig; push 8 aacFrame; push 8 aacFrame] Hc.
  match type of Hc with
  | _ = Ok ?m => eassert (Hk : flush m = Ok _) by (vm_compute; reflexivity)
  end.
  eexists _, _, _, _.
  split; [exact H0 | split; [exact Hc | split; [reflexivity | ]]].
  split; [reflexivity | split; [reflexivity | split; [reflexivity | ]]].
  split; [vm_compute; reflexivity | split; [vm_compute; reflexivity | ]].
  split; [exact Hk | reflexivity].
Qed.

(** The base decode time wraps. An AVC track with the time scale 2000000000
    at one frame per second: after three fragments of one frame each the
    track has accumulated 6000000000 units, and the [tfdt] box of the fourth
    fragment (72 bytes into the fragment: 8 of [moof], 16 of [mfhd], 8 of
    [traf], 28 of [tfhd] and the 12 bytes before the value) holds
    6000000000 - 2^32 = 1705032704. *)
Lemma base_decode_time_wraps :
  exists this0 this this' t chunk,
    constructor (deferredAvcScale 2000000000) = Ok this0 /\
    calls this0 [push 9 avcConfig; push 9 avcKey; push 9 avcKey; push 9 avcKey;
                 push 9 avcKey] = Ok this /\
    tracks this = [t] /\ cachedDuration t = 6000000000 /\
    _chunk this = Ok this' /\
    emitted this' = emitted this ++ [Fragment chunk] /\
    decodeUint32 (firstn 4 (skipn 72 chunk)) = 1705032704 /\
    6000000000 mod 2 ^ 32 = 1705032704.
Proof.
  eassert (H0 : constructor (deferredAvcScale 2000000000) = Ok _)
    by (vm_compute; reflexivity).
  run_from H0 [push 9 avcConfig; push 9 avcKey; push 9 avcKey; push 9 avcKey;
               push 9 avcKey] Hc.
  match type of Hc with
  | _ = Ok ?m => eassert (Hk : _chunk m = Ok _) by (vm_compute; reflexivity)
  end.
  eexists _, _, _, _, _.
  split; [exact H0 | split; [exact Hc | split; [reflexivity | ]]].
  split; [reflexivity | split; [exact Hk | ]].
  split; [vm_compute; reflexivity | split; reflexivity].
Qed.

(** ** Fragments that fit *)

Lemma len_run_entries {A} (f g : A -> Z) (l : list A) :
  len (concat (map flatten
         (flat_map (fun c => [Bytes (encodeInt32 (f c));
                              Bytes (encodeInt32 (g c))]) l)))
  = 8 * Z.of_nat (List.length l).
Proof.
  induction l as [| c r IH]; [reflexivity | ].
  cbn [flat_map app map concat flatten List.length].
  rewrite !len_app, IH, !len_encodeInt32. lia.
Qed.

Lemma len_audioTrunTail t : len (audioTrunTail t) = 4 + 8 * cacheLength t.
Proof.
  unfold audioTrunTail, cacheLength. cbn [flatten map concat].
  rewrite len_app, len_run_entries. reflexivity.
Qed.

Lemma len_videoTrunTail t : len (videoTrunTail t) = 4 + 8 * cacheLength t.
Proof.
  unfold videoTrunTail, cacheLength. cbn [flatten map concat].
  rewrite len_app, len_run_entries. f_equal.
  destruct (cache t) as [| c0 r]; [reflexivity | ].
  destruct (packet_frameType (packet c0)) as [[| [? | ? | ] | ?] | ];
    reflexivity.
Qed.

Lemma trafPart_returns i t :
  isAudioTrack t || isVideoTrack t = true ->
  exists part, trafPart i t = Ok part /\ fitting t part.
Proof.
  unfold isAudioTrack, isVideoTrack, trafPart, fitting. intros H.
  tag_step.
  destruct ((type t =? "mp4a") || (type t =? "mp3"))%string.
  - tag_step. eexists. split; [reflexivity | ].
    cbn [tfhd tfdt trunHead trunTail tdat].
    rewrite len_audioTrunTail. repeat split; first [lia | reflexivity].
  - cbn [orb] in H. rewrite H. tag_step. eexists. split; [reflexivity | ].
    cbn [tfhd tfdt trunHead trunTail tdat].
    rewrite len_videoTrunTail. repeat split; first [lia | reflexivity].
Qed.

Lemma trafParts_returns tracks : forall i,
  Forall (fun t => cache t = [] \/ isAudioTrack t || isVideoTrack t = true)
         tracks ->
  exists parts tracks',
    trafParts i tracks = Ok (parts, tracks') /\
    Forall (fun part => len (tfhd part) = 28 /\ len (tfdt part) = 16 /\
                        len (trunHead part) = 8 /\ 0 <= len (trunTail part))
           parts /\
    trafBytes parts <= 84 * pendingCount tracks /\
    tdatBytes parts = payloadBytes tracks.
Proof.
  unfold trafBytes, tdatBytes, payloadBytes, pendingCount, sumZ.
  induction tracks as [| t r IH]; intros i H; cbn [trafParts].
  - exists [], []. split; [reflexivity | ]. split; [constructor | ].
    cbn. lia.
  - inversion H as [| ? ? Ht Hr]; subst.
    destruct (IH (i + 1) Hr) as (parts & tracks' & -> & Hfit & Hsz & Hpay).
    cbn [bind fst snd map fold_right].
    destruct (cache t) as [| c0 cs] eqn:Ec.
    + eexists _, _. split; [reflexivity | ]. split; [exact Hfit | ].
      unfold cacheLength at 1, tdatOf at 1. rewrite Ec.
      cbn [List.length map flatten concat]. change (len []) with 0. lia.
    + destruct Ht as [Ht | Ht]; [congruence | ].
      destruct (trafPart_returns i t Ht) as (part & -> & F).
      destruct F as (F1 & F2 & F3 & F4 & F5). cbn [bind].
      eexists _, _. split; [reflexivity | ].
      split; [constructor; [ | exact Hfit] | ].
      * repeat split; try assumption. rewrite F4. unfold cacheLength. lia.
      * cbn [map fold_right]. rewrite F4, F5.
        assert (1 <= cacheLength t)
          by (unfold cacheLength; rewrite Ec; cbn [List.length]; lia).
        lia.
Qed.

Lemma trafs_returns parts : forall tdatOffset,
  Forall (fun part => len (tfhd part) = 28 /\ len (tfdt part) = 16 /\
                      len (trunHead part) = 8 /\ 0 <= len (trunTail part))
         parts ->
  trafBytes parts <= 0x7FFFFFFF ->
  exists boxes,
    trafs parts tdatOffset = Ok boxes /\ len (concat boxes) = trafBytes parts.
Proof.
  unfold trafBytes, sumZ.
  induction parts as [| part r IH]; intros off H Hsz; cbn [trafs].
  - exists []. split; reflexivity.
  - inversion H as [| ? ? (F1 & F2 & F3 & F4) Hr]; subst.
    cbn [map fold_right] in Hsz.
    assert (Hr0 : 0 <= fold_right Z.add 0
                         (map (fun part => 72 + len (trunTail part)) r)).
    { clear - Hr. induction Hr as [| p l (_ & _ & _ & Hp) _ IHl];
        cbn [map fold_right]; lia. }
    destruct (tag_returns "trun"
                (Arr [Bytes (trunHead part); Bytes (encodeInt32 off);
                      Bytes (trunTail part)])) as (trun & -> & Ltrun).
    { reflexivity. }
    { cbn [flatten map concat]. rewrite !len_app, len_nil, len_encodeInt32. lia. }
    cbn [bind]. cbn [flatten map concat] in Ltrun.
    rewrite !len_app, len_nil, len_encodeInt32 in Ltrun.
    destruct (tag_returns "traf"
                (Arr [Bytes (tfhd part); Bytes (tfdt part); Bytes trun]))
      as (traf & -> & Ltraf).
    { reflexivity. }
    { cbn [flatten map concat]. rewrite !len_app, len_nil. lia. }
    cbn [bind]. cbn [flatten map concat] in Ltraf.
    rewrite !len_app, len_nil in Ltraf.
    destruct (IH (off + len (tdat part)) Hr) as (boxes & -> & Lb); [lia | ].
    cbn [bind]. eexists. split; [reflexivity | ].
    cbn [concat map fold_right]. rewrite len_app. lia.
Qed.

Lemma flatten_tdats (parts : list TrafPart) :
  len (concat (map flatten (map (fun part => Bytes (tdat part)) parts)))
  = tdatBytes parts.
Proof.
  unfold tdatBytes, sumZ. induction parts as [| p r IH]; [reflexivity | ].
  cbn [map concat flatten fold_right]. rewrite len_app, IH. reflexivity.
Qed.

(** [_chunk] returns when every track with pending samples is of a
    supported type, at most five samples are pending, and the payload fits
    in a box. *)
Lemma _chunk_returns this :
  Forall (fun t => cache t = [] \/ isAudioTrack t || isVideoTrack t = true)
         (tracks this) ->
  pendingCount (tracks this) <= MAX_PACKETS_IN_CHUNK ->
  8 + payloadBytes (tracks this) <= 0x7FFFFFFF ->
  exists this', _chunk this = Ok this'.
Proof.
  intros Ht Hn Hpay. unfold _chunk.
  destruct (trafParts_returns _ 0 Ht)
    as (parts & tracks' & -> & Hfit & Hsz & Htd).
  cbn [bind]. unfold MAX_PACKETS_IN_CHUNK in Hn.
  destruct (trafs_returns parts
              (moofLengthOf
                 (flatten (Arr [Bytes (hex "000000106D66686400000000");
                                Bytes (encodeInt32 (chunkIndex this + 1))]))
                 parts) Hfit) as (boxes & -> & Lb); [lia | ].
  cbn [bind].
  destruct (tag_returns "moof"
              (Arr (Bytes (flatten (Arr [Bytes (hex "000000106D66686400000000");
                                         Bytes (encodeInt32 (chunkIndex this + 1))]))
                    :: map Bytes boxes))) as (moof & -> & _).
  { reflexivity. }
  { cbn [flatten map concat]. rewrite flatten_bytes.
    rewrite !len_app, len_nil, len_encodeInt32, Lb. len_consts. lia. }
  cbn [bind].
  destruct (tag_returns "mdat" (Arr (map (fun part => Bytes (tdat part)) parts)))
    as (mdat & -> & _).
  { reflexivity. }
  { cbn [flatten]. rewrite flatten_tdats, Htd. exact Hpay. }
  cbn [bind]. eexists. reflexivity.
Qed.

(** *** Five inter frames on a legacy muxer always return *)

Lemma pushAt_nth tracks : forall n c t,
  nth_error tracks n = Some t ->
  nth_error (pushAt tracks n c) n = Some (set_cache t (cache t ++ [c])).
Proof.
  induction tracks as [| t0 r IH]; intros [| n] c t H; cbn in H;
    try discriminate; cbn [pushAt nth_error].
  - injection H as <-. reflexivity.
  - apply IH. assumption.
Qed.

Lemma pushAt_payload tracks : forall n c t,
  nth_error tracks n = Some t ->
  payloadBytes (pushAt tracks n c)
  = payloadBytes tracks + len (packet_data (packet c)).
Proof.
  unfold payloadBytes, sumZ, tdatOf.
  induction tracks as [| t0 r IH]; intros [| n] c t H; cbn in H;
    try discriminate; cbn [pushAt map fold_right].
  - cbn [set_cache cache flatten]. rewrite !map_app, !concat_app, len_app.
    cbn [map flatten concat]. rewrite app_nil_r. lia.
  - rewrite (IH _ _ _ H). lia.
Qed.

Lemma pushAt_legacy tracks : forall n c,
  Forall legacyType tracks -> Forall legacyType (pushAt tracks n c).
Proof.
  induction tracks as [| t0 r IH]; intros [| n] c H; cbn [pushAt];
    try assumption; inversion H; subst; constructor; auto.
Qed.

Lemma payloadBytes_empty tracks :
  Forall (fun t => cache t = []) tracks -> payloadBytes tracks = 0.
Proof.
  unfold payloadBytes, sumZ, tdatOf.
  induction 1 as [| t r Ht _ IH]; cbn [map fold_right]; [reflexivity | ].
  rewrite Ht, IH. reflexivity.
Qed.

Lemma legacyType_fits tracks :
  Forall legacyType tracks ->
  Forall (fun t => cache t = [] \/ isAudioTrack t || isVideoTrack t = true)
         tracks.
Proof.
  intros H. eapply Forall_impl; [ | exact H].
  intros t [Ht | Ht]; right; unfold isAudioTrack, isVideoTrack; rewrite Ht;
    reflexivity.
Qed.

Lemma Ready_afterPush this k bytes data ts :
  Ready this k bytes ->
  cachePush this (videoTrackId this) (videoSample data ts)
    = Ok (afterPush this (videoTrackId this) (videoSample data ts)) /\
  Ready (afterPush this (videoTrackId this) (videoSample data ts))
        (k + 1) (bytes + len (VideoPacket.data (parseVideodata data))).
Proof.
  intros [Hs (t & Ht) Hty Hc Hp Hb]. split.
  - unfold cachePush. rewrite Ht. reflexivity.
  - unfold trackAt in Ht.
    destruct (Z.ltb_spec (videoTrackId this) 0) as [ | Hv]; [discriminate | ].
    constructor; cbn [afterPush state tracks videoTrackId cachedPackets].
    + assumption.
    + unfold trackAt. destruct (Z.ltb_spec (videoTrackId this) 0); [lia | ].
      rewrite (pushAt_nth _ _ _ _ Ht). eexists. reflexivity.
    + apply pushAt_legacy. assumption.
    + lia.
    + rewrite (pushAt_pending _ _ _ _ Ht). lia.
    + rewrite (pushAt_payload _ _ _ _ Ht), Hb. reflexivity.
Qed.

Lemma Ready_push this k bytes data ts :
  Ready this k bytes -> interVideo data = true ->
  k + 1 < MAX_PACKETS_IN_CHUNK ->
  exists this',
    pushPacket this VIDEO_PACKET data ts = Ok this' /\
    Ready this' (k + 1) (bytes + len (VideoPacket.data (parseVideodata data))).
Proof.
  intros HR Hi Hk. destruct (Ready_afterPush _ _ _ data ts HR) as (Hp & HR').
  eexists. split; [ | exact HR'].
  rewrite pushPacket_inter by (assumption || apply HR).
  rewrite Hp. cbn [bind afterPush cachedPackets].
  rewrite (ready_cachedPackets _ _ _ HR).
  destruct (Z.geb_spec (k + 1) MAX_PACKETS_IN_CHUNK); [lia | reflexivity].
Qed.

Lemma Ready_push_last this k bytes data ts :
  Ready this k bytes -> interVideo data = true ->
  k + 1 = MAX_PACKETS_IN_CHUNK ->
  8 + (bytes + len (VideoPacket.data (parseVideodata data))) <= 0x7FFFFFFF ->
  exists this', pushPacket this VIDEO_PACKET data ts = Ok this'.
Proof.
  intros HR Hi Hk Hb. destruct (Ready_afterPush _ _ _ data ts HR) as (Hp & HR').
  rewrite pushPacket_inter by (assumption || apply HR).
  rewrite Hp. cbn [bind afterPush cachedPackets].
  rewrite (ready_cachedPackets _ _ _ HR).
  destruct (Z.geb_spec (k + 1) MAX_PACKETS_IN_CHUNK); [ | lia].
  destruct HR' as [_ _ Hty _ Hpen Hpay].
  apply _chunk_returns.
  - apply legacyType_fits. assumption.
  - rewrite Hpen. lia.
  - rewrite Hpay. assumption.
Qed.

Lemma constructor_video_track metadata this :
  constructor metadata = Ok this -> trackinfo metadata = None ->
  videoTrackId this <> -1 ->
  exists t, trackAt (tracks this) (videoTrackId this) = Some t.
Proof.
  unfold constructor. intros H E. rewrite E in H.
  apply bind_ok in H. destruct H as ([ts a] & _ & H).
  destruct (truthy (videocodecid metadata));
    [destruct (is_not_number (videocodecid metadata) 4);
       [discriminate | ] | ];
    injection H as <-; cbn [mkMux tracks videoTrackId]; intros Hv;
    [ | congruence].
  unfold trackAt, len_tracks.
  destruct (Z.ltb_spec (Z.of_nat (List.length ts)) 0); [lia | ].
  rewrite Nat2Z.id, nth_error_app2, Nat.sub_diag by lia.
  eexists. reflexivity.
Qed.

Lemma Ready_afterHeader this header :
  (exists t, trackAt (tracks this) (videoTrackId this) = Some t) ->
  Forall legacyType (tracks this) ->
  Ready (afterHeader this header) 0 0.
Proof.
  intros (t & Ht) Hty.
  pose proof (afterHeader_cleared this header) as Hclr.
  constructor; cbn [afterHeader state tracks videoTrackId cachedPackets].
  - reflexivity.
  - unfold trackAt in *. destruct (videoTrackId this <? 0); [discriminate | ].
    rewrite nth_error_map, Ht. eexists. reflexivity.
  - apply Forall_map. eapply Forall_impl; [ | exact Hty].
    intros t0 Ht0. exact Ht0.
  - reflexivity.
  - apply pendingCount_empty. exact Hclr.
  - apply payloadBytes_empty. exact Hclr.
Qed.

(** Five inter frames pushed to a fresh legacy muxer with a video track all
    return, as long as their payload fits in one box. *)
Lemma five_inter_frames_return metadata this0 d1 d2 d3 d4 d5 ts1 ts2 ts3 ts4 ts5 :
  constructor metadata = Ok this0 ->
  trackinfo metadata = None ->
  videoTrackId this0 <> -1 ->
  forallb interVideo [d1; d2; d3; d4; d5] = true ->
  8 + sumZ (map (fun d => len (VideoPacket.data (parseVideodata d)))
                [d1; d2; d3; d4; d5]) <= 0x7FFFFFFF ->
  exists this5,
    calls this0 [PushPacket VIDEO_PACKET d1 ts1; PushPacket VIDEO_PACKET d2 ts2;
                 PushPacket VIDEO_PACKET d3 ts3; PushPacket VIDEO_PACKET d4 ts4;
                 PushPacket VIDEO_PACKET d5 ts5] = Ok this5.
Proof.
  intros H0 Hl Hv Hi Hb.
  destruct (constructor_legacy _ _ H0 Hl) as (Hty & Hn & Hw).
  pose proof (constructor_video_track _ _ H0 Hl Hv) as Ht.
  pose proof (constructor_Fresh _ _ H0) as [Hs _ _ _ _ _].
  cbn [forallb] in Hi. rewrite !andb_true_iff in Hi.
  destruct Hi as (I1 & I2 & I3 & I4 & I5 & _).
  cbn [map sumZ fold_right] in Hb.
  destruct (generateHeader_legacy this0 Hty Hn) as (h0 & Hh).
  pose proof Hh as Hh'. apply generateHeader_inv in Hh'.
  destruct Hh' as (tks & header & _ & ->).
  pose proof (Ready_afterHeader this0 header Ht Hty) as R0.
  destruct (Ready_push _ _ _ d1 ts1 R0 I1) as (s1 & H1 & R1); [reflexivity | ].
  destruct (Ready_push _ _ _ d2 ts2 R1 I2) as (s2 & H2 & R2); [reflexivity | ].
  destruct (Ready_push _ _ _ d3 ts3 R2 I3) as (s3 & H3 & R3); [reflexivity | ].
  destruct (Ready_push _ _ _ d4 ts4 R3 I4) as (s4 & H4 & R4); [reflexivity | ].
  destruct (Ready_push_last _ _ _ d5 ts5 R4 I5) as (s5 & H5);
    [reflexivity | lia | ].
  exists s5. cbn [calls call].
  rewrite pushPacket_header_first by assumption.
  rewrite Hh. cbn [bind]. rewrite H1. cbn [bind]. rewrite H2. cbn [bind].
  rewrite H3. cbn [bind]. rewrite H4. cbn [bind]. rewrite H5. reflexivity.
Qed.

(** C3, as the code has it. Once [pushPacket] has cached the sample, it
    flushes a fragment if and only if the pending-packet counter has reached
    5, so the counter is below 5 whenever [pushPacket] returns. In
    particular five video inter frames pushed to a fresh muxer whose header
    is not deferred (the legacy configuration, with a video track) return,
    as long as their payload fits in one box, and make it emit the header
    and then exactly one fragment, on the fifth push, with sequence
    number 1. *)
Theorem ceiling_flush :
  (forall this type data ts s,
     intake this type data ts = Ok s ->
     (MAX_PACKETS_IN_CHUNK <= cachedPackets s ->
      pushPacket this type data ts = _chunk s) /\
     (cachedPackets s < MAX_PACKETS_IN_CHUNK ->
      pushPacket this type data ts = Ok s)) /\
  (forall this type data ts this',
     pushPacket this type data ts = Ok this' ->
     cachedPackets this' < MAX_PACKETS_IN_CHUNK) /\
  (forall metadata this0 d1 d2 d3 d4 d5 ts1 ts2 ts3 ts4 ts5,
     constructor metadata = Ok this0 ->
     trackinfo metadata = None ->
     videoTrackId this0 <> -1 ->
     forallb interVideo [d1; d2; d3; d4; d5] = true ->
     8 + sumZ (map (fun d => len (VideoPacket.data (parseVideodata d)))
                   [d1; d2; d3; d4; d5]) <= 0x7FFFFFFF ->
     exists this4 this5 header chunk,
       calls this0 [PushPacket VIDEO_PACKET d1 ts1; PushPacket VIDEO_PACKET d2 ts2;
                    PushPacket VIDEO_PACKET d3 ts3; PushPacket VIDEO_PACKET d4 ts4]
         = Ok this4 /\
       calls this0 [PushPacket VIDEO_PACKET d1 ts1; PushPacket VIDEO_PACKET d2 ts2;
                    PushPacket VIDEO_PACKET d3 ts3; PushPacket VIDEO_PACKET d4 ts4;
                    PushPacket VIDEO_PACKET d5 ts5] = Ok this5 /\
       emitted this4 = [Header header] /\
       emitted this5 = [Header header; Fragment chunk] /\
       sequenceNumber chunk = encodeInt32 1 /\
       decodeUint32 (sequenceNumber chunk) = 1).
Proof.
  split; [ | split].
  - intros this type data ts s Hs. unfold pushPacket. rewrite Hs. cbn [bind].
    split; intros H.
    + destruct (Z.geb_spec (cachedPackets s) MAX_PACKETS_IN_CHUNK);
        [reflexivity | lia].
    + destruct (Z.geb_spec (cachedPackets s) MAX_PACKETS_IN_CHUNK);
        [lia | reflexivity].
  - intros. eapply pushPacket_below_ceiling. eassumption.
  - intros metadata this0 d1 d2 d3 d4 d5 ts1 ts2 ts3 ts4 ts5 H0 Hl Hv Hi Hb.
    destruct (five_inter_frames_return _ _ _ _ _ _ _ ts1 ts2 ts3 ts4 ts5
                H0 Hl Hv Hi Hb) as (this5 & Hc).
    destruct (constructor_legacy _ _ H0 Hl) as (_ & _ & Hw).
    destruct (five_inter_frames _ _ _ _ _ _ _ _ _ _ _ _ _ H0 Hw Hi Hc)
      as (this4 & header & chunk & H4 & He4 & _ & He5 & _ & Hseq).
    exists this4, this5, header, chunk.
    repeat (split; [assumption | ]).
    rewrite Hseq. reflexivity.
Qed.

(** C3 on the legacy VP6 muxer and five VP6 inter frames. *)
Lemma ceiling_flush_witness :
  exists this0 this4 this5 header chunk,
    constructor legacyVideo = Ok this0 /\
    calls this0 [push 9 vp6Inter; push 9 vp6Inter; push 9 vp6Inter;
                 push 9 vp6Inter] = Ok this4 /\
    calls this0 [push 9 vp6Inter; push 9 vp6Inter; push 9 vp6Inter;
                 push 9 vp6Inter; push 9 vp6Inter] = Ok this5 /\
    emitted this4 = [Header header] /\
    emitted this5 = [Header header; Fragment chunk] /\
    sequenceNumber chunk = [0; 0; 0; 1].
Proof.
  eassert (H0 : constructor legacyVideo = Ok _) by (vm_compute; reflexivity).
  destruct (proj2 (proj2 ceiling_flush) legacyVideo _
              vp6Inter vp6Inter vp6Inter vp6Inter vp6Inter t0 t0 t0 t0 t0
              H0 eq_refl ltac:(vm_compute; discriminate) eq_refl
              ltac:(vm_compute; discriminate))
    as (this4 & this5 & header & chunk & H4 & H5 & He4 & He5 & Hseq & _).
  eexists _, this4, this5, header, chunk.
  split; [exact H0 | split; [exact H4 | split; [exact H5 | ]]].
  split; [exact He4 | split; [exact He5 | exact Hseq]].
Defined.

(** C3, the claim as written fails on the deferred path: five AVC inter
    frames, the first the configuration sample, all return; the second makes
    the muxer emit its header, which empties the caches and resets the
    counter, so four samples are pending after the fifth push and no
    fragment has been emitted. Without the configuration sample the first
    slice already throws. *)
Lemma five_inter_frames_deferred_no_flush :
  exists this0 this5 header,
    constructor deferredAvc = Ok this0 /\
    forallb interVideo [avcConfigInter; avcInter; avcInter; avcInter; avcInter]
      = true /\
    calls this0 [push 9 avcConfigInter; push 9 avcInter; push 9 avcInter;
                 push 9 avcInter; push 9 avcInter] = Ok this5 /\
    emitted this5 = [Header header] /\
    fragments (emitted this5) = [] /\
    cachedPackets this5 = 4 /\ chunkIndex this5 = 0 /\
    interVideo avcInter = true /\
    pushPacket this0 9 avcInter t0 = Throw TypeError.
Proof.
  eassert (H0 : constructor deferredAvc = Ok _) by (vm_compute; reflexivity).
  run_from H0 [push 9 avcConfigInter; push 9 avcInter; push 9 avcInter;
               push 9 avcInter; push 9 avcInter] Hc.
  eexists _, _, _.
  split; [exact H0 | split; [reflexivity | split; [exact Hc | ]]].
  split; [reflexivity | split; [reflexivity | split; [reflexivity | ]]].
  split; [reflexivity | split; [reflexivity | vm_compute; reflexivity]].
Qed.

(** ** Further properties of the encoders *)

Lemma eqb_bytes_eq a b : eqb_bytes a b = true -> a = b.
Proof. unfold eqb_bytes. destruct (list_eq_dec Z.eq_dec a b); congruence. Qed.

(** The bytes of a number and of its reduction to 32 bits agree. *)
Lemma wrap32_byte n k :
  0 <= k <= 24 -> (JS.wrap32 n / 2 ^ k) mod 256 = (n / 2 ^ k) mod 256.
Proof.
  intros Hk.
  rewrite <- !Z.shiftr_div_pow2 by lia.
  change 256 with (2 ^ 8). rewrite <- !Z.land_ones by lia.
  apply Z.bits_inj'. intros i Hi.
  rewrite !Z.land_spec, !Z.shiftr_spec by lia.
  destruct (Z.ltb_spec i 8).
  - f_equal.
    rewrite <- (Z.mod_pow2_bits_low (JS.wrap32 n) 32 (i + k)) by lia.
    rewrite <- (Z.mod_pow2_bits_low n 32 (i + k)) by lia.
    rewrite wrap32_mod. reflexivity.
  - rewrite Z.ones_spec_high by lia. rewrite !andb_false_r. reflexivity.
Qed.

Lemma wrap32_low_byte n : JS.wrap32 n mod 256 = n mod 256.
Proof.
  pose proof (wrap32_byte n 0 ltac:(lia)) as E.
  rewrite !Z.pow_0_r, !Z.div_1_r in E. exact E.
Qed.

Lemma encodeUint16_bytes n :
  encodeUint16 n = [(n / 2 ^ 8) mod 256; n mod 256].
Proof.
  unfold encodeUint16.
  rewrite !band_255, !wrap32_low_byte, sar_div, wrap32_byte by lia.
  reflexivity.
Qed.

(** X1. The integer encoders are big-endian and work modulo a power of two:
    [encodeInt32 n] is the four bytes of [n] modulo 2^32, most significant
    first, [encodeUint16 n] the two low bytes of [n], and the four bytes
    decode to [n] modulo 2^32. *)
Theorem integer_encoders_big_endian n :
  encodeInt32 n = [(n / 2 ^ 24) mod 256; (n / 2 ^ 16) mod 256;
                   (n / 2 ^ 8) mod 256; n mod 256] /\
  encodeUint16 n = [(n / 2 ^ 8) mod 256; n mod 256] /\
  decodeUint32 (encodeInt32 n) = n mod 2 ^ 32.
Proof.
  split; [ | split].
  - rewrite encodeInt32_bytes.
    rewrite !wrap32_byte, wrap32_low_byte by lia. reflexivity.
  - apply encodeUint16_bytes.
  - apply decode_encodeInt32.
Qed.

(** Checking a property of the whole numbers below [N] by running through
    them. *)
Lemma forall_below (N : Z) (P : Z -> bool) :
  forallb P (map Z.of_nat (seq 0 (Z.to_nat N))) = true ->
  forall b, 0 <= b < N -> P b = true.
Proof.
  intros H b Hb. rewrite forallb_forall in H. apply H.
  apply in_map_iff. exists (Z.to_nat b). split; [lia | ].
  apply in_seq. lia.
Qed.

(** X2. Fixed point: a whole number n below 8192 is encoded in 16.16 format
    as its two bytes followed by 0, 0, and a whole number below 256 in 8.8
    format as the bytes n, 0; so 1.0 gives 0, 1, 0, 0 and 1, 0. *)
Theorem fixed_point_encoders n :
  0 <= n < 8192 ->
  encodeFloat (JS.of_Z n) = [n / 256; n mod 256; 0; 0] /\
  (n < 256 -> encodeFloat16 (JS.of_Z n) = [n; 0]).
Proof.
  intros Hn. split.
  - apply eqb_bytes_eq.
    apply (forall_below 8192
             (fun n => eqb_bytes (encodeFloat (JS.of_Z n))
                                 [n / 256; n mod 256; 0; 0]));
      [vm_compute; reflexivity | lia].
  - intros Hb. apply eqb_bytes_eq.
    apply (forall_byte
             (fun n => eqb_bytes (encodeFloat16 (JS.of_Z n)) [n; 0]));
      [vm_compute; reflexivity | lia].
Qed.

(** X2 at 1.0. *)
Lemma fixed_point_encoders_witness :
  encodeFloat (JS.of_Z 1) = [0; 1; 0; 0] /\
  encodeFloat16 (JS.of_Z 1) = [1; 0].
Proof.
  destruct (fixed_point_encoders 1 ltac:(lia)) as [H16 H8].
  split; [exact H16 | apply H8; lia].
Defined.

(** [|] on operands with no bit in common is their sum. *)
Lemma lor_disjoint h l k :
  0 <= k -> 0 <= l < 2 ^ k -> Z.lor (h * 2 ^ k) l = h * 2 ^ k + l.
Proof.
  intros Hk Hl.
  assert (E : Z.land (h * 2 ^ k) l = 0).
  { apply Z.bits_inj'. intros i Hi. rewrite Z.land_spec, Z.bits_0.
    destruct (Z.ltb_spec i k).
    - rewrite Z.mul_pow2_bits_low by lia. reflexivity.
    - rewrite <- (Z.mod_small l (2 ^ k)) by lia.
      rewrite Z.mod_pow2_bits_high by lia. apply andb_false_r. }
  rewrite <- Z.lxor_lor by assumption. symmetry.
  apply Z.add_nocarry_lxor. assumption.
Qed.

Lemma byte_sar b n : 0 <= b < 256 -> 0 <= n -> JS.sar b n = b / 2 ^ n.
Proof. intros. rewrite sar_div, wrap32_small by lia. reflexivity. Qed.

Lemma byte_band_ones b n :
  0 <= b < 2 ^ 31 -> 0 <= n < 31 -> JS.band b (Z.ones n) = b mod 2 ^ n.
Proof.
  intros Hb Hn. unfold JS.band.
  assert (0 <= Z.ones n < 2 ^ 31).
  { rewrite Z.ones_equiv.
    pose proof (Z.pow_lt_mono_r 2 n 31 ltac:(lia) ltac:(lia) ltac:(lia)).
    pose proof (Z.pow_pos_nonneg 2 n ltac:(lia) ltac:(lia)). lia. }
  rewrite !wrap32_small by lia. apply Z.land_ones. lia.
Qed.

Lemma shl_small x n :
  0 <= x -> 0 <= n -> x * 2 ^ n < 2 ^ 31 -> JS.shl x n = x * 2 ^ n.
Proof.
  intros Hx Hn Hb. unfold JS.shl.
  assert (x < 2 ^ 31).
  { pose proof (Z.pow_pos_nonneg 2 n ltac:(lia) Hn). nia. }
  rewrite (wrap32_small x), Z.shiftl_mul_pow2 by lia.
  apply wrap32_small. lia.
Qed.

(** X3. The language code packs the low five bits of each of the first three
    characters into one 16-bit field, the first character in bits 14 to 10,
    the second in bits 9 to 5, the third in bits 4 to 0; bit 15 is clear. *)
Theorem encodeLang_packs c1 c2 c3 rest :
  let field := (charCode c1 mod 32) * 1024 + (charCode c2 mod 32) * 32
               + charCode c3 mod 32 in
  encodeLang (String c1 (String c2 (String c3 rest)))
  = [field / 256; field mod 256] /\
  0 <= field < 2 ^ 15.
Proof.
  intros field.
  pose proof (charCode_range c1) as R1. pose proof (charCode_range c2) as R2.
  pose proof (charCode_range c3) as R3.
  pose proof (Z.mod_pos_bound (charCode c1) 32 ltac:(lia)) as M1.
  pose proof (Z.mod_pos_bound (charCode c2) 32 ltac:(lia)) as M2.
  pose proof (Z.mod_pos_bound (charCode c3) 32 ltac:(lia)) as M3.
  assert (Hf : 0 <= field < 2 ^ 15) by (subst field; lia).
  split; [ | exact Hf].
  unfold encodeLang, charCodeAt. cbn [String.get option_map JS.int_of].
  change 0x1F with (Z.ones 5).
  rewrite !byte_band_ones by lia. change (2 ^ 5) with 32.
  rewrite !shl_small by lia.
  unfold JS.bor.
  rewrite (wrap32_small (charCode c1 mod 32 * 2 ^ 10)),
          (wrap32_small (charCode c2 mod 32 * 2 ^ 5)) by lia.
  rewrite lor_disjoint by lia.
  rewrite (wrap32_small (_ + _)), (wrap32_small (charCode c3 mod 32)) by lia.
  replace (charCode c1 mod 32 * 2 ^ 10 + charCode c2 mod 32 * 2 ^ 5)
    with ((charCode c1 mod 32 * 32 + charCode c2 mod 32) * 2 ^ 5) by lia.
  rewrite lor_disjoint by lia.
  rewrite encodeUint16_bytes.
  replace ((charCode c1 mod 32 * 32 + charCode c2 mod 32) * 2 ^ 5
           + charCode c3 mod 32) with field by (subst field; lia).
  change (2 ^ 8) with 256.
  rewrite (Z.mod_small (field / 256)); [reflexivity | ].
  split; [apply Z.div_pos; lia | apply Z.div_lt_upper_bound; lia].
Qed.

(** ** Further properties of the envelopes *)

(** X4. The audio envelope after byte 0. AAC (codec id 10): byte 1 is the
    packet type, a frame has 1024 samples and the payload starts at offset 2.
    MP3 (codec id 2): no further byte is consumed, the payload starts at
    offset 1, and the samples of a frame follow from the version and layer
    bits of the second byte of the payload (1152 or 576 for layer III, 384
    for layer I, 1152 otherwise). Any other codec: the payload starts at
    offset 1 and there are no packet type and no sample count. *)
Theorem parseAudiodata_frames b0 b1 b2 payload :
  Forall (fun b => 0 <= b < 256) [b0; b1; b2] ->
  let p := parseAudiodata (b0 :: b1 :: b2 :: payload) in
  (b0 / 16 = AAC_SOUND_CODEC_ID ->
   AudioPacket.packetType p = Some b1 /\
   AudioPacket.samples p = Some 1024 /\
   AudioPacket.data p = b2 :: payload) /\
  (b0 / 16 = MP3_SOUND_CODEC_ID ->
   AudioPacket.packetType p = None /\
   AudioPacket.samples p = Some (mpegFrameSamples b2) /\
   AudioPacket.data p = b1 :: b2 :: payload) /\
  (b0 / 16 <> AAC_SOUND_CODEC_ID -> b0 / 16 <> MP3_SOUND_CODEC_ID ->
   AudioPacket.packetType p = None /\
   AudioPacket.samples p = None /\
   AudioPacket.data p = b1 :: b2 :: payload).
Proof.
  intros Hb p.
  repeat match goal with
         | H : Forall _ (_ :: _) |- _ => inversion H; subst; clear H
         | H : Forall _ [] |- _ => clear H
         end.
  assert (Ec : JS.sar b0 4 = b0 / 16) by (apply (byte_sar b0 4); lia).
  subst p. unfold parseAudiodata.
  cbn [at_ nth_error JS.int_of subarray skipn]. rewrite Ec.
  split; [ | split].
  - intros ->. cbn. auto.
  - intros ->.
    cbn [Z.eqb AAC_SOUND_CODEC_ID MP3_SOUND_CODEC_ID Pos.eqb
         AudioPacket.packetType AudioPacket.samples AudioPacket.data].
    split; [reflexivity | split; [ | reflexivity]].
    unfold mpegFrameSamples.
    assert (B : forall x, 0 <= x < 256 -> JS.band x 3 = x mod 4)
      by (intros x Hx; apply (byte_band_ones x 2); lia).
    rewrite !(byte_sar b2) by lia.
    rewrite !B; [reflexivity | | ].
    + split; [apply Z.div_pos; lia | ].
      apply Z.div_lt_upper_bound; lia.
    + split; [apply Z.div_pos; lia | ].
      apply Z.div_lt_upper_bound; lia.
  - intros Ha Hm.
    destruct (Z.eqb_spec (b0 / 16) AAC_SOUND_CODEC_ID); [contradiction | ].
    destruct (Z.eqb_spec (b0 / 16) MP3_SOUND_CODEC_ID); [contradiction | ].
    cbn. auto.
Qed.

(** X4 on an MPEG-1 layer III frame: 1152 samples. *)
Lemma parseAudiodata_frames_witness :
  let p := parseAudiodata mp3Frame in
  AudioPacket.packetType p = None /\
  AudioPacket.samples p = Some 1152 /\
  AudioPacket.data p = [0xFF; 0xFB; 0x90; 0x00].
Proof.
  assert (Hb : Forall (fun b => 0 <= b < 256) [0x2F; 0xFF; 0xFB])
    by (repeat constructor; lia).
  destruct (parseAudiodata_frames 0x2F 0xFF 0xFB [0x90; 0x00] Hb)
    as (_ & Hmp3 & _).
  exact (Hmp3 eq_refl).
Defined.

Lemma compositionTime_signed24 b2 b3 b4 :
  0 <= b2 < 256 -> 0 <= b3 < 256 -> 0 <= b4 < 256 ->
  JS.sar (JS.bor (JS.bor (JS.shl b2 24) (JS.shl b3 16)) (JS.shl b4 8)) 8
  = signed24 (b2 * 65536 + b3 * 256 + b4).
Proof.
  intros H2 H3 H4.
  set (a := if b2 <? 128 then b2 else b2 - 256).
  assert (Ha : - 128 <= a < 128) by (subst a; destruct (Z.ltb_spec b2 128); lia).
  assert (E2 : JS.shl b2 24 = a * 2 ^ 24).
  { unfold JS.shl. rewrite (wrap32_small b2), Z.shiftl_mul_pow2 by lia.
    subst a. destruct (Z.ltb_spec b2 128).
    - apply wrap32_small. lia.
    - unfold JS.wrap32.
      replace (b2 * 2 ^ 24 + 2 ^ 31)
        with ((b2 - 128) * 2 ^ 24 + 1 * 2 ^ 32) by lia.
      rewrite Z.mod_add, Z.mod_small by lia. lia. }
  assert (E3 : JS.shl b3 16 = b3 * 2 ^ 16).
  { unfold JS.shl. rewrite (wrap32_small b3), Z.shiftl_mul_pow2 by lia.
    apply wrap32_small. lia. }
  assert (E4 : JS.shl b4 8 = b4 * 2 ^ 8).
  { unfold JS.shl. rewrite (wrap32_small b4), Z.shiftl_mul_pow2 by lia.
    apply wrap32_small. lia. }
  rewrite E2, E3, E4. unfold JS.bor.
  rewrite (wrap32_small (a * 2 ^ 24)), (wrap32_small (b3 * 2 ^ 16)) by lia.
  rewrite lor_disjoint by lia.
  rewrite (wrap32_small (a * 2 ^ 24 + b3 * 2 ^ 16)),
          (wrap32_small (b4 * 2 ^ 8)) by lia.
  replace (a * 2 ^ 24 + b3 * 2 ^ 16) with ((a * 2 ^ 8 + b3) * 2 ^ 16) by lia.
  rewrite lor_disjoint by lia.
  rewrite sar_div, wrap32_small by lia.
  replace ((a * 2 ^ 8 + b3) * 2 ^ 16 + b4 * 2 ^ 8)
    with ((a * 65536 + b3 * 256 + b4) * 2 ^ 8) by lia.
  rewrite Z.div_mul by lia.
  unfold signed24. subst a.
  destruct (Z.ltb_spec b2 128);
    destruct (Z.ltb_spec (b2 * 65536 + b3 * 256 + b4) (2 ^ 23)); lia.
Qed.

(** X5. The video envelope. Byte 0 holds the frame type in its high four
    bits and the codec id in its low four bits. AVC (codec id 7): byte 1 is
    the packet type, bytes 2 to 4 the composition time offset, big-endian
    and signed (24 bits), and the payload starts at offset 5. VP6 (codec
    id 4): byte 1 holds the horizontal offset in its high four bits and the
    vertical offset in its low four bits, and the payload starts at
    offset 2. *)
Theorem parseVideodata_envelope b0 b1 b2 b3 b4 payload :
  Forall (fun b => 0 <= b < 256) [b0; b1; b2; b3; b4] ->
  let avc := parseVideodata (b0 :: b1 :: b2 :: b3 :: b4 :: payload) in
  let vp6 := parseVideodata (b0 :: b1 :: payload) in
  VideoPacket.frameType avc = b0 / 16 /\
  VideoPacket.codecId avc = b0 mod 16 /\
  (b0 mod 16 = AVC_VIDEO_CODEC_ID ->
   VideoPacket.packetType avc = Some b1 /\
   VideoPacket.compositionTime avc
   = Some (signed24 (b2 * 65536 + b3 * 256 + b4)) /\
   VideoPacket.data avc = payload) /\
  (b0 mod 16 = VP6_VIDEO_CODEC_ID ->
   VideoPacket.horizontalOffset vp6 = Some (b1 / 16) /\
   VideoPacket.verticalOffset vp6 = Some (b1 mod 16) /\
   VideoPacket.data vp6 = payload).
Proof.
  intros Hb avc vp6.
  repeat match goal with
         | H : Forall _ (_ :: _) |- _ => inversion H; subst; clear H
         | H : Forall _ [] |- _ => clear H
         end.
  assert (Ef : JS.sar b0 4 = b0 / 16) by (apply (byte_sar b0 4); lia).
  assert (Ec : JS.band b0 15 = b0 mod 16)
    by (apply (byte_band_ones b0 4); lia).
  subst avc vp6. unfold parseVideodata.
  cbn [at_ nth_error JS.int_of subarray skipn]. rewrite Ec, Ef.
  split; [ | split; [ | split]].
  - destruct (b0 mod 16 =? AVC_VIDEO_CODEC_ID);
      [ | destruct (b0 mod 16 =? VP6_VIDEO_CODEC_ID)]; reflexivity.
  - destruct (b0 mod 16 =? AVC_VIDEO_CODEC_ID);
      [ | destruct (b0 mod 16 =? VP6_VIDEO_CODEC_ID)]; reflexivity.
  - intros ->. cbn [Z.eqb AVC_VIDEO_CODEC_ID Pos.eqb VideoPacket.packetType
                    VideoPacket.compositionTime VideoPacket.data].
    rewrite compositionTime_signed24 by lia. auto.
  - intros ->. cbn [Z.eqb AVC_VIDEO_CODEC_ID VP6_VIDEO_CODEC_ID Pos.eqb
                    VideoPacket.horizontalOffset VideoPacket.verticalOffset
                    VideoPacket.data].
    rewrite (byte_sar b1 4) by lia.
    change 15 with (Z.ones 4).
    rewrite (byte_band_ones (b1 / 2 ^ 4) 4), (byte_band_ones b1 4);
      try lia.
    + rewrite (Z.mod_small (b1 / 2 ^ 4)); [auto | ].
      change (2 ^ 4) with 16. split; [apply Z.div_pos; lia | ].
      apply Z.div_lt_upper_bound; lia.
    + change (2 ^ 4) with 16. split; [apply Z.div_pos; lia | ].
      apply Z.div_lt_upper_bound; lia.
Qed.

(** X5 on an AVC inter frame with composition time offset -10. *)
Lemma parseVideodata_envelope_witness :
  let p := parseVideodata [0x27; 0x01; 0xFF; 0xFF; 0xF6; 0x41; 0x9A] in
  VideoPacket.frameType p = 2 /\ VideoPacket.codecId p = 7 /\
  VideoPacket.packetType p = Some 1 /\
  VideoPacket.compositionTime p = Some (-10) /\
  VideoPacket.data p = [0x41; 0x9A].
Proof.
  assert (Hb : Forall (fun b => 0 <= b < 256) [0x27; 0x01; 0xFF; 0xFF; 0xF6])
    by (repeat constructor; lia).
  destruct (parseVideodata_envelope 0x27 0x01 0xFF 0xFF 0xF6 [0x41; 0x9A] Hb)
    as (Hf & Hc & Havc & _).
  destruct (Havc eq_refl) as (Hp & Ht & Hd).
  cbv zeta. split; [exact Hf | split; [exact Hc | split; [exact Hp | ]]].
  split; [exact Ht | exact Hd].
Defined.

(** ** Construction and rejected packets *)

(** X6. Construction from the legacy fields (no track descriptors). It
    returns exactly when the audio codec id is absent (or falsy) or the
    number 2 and the video codec id is absent (or falsy) or the number 4;
    otherwise it throws a configuration error: the audio one if the audio
    codec id is rejected, the video one only if the audio codec id is
    accepted and the video codec id rejected. The muxer it returns does not
    wait for additional data and has an 'mp3' track if there is an audio
    codec id, then a 'vp6f' track if there is a video codec id, the track
    ids pointing at them. *)
Theorem legacy_configuration metadata :
  trackinfo metadata = None ->
  match constructor metadata with
  | Ok this =>
      (truthy (audiocodecid metadata) = true ->
       audiocodecid metadata = CidNumber 2) /\
      (truthy (videocodecid metadata) = true ->
       videocodecid metadata = CidNumber 4) /\
      waitForAdditionalData this = false /\
      map type (tracks this)
      = (if truthy (audiocodecid metadata) then ["mp3"%string] else [])
        ++ (if truthy (videocodecid metadata) then ["vp6f"%string] else []) /\
      audioTrackId this = (if truthy (audiocodecid metadata) then 0 else -1) /\
      videoTrackId this
      = (if truthy (videocodecid metadata)
         then (if truthy (audiocodecid metadata) then 1 else 0) else -1)
  | Throw e =>
      kind_of e = Some ConfigurationError /\
      ((e = ConfigAudioCodec /\ truthy (audiocodecid metadata) = true /\
        audiocodecid metadata <> CidNumber 2) \/
       (e = ConfigVideoCodec /\
        (truthy (audiocodecid metadata) = true ->
         audiocodecid metadata = CidNumber 2) /\
        truthy (videocodecid metadata) = true /\
        videocodecid metadata <> CidNumber 4))
  end.
Proof.
  intros Hl. unfold constructor. rewrite Hl.
  assert (N : forall c n, truthy c = true -> is_not_number c n = false ->
                          c = CidNumber n).
  { intros [| k | s] n _ H; cbn in H; try discriminate.
    destruct (Z.eqb_spec k n); [congruence | discriminate]. }
  assert (M : forall c n, is_not_number c n = true -> c <> CidNumber n).
  { intros [| k | s] n H; cbn in H; try discriminate.
    intros [= ->]. rewrite Z.eqb_refl in H. discriminate. }
  destruct (truthy (audiocodecid metadata)) eqn:Ta;
    [destruct (is_not_number (audiocodecid metadata) 2) eqn:Na | ];
    cbn [bind];
    (destruct (truthy (videocodecid metadata)) eqn:Tv;
     [destruct (is_not_number (videocodecid metadata) 4) eqn:Nv | ]);
    cbn [bind mkMux waitForAdditionalData tracks audioTrackId videoTrackId
         map app type kind_of len_tracks List.length Z.of_nat];
    repeat match goal with
           | |- _ /\ _ => split
           | |- _ = _ => reflexivity
           | |- _ -> _ => intro
           end;
    try discriminate; auto;
    right; repeat split; auto; discriminate.
Qed.

(** X6 on the VP6-only configuration. *)
Lemma legacy_configuration_witness :
  exists this,
    constructor legacyVideo = Ok this /\
    map type (tracks this) = ["vp6f"%string] /\
    audioTrackId this = -1 /\ videoTrackId this = 0 /\
    waitForAdditionalData this = false.
Proof.
  pose proof (legacy_configuration legacyVideo eq_refl) as H.
  destruct (constructor legacyVideo) as [this | e] eqn:E.
  - destruct H as (_ & _ & Hw & Ht & Ha & Hv). exists this.
    split; [reflexivity | split; [exact Ht | split; [exact Ha | ]]].
    split; [exact Hv | exact Hw].
  - exfalso. vm_compute in E. discriminate.
Defined.

(** X7. A packet whose type is neither 8 (audio) nor 9 (video) is never
    accepted: [pushPacket] throws. When no header is due (the header has
    been emitted, or it is deferred), the error is 'unknown packet type',
    of the kind the specification calls UnknownPacketTypeError. *)
Theorem unknown_packet_type this type data ts :
  type <> AUDIO_PACKET -> type <> VIDEO_PACKET ->
  (exists e, pushPacket this type data ts = Throw e) /\
  (state this = 1 \/ waitForAdditionalData this = true ->
   pushPacket this type data ts = Throw (UnknownPacketType type)) /\
  kind_of (UnknownPacketType type) = Some UnknownPacketTypeError.
Proof.
  intros Ha Hv.
  unfold pushPacket, intake.
  destruct (Z.eqb_spec type AUDIO_PACKET) as [ | _]; [contradiction | ].
  destruct (Z.eqb_spec type VIDEO_PACKET) as [ | _]; [contradiction | ].
  split; [ | split].
  - destruct (if (state this =? 0) && negb (waitForAdditionalData this)
              then generateHeader this else Ok this) as [s | e];
      cbn [bind]; eexists; reflexivity.
  - intros [Hs | Hw].
    + rewrite Hs. reflexivity.
    + rewrite Hw, andb_false_r. reflexivity.
  - reflexivity.
Qed.

(** X7 on a packet of type 18 pushed to a deferred muxer. *)
Lemma unknown_packet_type_witness :
  exists this0,
    constructor deferredAacAvc = Ok this0 /\
    pushPacket this0 18 [0x02; 0x00] t0 = Throw (UnknownPacketType 18).
Proof.
  eassert (H0 : constructor deferredAacAvc = Ok _) by (vm_compute; reflexivity).
  eexists. split; [exact H0 | ].
  apply (unknown_packet_type _ 18 [0x02; 0x00] t0);
    [discriminate | discriminate | right; reflexivity].
Defined.

(** X8. When no header is due, an audio packet whose codec id is neither 2
    (MP3) nor 10 (AAC) makes [pushPacket] throw 'unsupported audio codec'
    with the description of the codec, and a video packet whose codec id is
    neither 4 (VP6) nor 7 (AVC) 'unsupported video codec'; both are of the
    kind UnsupportedCodecError. *)
Theorem unsupported_codec this data ts :
  state this = 1 \/ waitForAdditionalData this = true ->
  (AudioPacket.codecId (parseAudiodata data) <> MP3_SOUND_CODEC_ID ->
   AudioPacket.codecId (parseAudiodata data) <> AAC_SOUND_CODEC_ID ->
   pushPacket this AUDIO_PACKET data ts
   = Throw (UnsupportedAudioCodec
              (AudioPacket.codecDescription (parseAudiodata data)))) /\
  (VideoPacket.codecId (parseVideodata data) <> VP6_VIDEO_CODEC_ID ->
   VideoPacket.codecId (parseVideodata data) <> AVC_VIDEO_CODEC_ID ->
   pushPacket this VIDEO_PACKET data ts
   = Throw (UnsupportedVideoCodec
              (VideoPacket.codecDescription (parseVideodata data)))) /\
  (forall d, kind_of (UnsupportedAudioCodec d) = Some UnsupportedCodecError) /\
  (forall d, kind_of (UnsupportedVideoCodec d) = Some UnsupportedCodecError).
Proof.
  intros Hh.
  assert (E : (if (state this =? 0) && negb (waitForAdditionalData this)
               then generateHeader this else Ok this) = Ok this).
  { destruct Hh as [Hs | Hw].
    - rewrite Hs. reflexivity.
    - rewrite Hw, andb_false_r. reflexivity. }
  split; [ | split; [ | split; reflexivity]].
  - intros H2 H10. unfold pushPacket, intake. rewrite E. cbn [bind].
    change (AUDIO_PACKET =? AUDIO_PACKET) with true. cbv iota zeta.
    destruct (Z.eqb_spec (AudioPacket.codecId (parseAudiodata data))
                         MP3_SOUND_CODEC_ID); [contradiction | ].
    destruct (Z.eqb_spec (AudioPacket.codecId (parseAudiodata data))
                         AAC_SOUND_CODEC_ID); [contradiction | ].
    reflexivity.
  - intros H4 H7. unfold pushPacket, intake. rewrite E. cbn [bind].
    change (VIDEO_PACKET =? AUDIO_PACKET) with false.
    change (VIDEO_PACKET =? VIDEO_PACKET) with true. cbv iota zeta.
    destruct (Z.eqb_spec (VideoPacket.codecId (parseVideodata data))
                         VP6_VIDEO_CODEC_ID); [contradiction | ].
    destruct (Z.eqb_spec (VideoPacket.codecId (parseVideodata data))
                         AVC_VIDEO_CODEC_ID); [contradiction | ].
    reflexivity.
Qed.

(** X8 on a Speex and on a Sorenson packet. *)
Lemma unsupported_codec_witness :
  exists this0,
    constructor deferredAacAvc = Ok this0 /\
    pushPacket this0 AUDIO_PACKET [0xB2; 0x00] t0
      = Throw (UnsupportedAudioCodec (Some "Speex"%string)) /\
    pushPacket this0 VIDEO_PACKET [0x12; 0x00] t0
      = Throw (UnsupportedVideoCodec (Some "Sorenson"%string)).
Proof.
  eassert (H0 : constructor deferredAacAvc = Ok _) by (vm_compute; reflexivity).
  eexists. split; [exact H0 | ].
  match type of H0 with
  | _ = Ok ?m =>
      destruct (unsupported_codec m [0xB2; 0x00] t0 (or_intror eq_refl))
        as (Ha & _);
      destruct (unsupported_codec m [0x12; 0x00] t0 (or_intror eq_refl))
        as (_ & Hv & _)
  end.
  split.
  - apply Ha; vm_compute; discriminate.
  - apply Hv; vm_compute; discriminate.
Defined.

(** ** The state between calls *)

(** X9. In every state a muxer reaches by calls that return, the counter
    [cachedPackets] is the number of samples in the caches of all tracks
    together, it lies between 0 and 4, and [state] is 0 or 1. *)
Theorem pending_counter_invariant this :
  reachable this ->
  cachedPackets this = pendingCount (tracks this) /\
  0 <= cachedPackets this < MAX_PACKETS_IN_CHUNK /\
  (state this = 0 \/ state this = 1).
Proof.
  intros H.
  pose proof (reachable_Inv _ H) as [Hs _ _ _ Hp].
  destruct (reachable_boundary _ H) as [Hlt _].
  split; [assumption | split; [ | assumption]].
  rewrite Hp. pose proof (pendingCount_nonneg (tracks this)). lia.
Qed.

(** X9 after two VP6 inter frames. *)
Lemma pending_counter_invariant_witness :
  exists this,
    reachable this /\ cachedPackets this = 2 /\
    pendingCount (tracks this) = 2 /\ state this = 1.
Proof.
  eassert (H0 : constructor legacyVideo = Ok _) by (vm_compute; reflexivity).
  run_from H0 [push 9 vp6Inter; push 9 vp6Inter] Hc.
  match type of Hc with
  | _ = Ok ?m =>
      assert (Hr : reachable m)
        by (exists legacyVideo; eexists _, _; split; [exact H0 | exact Hc]);
      exists m; destruct (pending_counter_invariant m Hr) as (Hp & _ & _)
  end.
  split; [exact Hr | split; [reflexivity | split; [ | reflexivity]]].
  rewrite <- Hp. reflexivity.
Defined.

Lemma emittedBytes_app out o :
  emittedBytes (out ++ [o]) =
  emittedBytes out + match o with Header b | Fragment b => len b end.
Proof.
  unfold emittedBytes, sumZ. rewrite map_app, fold_right_app.
  cbn [map fold_right].
  induction (map _ out) as [| x l IH]; cbn [fold_right]; lia.
Qed.

(** Every step advances [filePos] by what it emits. *)
Lemma prim_filePos this this' :
  prim this this' ->
  filePos this = emittedBytes (emitted this) ->
  filePos this' = emittedBytes (emitted this') /\ filePos this <= filePos this'.
Proof.
  intros H E. destruct H as [this this' _ H | this this' H | this id c this' H].
  - apply generateHeader_inv in H. destruct H as (ts & header & _ & ->).
    cbn [afterHeader filePos emitted]. rewrite emittedBytes_app.
    unfold len. lia.
  - apply _chunk_inv in H.
    destruct H as (parts & tracks' & moofParts & moof & mdat & _ & _ & _ & _ & ->).
    cbn [afterChunk filePos emitted]. rewrite emittedBytes_app.
    unfold len. lia.
  - apply cachePush_inv in H. destruct H as (_ & ->).
    cbn [afterPush filePos emitted]. lia.
Qed.

Lemma prims_filePos this this' :
  prims this this' ->
  filePos this = emittedBytes (emitted this) ->
  filePos this' = emittedBytes (emitted this') /\ filePos this <= filePos this'.
Proof.
  induction 1 as [this | this this1 this2 H1 _ IH]; intros E.
  - split; [assumption | lia].
  - destruct (prim_filePos _ _ H1 E) as [E1 L1].
    destruct (IH E1) as [E2 L2]. split; [assumption | lia].
Qed.

(** X10. In every state a muxer reaches by calls that return, [filePos] is
    the number of bytes handed to [ondata] so far, and no later call that
    returns makes it smaller. *)
Theorem file_position_counts_emitted_bytes this :
  reachable this ->
  filePos this = emittedBytes (emitted this) /\
  (forall cs this', calls this cs = Ok this' -> filePos this <= filePos this').
Proof.
  intros H. apply reachable_prims in H. destruct H as (this0 & H0 & Hp).
  assert (E : filePos this = emittedBytes (emitted this)).
  { apply (prims_filePos _ _ Hp).
    destruct H0 as [_ -> _ _ -> _]. reflexivity. }
  split; [exact E | ].
  intros cs this' Hc. apply calls_prims in Hc.
  apply (prims_filePos _ _ Hc E).
Qed.

(** X10 after a header and a fragment. *)
Lemma file_position_counts_emitted_bytes_witness :
  exists this header chunk,
    reachable this /\ emitted this = [Header header; Fragment chunk] /\
    filePos this = len header + len chunk.
Proof.
  eassert (H0 : constructor legacyVideo = Ok _) by (vm_compute; reflexivity).
  run_from H0 [push 9 vp6Inter; push 9 vp6Key] Hc.
  match type of Hc with
  | _ = Ok ?m =>
      assert (Hr : reachable m)
        by (exists legacyVideo; eexists _, _; split; [exact H0 | exact Hc]);
      exists m; destruct (file_position_counts_emitted_bytes m Hr) as (Hp & _)
  end.
  eexists _, _.
  split; [exact Hr | split; [reflexivity | ]].
  rewrite Hp. reflexivity.
Defined.

Lemma pushAt_config tracks : forall n c,
  map trackConfig (pushAt tracks n c) = map trackConfig tracks.
Proof.
  induction tracks as [| t r IH]; intros [| n] c; cbn [pushAt map];
    try reflexivity.
  rewrite IH. reflexivity.
Qed.

Lemma advance_config t : trackConfig (advance t) = trackConfig t.
Proof. unfold advance. destruct (cache t); reflexivity. Qed.

(** No step changes the configuration of a track. *)
Lemma prim_config this this' :
  prim this this' ->
  map trackConfig (tracks this') = map trackConfig (tracks this).
Proof.
  intros [a b _ H | a b H | a id c b H].
  - apply generateHeader_inv in H. destruct H as (ts & header & _ & ->).
    cbn [afterHeader tracks]. rewrite map_map. reflexivity.
  - apply _chunk_inv in H.
    destruct H as (parts & tracks' & ? & ? & ? & Hp & _ & _ & _ & ->).
    cbn [afterChunk tracks]. apply trafParts_spec in Hp.
    destruct Hp as (_ & ->). rewrite map_map.
    apply map_ext. intros t. apply advance_config.
  - apply cachePush_inv in H. destruct H as (_ & ->).
    cbn [afterPush tracks]. apply pushAt_config.
Qed.

(** X11. Calls change nothing of a track but its cache and its cached
    duration, and they change neither the number of tracks, nor the audio
    and video track ids, nor [waitForAdditionalData]. *)
Theorem track_configuration_is_stable this cs this' :
  calls this cs = Ok this' ->
  map trackConfig (tracks this') = map trackConfig (tracks this) /\
  len_tracks (tracks this') = len_tracks (tracks this) /\
  audioTrackId this' = audioTrackId this /\
  videoTrackId this' = videoTrackId this /\
  waitForAdditionalData this' = waitForAdditionalData this.
Proof.
  intros H. apply calls_prims in H.
  assert (E : map trackConfig (tracks this') = map trackConfig (tracks this)).
  { induction H as [this | this this1 this2 H1 _ IH]; [reflexivity | ].
    rewrite IH. apply prim_config. assumption. }
  destruct (prims_frame _ _ H) as (Hw & Ha & Hv & _).
  split; [exact E | split; [ | auto]].
  unfold len_tracks. f_equal.
  rewrite <- (length_map trackConfig (tracks this')), E. apply length_map.
Qed.

(** X11 on a run with a key frame flush and an explicit flush. *)
Lemma track_configuration_is_stable_witness :
  exists this0 this,
    constructor legacyVideo = Ok this0 /\
    calls this0 [push 9 vp6Inter; push 9 vp6Key; Flush] = Ok this /\
    map trackConfig (tracks this) = map trackConfig (tracks this0) /\
    videoTrackId this = videoTrackId this0.
Proof.
  eassert (H0 : constructor legacyVideo = Ok _) by (vm_compute; reflexivity).
  run_from H0 [push 9 vp6Inter; push 9 vp6Key; Flush] Hc.
  destruct (track_configuration_is_stable _ _ _ Hc) as (E & _ & _ & Hv & _).
  eexists _, _.
  split; [exact H0 | split; [exact Hc | split; [exact E | exact Hv]]].
Defined.

Lemma advance_cleared tracks : Forall (fun t => cache t = []) (map advance tracks).
Proof.
  apply Forall_forall. intros t Ht. apply in_map_iff in Ht.
  destruct Ht as (t0 & <- & _). unfold advance.
  destruct (cache t0) eqn:E; [exact E | reflexivity].
Qed.

(** X12. When [generateHeader] or [_chunk] returns, the cache of every track
    is empty, the counter is 0, [ondata] has been called once more and
    [filePos] has advanced by the length of that buffer. *)
Theorem emission_clears_caches this this' :
  generateHeader this = Ok this' \/ _chunk this = Ok this' ->
  Forall (fun t => cache t = []) (tracks this') /\
  cachedPackets this' = 0 /\
  exists bytes, emitted this' = emitted this ++ [bytes] /\
                filePos this' = filePos this + emittedBytes [bytes].
Proof.
  intros [H | H].
  - apply generateHeader_inv in H. destruct H as (ts & header & _ & ->).
    cbn [afterHeader tracks cachedPackets emitted filePos].
    split; [ | split; [reflexivity | ]].
    + apply Forall_forall. intros t Ht. apply in_map_iff in Ht.
      destruct Ht as (t0 & <- & _). reflexivity.
    + eexists. split; [reflexivity | ].
      unfold emittedBytes, sumZ. cbn [map fold_right]. lia.
  - apply _chunk_inv in H.
    destruct H as (parts & tracks' & ? & moof & mdat & Hp & _ & _ & _ & ->).
    cbn [afterChunk tracks cachedPackets emitted filePos].
    apply trafParts_spec in Hp. destruct Hp as (_ & ->).
    split; [apply advance_cleared | split; [reflexivity | ]].
    eexists. split; [reflexivity | ].
    unfold emittedBytes, sumZ. cbn [map fold_right]. lia.
Qed.

(** X12 on the header of the VP6-only muxer. *)
Lemma emission_clears_caches_witness :
  exists this0 this1,
    constructor legacyVideo = Ok this0 /\
    generateHeader this0 = Ok this1 /\
    Forall (fun t => cache t = []) (tracks this1) /\
    cachedPackets this1 = 0.
Proof.
  eassert (H0 : constructor legacyVideo = Ok _) by (vm_compute; reflexivity).
  match type of H0 with
  | _ = Ok ?m =>
      eassert (H1 : generateHeader m = Ok _) by (vm_compute; reflexivity)
  end.
  destruct (emission_clears_caches _ _ (or_introl H1)) as (Hc & Hn & _).
  eexists _, _.
  split; [exact H0 | split; [exact H1 | split; [exact Hc | exact Hn]]].
Defined.

(** ** The layout of the header *)

Lemma trak_inv i t b :
  trak i t = Ok b ->
  exists rest, b = box "trak" (TKHD ++ encodeInt32 (i + 1) ++ rest).
Proof.
  unfold trak. intros H.
  apply bind_ok in H. destruct H as ([ci isAudio] & _ & H).
  apply bind_ok in H. destruct H as (stsd & _ & H).
  apply bind_ok in H. destruct H as (stbl & _ & H).
  destruct isAudio;
    apply bind_ok in H; destruct H as (minf & _ & H);
    apply bind_ok in H; destruct H as (mdia & _ & H);
    apply tag_box in H; cbn [flatten map concat] in H;
    eexists; rewrite H; reflexivity.
Qed.

Lemma traks_inv tracks : forall i boxes,
  traks i tracks = Ok boxes ->
  List.length boxes = List.length tracks /\
  forall k b, nth_error boxes k = Some b ->
    exists rest,
      b = box "trak" (TKHD ++ encodeInt32 (i + Z.of_nat k + 1) ++ rest).
Proof.
  induction tracks as [| t r IH]; cbn [traks]; intros i boxes H.
  - injection H as <-. split; [reflexivity | ]. intros [| k] b Hk; discriminate.
  - apply bind_ok in H. destruct H as (b0 & Hb0 & H).
    apply bind_ok in H. destruct H as (bs & Hbs & H). injection H as <-.
    destruct (IH _ _ Hbs) as (Hl & Hk). split.
    + cbn [List.length]. congruence.
    + intros [| k] b Hb; cbn [nth_error] in Hb.
      * injection Hb as <-. rewrite Z.add_0_r. eapply trak_inv. eassumption.
      * destruct (Hk _ _ Hb) as (rest & ->). exists rest.
        do 4 f_equal. lia.
Qed.

(** X13. The header [generateHeader] emits is the [ftyp] box followed by one
    [moov] box, which holds the movie header ending with the number of
    tracks, one [trak] box per track in track order and the [mvex] and
    [udta] template; the [trak] box of the track at index k carries the
    track id k + 1; and the state becomes 1. *)
Theorem header_layout this this' :
  generateHeader this = Ok this' ->
  exists boxes,
    traks 0 (tracks this) = Ok boxes /\
    emitted this'
    = emitted this
      ++ [Header (FTYP ++ box "moov" (MVHD
                                      ++ encodeInt32 (len_tracks (tracks this))
                                      ++ concat boxes ++ MVEX_AND_UDAT))] /\
    List.length boxes = List.length (tracks this) /\
    (forall k b, nth_error boxes k = Some b ->
       exists rest,
         b = box "trak" (TKHD ++ encodeInt32 (Z.of_nat k + 1) ++ rest)) /\
    state this' = 1.
Proof.
  unfold generateHeader. intros H.
  apply bind_ok in H. destruct H as (boxes & Hb & H).
  apply bind_ok in H. destruct H as (moov & Hm & H). injection H as <-.
  exists boxes. split; [exact Hb | ].
  cbn [emitted state].
  apply tag_box in Hm. cbn [flatten map concat] in Hm.
  rewrite flatten_bytes, !app_nil_r, <- !app_assoc in Hm. subst moov.
  destruct (traks_inv _ _ _ Hb) as (Hl & Hk).
  split; [ | split; [exact Hl | split; [exact Hk | reflexivity]]].
  rewrite app_nil_r. reflexivity.
Qed.

(** X13 on the VP6-only muxer. *)
Lemma header_layout_witness :
  exists this0 this1 boxes,
    constructor legacyVideo = Ok this0 /\
    generateHeader this0 = Ok this1 /\
    List.length boxes = 1%nat /\
    emitted this1
    = [Header (FTYP ++ box "moov" (MVHD ++ encodeInt32 1
                                   ++ concat boxes ++ MVEX_AND_UDAT))].
Proof.
  eassert (H0 : constructor legacyVideo = Ok _) by (vm_compute; reflexivity).
  match type of H0 with
  | _ = Ok ?m =>
      eassert (H1 : generateHeader m = Ok _) by (vm_compute; reflexivity)
  end.
  destruct (header_layout _ _ H1) as (boxes & _ & He & Hl & _).
  eexists _, _, boxes.
  split; [exact H0 | split; [exact H1 | split; [exact Hl | exact He]]].
Defined.

Lemma len_avcCPatched avcC : len (avcCPatched avcC) = len avcC.
Proof.
  unfold avcCPatched, at_. destruct (nth_error avcC 5) as [b | ] eqn:E;
    [ | reflexivity].
  assert (Hl : (5 < List.length avcC)%nat)
    by (apply nth_error_Some; congruence).
  unfold len. rewrite length_app, length_firstn. cbn [List.length].
  rewrite length_skipn. lia.
Qed.

(** The [trak] box of a configured track is built, and it is small. *)
Lemma trak_configured i t :
  configured t -> exists box, trak i t = Ok box /\ len box <= 0x1000400.
Proof.
  intros [Hl | (Hn & c0 & rest & Hc & Hsz)].
  - destruct Hl as [Ht | Ht];
      [destruct (trak_mp3 i t Ht) as (box & E & L)
      |destruct (trak_vp6f i t Ht) as (box & E & L)];
      exists box; split; try assumption; lia.
  - unfold needsConfig in Hn. apply orb_true_iff in Hn.
    pose proof (len_nonneg (packet_data (packet c0))) as H0.
    destruct Hn as [Ht | Ht]; apply String.eqb_eq in Ht;
      unfold trak, codecInfo; rewrite Ht, Hc;
      cbn [String.eqb Ascii.eqb Bool.eqb].
    + repeat tag_step. eexists. split; [reflexivity | lia].
    + cbv zeta.
      change (match at_ (packet_data (packet c0)) 5 with
              | Some b => firstn 5 (packet_data (packet c0))
                          ++ JS.bor b 0xE0 mod 256
                             :: skipn 6 (packet_data (packet c0))
              | None => packet_data (packet c0)
              end) with (avcCPatched (packet_data (packet c0))).
      pose proof (len_avcCPatched (packet_data (packet c0))) as Hp.
      repeat tag_step. eexists. split; [reflexivity | lia].
Qed.

Lemma traks_configured tracks : forall i,
  Forall configured tracks ->
  exists boxes,
    traks i tracks = Ok boxes /\
    len (concat boxes) <= 0x1000400 * len_tracks tracks.
Proof.
  unfold len_tracks.
  induction tracks as [| t r IH]; intros i H; cbn [traks].
  - exists []. split; [reflexivity | cbn; lia].
  - inversion H as [| ? ? Ht Hr]; subst.
    destruct (IH (i + 1) Hr) as (boxes & -> & Hl).
    destruct (trak_configured i t Ht) as (box & -> & Hbl). cbn [bind].
    eexists. split; [reflexivity | ].
    cbn [concat List.length]. rewrite len_app. lia.
Qed.

(** X14. [generateHeader] returns when every track is an 'mp3' or a 'vp6f'
    track, or an 'mp4a' or 'avc1' track whose cache holds a first sample of
    at most 0xFFFFFF bytes, and there are at most 100 tracks; it leaves
    state 1 and empty caches. *)
Theorem header_returns_when_configured this :
  Forall configured (tracks this) -> len_tracks (tracks this) <= 100 ->
  exists this',
    generateHeader this = Ok this' /\ state this' = 1 /\
    Forall (fun t => cache t = []) (tracks this').
Proof.
  intros Ht Hn. unfold generateHeader.
  destruct (traks_configured _ 0 Ht) as (boxes & -> & Hl). cbn [bind].
  destruct (tag_returns "moov"
              (Arr [Arr [Bytes MVHD; Bytes (encodeInt32 (len_tracks (tracks this)))];
                    Arr (map Bytes boxes); Bytes MVEX_AND_UDAT]))
    as (moov & -> & _).
  - reflexivity.
  - cbn [flatten map concat]. rewrite flatten_bytes.
    rewrite ?len_app, ?len_nil, ?len_encodeInt32. len_consts. lia.
  - cbn [bind]. eexists. split; [reflexivity | ].
    cbn [state tracks]. split; [reflexivity | ].
    apply Forall_forall. intros t Hin. apply in_map_iff in Hin.
    destruct Hin as (t0 & <- & _). reflexivity.
Qed.

(** X14 on the deferred AAC + AVC muxer holding both configuration
    samples. *)
Lemma header_returns_when_configured_witness :
  exists this0 this2 this',
    constructor deferredAacAvc = Ok this0 /\
    calls this0 [push 9 avcConfig; push 8 aacConfig] = Ok this2 /\
    generateHeader this2 = Ok this' /\ state this' = 1.
Proof.
  eassert (H0 : constructor deferredAacAvc = Ok _) by (vm_compute; reflexivity).
  run_from H0 [push 9 avcConfig; push 8 aacConfig] Hc.
  match type of Hc with
  | _ = Ok ?m =>
      destruct (header_returns_when_configured m) as (this' & Hh & Hs & _)
  end.
  - cbn [tracks].
    repeat (apply Forall_cons;
              [right; split;
               [reflexivity
               |eexists _, _; split; [reflexivity | vm_compute; discriminate]]
              | ]).
    apply Forall_nil.
  - vm_compute. discriminate.
  - eexists _, _, this'.
    split; [exact H0 | split; [exact Hc | split; [exact Hh | exact Hs]]].
Defined.

(** ** The layout of a fragment *)

(** X15. What [_chunk] builds for a video track ('avc1' or 'vp6f'): a
    [tfhd] with the track id and the frame duration, a run header with the
    number of samples, the flags of the first sample (02000000 when the
    first cached frame is a key frame, 01010000 otherwise), then a size and
    a composition time offset per sample, in cache order; and the payloads
    of the samples, concatenated in cache order, as its data. *)
Theorem video_run i t part :
  trafPart i t = Ok part -> isAudioTrack t = false ->
  isVideoTrack t = true /\
  tfhd part = box "tfhd" (hex "00020038" ++ encodeInt32 (i + 1)
                          ++ encodeInt32 (videoFrameDuration t)
                          ++ hex "0000127B01010000") /\
  trunHead part = hex "00000A05" ++ encodeInt32 (cacheLength t) /\
  trunTail part = firstFrameFlags t ++ videoRunEntries t /\
  tdat part = flat_map (fun c => packet_data (packet c)) (cache t).
Proof.
  unfold trafPart, isAudioTrack, isVideoTrack. intros H Ha.
  apply bind_ok in H. destruct H as (b & _ & H). rewrite Ha in H.
  destruct ((type t =? "avc1") || (type t =? "vp6f"))%string; [ | discriminate].
  apply bind_ok in H. destruct H as (h & Hh & H). injection H as <-.
  cbn [tfhd trunHead trunTail tdat].
  apply tag_box in Hh. cbn [flatten map concat] in Hh.
  rewrite app_nil_r in Hh.
  split; [reflexivity | split; [exact Hh | split; [ | split]]].
  - reflexivity.
  - unfold videoTrunTail, firstFrameFlags, videoRunEntries.
    cbn [flatten map concat]. f_equal.
    induction (cache t) as [| c r IH]; cbn [flat_map map concat app flatten];
      [reflexivity | ].
    rewrite IH, <- app_assoc. reflexivity.
  - unfold tdatOf. cbn [flatten]. rewrite map_map. cbn [flatten].
    rewrite flat_map_concat_map. reflexivity.
Qed.

(** X15 on a VP6 track holding one key frame of two bytes. *)
Lemma video_run_witness :
  exists this0 this1 t part,
    constructor legacyVideo = Ok this0 /\
    pushPacket this0 9 vp6Key t0 = Ok this1 /\
    tracks this1 = [t] /\
    trafPart 0 t = Ok part /\
    trunTail part = hex "02000000" ++ encodeInt32 2 ++ encodeInt32 0.
Proof.
  eassert (H0 : constructor legacyVideo = Ok _) by (vm_compute; reflexivity).
  match type of H0 with
  | _ = Ok ?m =>
      eassert (H1 : pushPacket m 9 vp6Key t0 = Ok _) by (vm_compute; reflexivity)
  end.
  match type of H1 with
  | _ = Ok ?m => eassert (Ht : tracks m = [_]) by reflexivity
  end.
  match type of Ht with
  | _ = [?t] => eassert (Hp : trafPart 0 t = Ok _) by (vm_compute; reflexivity)
  end.
  destruct (video_run _ _ _ Hp eq_refl) as (_ & _ & _ & Htail & _).
  eexists _, _, _, _.
  split; [exact H0 | split; [exact H1 | split; [exact Ht | ]]].
  split; [exact Hp | exact Htail].
Defined.

Lemma slice_at (pre x post : Uint8Array) :
  slice (pre ++ x ++ post) (len pre) (len x) = x.
Proof.
  unfold slice, len. rewrite !Nat2Z.id.
  rewrite skipn_app, skipn_all, Nat.sub_diag. cbn [skipn app].
  rewrite firstn_app, firstn_all, Nat.sub_diag. cbn [firstn].
  apply app_nil_r.
Qed.

Lemma len_box name payload :
  strlen name = 4 -> len (box name payload) = 8 + len payload.
Proof.
  intros H. unfold box. rewrite !len_app, len_encodeInt32, len_strBytes. lia.
Qed.

(** [moofLength] in closed form. *)
Lemma moofLengthOf_sum moofHeader parts :
  moofLengthOf moofHeader parts
  = 8 + len moofHeader + 8 + sumZ (map trafSize parts).
Proof.
  unfold moofLengthOf, sumZ. generalize (8 + len moofHeader + 8).
  induction parts as [| part r IH]; intros a; cbn [fold_left map fold_right].
  - lia.
  - rewrite IH. unfold trafSize. lia.
Qed.

Lemma trafs_len parts : forall off boxes,
  trafs parts off = Ok boxes ->
  Forall (fun part => len (tfdt part) = 16) parts ->
  len (concat boxes) = sumZ (map trafSize parts).
Proof.
  intros off boxes H Hf. apply trafs_spec in H.
  induction H as [| part traf ps bs (o & ->) _ IH]; [reflexivity | ].
  inversion Hf as [| ? ? F1 Fr]; subst.
  cbn [concat map]. unfold sumZ in *. cbn [fold_right].
  rewrite len_app, (IH Fr), !len_box, !len_app, !len_box, !len_app,
    len_encodeInt32 by reflexivity.
  unfold trafSize. lia.
Qed.

(** The second loop of [_chunk], started at the offset at which the data of
    [parts] begin in a buffer, writes in each run the offset at which the
    data of its part lie. *)
Lemma trafs_slices parts : forall off boxes pre post,
  trafs parts off = Ok boxes ->
  off = len pre ->
  Forall2 (fun part traf =>
             exists offset,
               traf = box "traf" (tfhd part ++ tfdt part
                                  ++ box "trun" (trunHead part
                                                 ++ encodeInt32 offset
                                                 ++ trunTail part)) /\
               slice (pre ++ concat (map tdat parts) ++ post)
                     offset (len (tdat part)) = tdat part)
          parts boxes.
Proof.
  induction parts as [| part r IH]; cbn [trafs]; intros off boxes pre post H E.
  - injection H as <-. constructor.
  - apply bind_ok in H. destruct H as (trun & Htrun & H).
    apply bind_ok in H. destruct H as (traf & Htraf & H).
    apply bind_ok in H. destruct H as (bs & Hbs & H). injection H as <-.
    apply tag_box in Htrun, Htraf.
    cbn [flatten map concat] in Htrun, Htraf.
    rewrite app_nil_r in Htrun, Htraf. subst trun traf off.
    pose proof (IH _ _ (pre ++ tdat part) post Hbs) as IH1.
    rewrite len_app in IH1. specialize (IH1 eq_refl).
    constructor.
    + exists (len pre). split; [reflexivity | ].
      cbn [map concat]. rewrite <- app_assoc. apply slice_at.
    + eapply Forall2_impl; [ | exact IH1].
      cbn beta. intros p b (o & Eb & Es). exists o. split; [exact Eb | ].
      cbn [map concat]. rewrite <- !app_assoc in Es |- *. exact Es.
Qed.

Lemma contributing_tdats tracks : forall i parts,
  Forall2 (fun it part => tdat part = tdatOf (snd it))
          (contributing i tracks) parts ->
  concat (map tdat parts) = flat_map tdatOf tracks.
Proof.
  induction tracks as [| t r IH]; cbn [contributing flat_map]; intros i parts H.
  - inversion H. reflexivity.
  - destruct (cache t) eqn:Ec.
    + rewrite (IH _ _ H).
      replace (tdatOf t) with (@nil Z)
        by (unfold tdatOf; rewrite Ec; reflexivity).
      reflexivity.
    + inversion H as [| ? p ? ps Hp Hr]; subst. cbn [map concat snd] in *.
      rewrite Hp, (IH _ _ Hr). reflexivity.
Qed.

Lemma Forall2_compose {A B C} (P : A -> B -> Prop) (Q : B -> C -> Prop)
    (la : list A) : forall (lb : list B) (lc : list C),
  Forall2 P la lb -> Forall2 Q lb lc ->
  Forall2 (fun a c => exists b, P a b /\ Q b c) la lc.
Proof.
  induction la as [| a la IH]; intros lb lc H1 H2.
  - inversion H1; subst. inversion H2; subst. constructor.
  - inversion H1; subst. inversion H2; subst.
    constructor; [eexists; eauto | eapply IH; eassumption].
Qed.

(** X16. The fragment [_chunk] emits is a [moof] box followed by an [mdat]
    box that holds the data of the tracks in track order; the [moof] box
    holds the fragment header and one [traf] box per track with a non-empty
    cache, in track order; and the data offset written in the run of each
    such track is the offset, from the start of the fragment, at which the
    data of that track lie in it. *)
Theorem fragment_data_offsets this this' :
  _chunk this = Ok this' ->
  exists moof trafBoxes chunk,
    emitted this' = emitted this ++ [Fragment chunk] /\
    chunk = moof ++ box "mdat" (flat_map tdatOf (tracks this)) /\
    moof = box "moof" (moofHeaderOf (chunkIndex this + 1) ++ concat trafBoxes) /\
    Forall2 (fun it traf =>
               exists part offset,
                 trafPart (fst it) (snd it) = Ok part /\
                 traf = box "traf" (tfhd part ++ tfdt part
                                    ++ box "trun" (trunHead part
                                                   ++ encodeInt32 offset
                                                   ++ trunTail part)) /\
                 slice chunk offset (len (tdatOf (snd it))) = tdatOf (snd it))
            (contributing 0 (tracks this)) trafBoxes.
Proof.
  intros H. apply _chunk_inv in H.
  destruct H as (parts & tracks' & moofParts & moof & mdat
                 & Hp & Htr & Hmoof & Hmdat & ->).
  apply tag_box in Hmoof. cbn [flatten map concat] in Hmoof.
  rewrite flatten_bytes in Hmoof.
  apply tag_box in Hmdat. cbn [flatten] in Hmdat.
  rewrite <- (map_map tdat Bytes), flatten_bytes in Hmdat.
  apply trafParts_spec in Hp. destruct Hp as (Hf & _).
  assert (Htd : Forall2 (fun it part => tdat part = tdatOf (snd it))
                        (contributing 0 (tracks this)) parts).
  { eapply Forall2_impl; [ | exact Hf]. intros it part Hit.
    apply trafPart_inv in Hit. tauto. }
  assert (H16 : Forall (fun part => len (tfdt part) = 16) parts).
  { clear - Hf. induction Hf as [| it part l l' Hit _ IH]; constructor;
      [ | exact IH].
    apply trafPart_inv in Hit. destruct Hit as (-> & _).
    rewrite len_box, len_app, len_encodeInt32 by reflexivity. reflexivity. }
  pose proof (trafs_len _ _ _ Htr H16) as Hl.
  set (header := moofHeaderOf (chunkIndex this + 1)) in *.
  set (pre := moof ++ encodeInt32 (8 + len (concat (map tdat parts)))
                   ++ strBytes "mdat").
  assert (Hoff : moofLengthOf header parts = len pre).
  { rewrite moofLengthOf_sum. subst pre.
    rewrite !len_app, len_encodeInt32, len_strBytes.
    rewrite Hmoof, len_box, len_app, Hl by reflexivity.
    change (strlen "mdat") with 4. lia. }
  pose proof (trafs_slices parts _ moofParts pre [] Htr Hoff) as Hs.
  assert (Echunk : pre ++ concat (map tdat parts) ++ []
                   = moof ++ box "mdat" (flat_map tdatOf (tracks this))).
  { subst pre. unfold box.
    rewrite <- (contributing_tdats _ _ _ Htd), app_nil_r, <- !app_assoc.
    reflexivity. }
  rewrite Echunk in Hs.
  exists moof, moofParts, (moof ++ box "mdat" (flat_map tdatOf (tracks this))).
  split; [ | split; [reflexivity | split; [exact Hmoof | ]]].
  - cbn [afterChunk emitted]. rewrite Hmdat, (contributing_tdats _ _ _ Htd).
    reflexivity.
  - pose proof (Forall2_compose _ _ _ _ _ Hf Hs) as Hc.
    eapply Forall2_impl; [ | exact Hc].
    cbn beta. intros it traf (part & Hit & o & Et & Es).
    exists part, o. split; [exact Hit | split; [exact Et | ]].
    apply trafPart_inv in Hit. destruct Hit as (_ & _ & <- & _). exact Es.
Qed.

(** X16 on two VP6 inter frames. *)
Lemma fragment_data_offsets_witness :
  exists this this' moof,
    _chunk this = Ok this' /\
    emitted this' = emitted this
                    ++ [Fragment (moof ++ box "mdat" [1; 2; 3; 1; 2; 3])].
Proof.
  eassert (H0 : constructor legacyVideo = Ok _) by (vm_compute; reflexivity).
  run_from H0 [push 9 vp6Inter; push 9 vp6Inter] Hc.
  match type of Hc with
  | _ = Ok ?m => eassert (Hk : _chunk m = Ok _) by (vm_compute; reflexivity)
  end.
  destruct (fragment_data_offsets _ _ Hk) as (moof & boxes & chunk & He & Ec & _).
  eexists _, _, moof. split; [exact Hk | ].
  rewrite He, Ec. reflexivity.
Defined.

(** ** Runs that return *)

Lemma trackAt_map (f : MP4Track -> MP4Track) tracks id t :
  trackAt tracks id = Some t -> trackAt (map f tracks) id = Some (f t).
Proof.
  unfold trackAt. destruct (id <? 0); [discriminate | ].
  intros H. rewrite nth_error_map, H. reflexivity.
Qed.

Lemma trackAt_pushAt tracks : forall n c id t,
  trackAt tracks id = Some t ->
  exists t', trackAt (pushAt tracks n c) id = Some t'.
Proof.
  unfold trackAt. intros n c id t. destruct (id <? 0); [discriminate | ].
  generalize (Z.to_nat id). clear id. revert n.
  induction tracks as [| t0 r IH]; intros [| n] [| k] H; cbn in H;
    try discriminate; cbn [pushAt nth_error]; eauto.
Qed.

Lemma legacyType_map (f : MP4Track -> MP4Track) tracks :
  (forall t, type (f t) = type t) ->
  Forall legacyType tracks -> Forall legacyType (map f tracks).
Proof.
  intros Hf H. apply Forall_forall. intros t Ht. apply in_map_iff in Ht.
  destruct Ht as (t0 & <- & Hin). rewrite Forall_forall in H.
  unfold legacyType. rewrite Hf. apply H. assumption.
Qed.

Lemma supportedTrack_map (f : MP4Track -> MP4Track) tracks :
  (forall t, type (f t) = type t) ->
  Forall supportedTrack tracks -> Forall supportedTrack (map f tracks).
Proof.
  intros Hf H. apply Forall_forall. intros t Ht. apply in_map_iff in Ht.
  destruct Ht as (t0 & <- & Hin). rewrite Forall_forall in H.
  unfold supportedTrack, isAudioTrack, isVideoTrack. rewrite Hf.
  apply H. assumption.
Qed.

Lemma pushAt_supportedTrack tracks : forall n c,
  Forall supportedTrack tracks -> Forall supportedTrack (pushAt tracks n c).
Proof.
  induction tracks as [| t0 r IH]; intros [| n] c H; cbn [pushAt];
    try assumption; inversion H; subst; constructor; auto.
Qed.

Lemma legacyType_supported tracks :
  Forall legacyType tracks -> Forall supportedTrack tracks.
Proof.
  intros H. eapply Forall_impl; [ | exact H].
  intros t [Ht | Ht]; unfold supportedTrack, isAudioTrack, isVideoTrack;
    rewrite Ht; reflexivity.
Qed.

Lemma advance_type t : type (advance t) = type t.
Proof. unfold advance. destruct (cache t); reflexivity. Qed.

Lemma Steady_weaken B l l' this : l <= l' -> Steady B l this -> Steady B l' this.
Proof. intros Hl [? ? ? ? ? ? ?]. constructor; try assumption. lia. Qed.

(** The header, when it is due at the start of [pushPacket], is emitted. *)
Lemma Steady_header B l this :
  Steady B l this ->
  exists s,
    (if (state this =? 0) && negb (waitForAdditionalData this)
     then generateHeader this else Ok this) = Ok s /\
    Steady B l s /\ state s = 1 /\
    audioTrackId s = audioTrackId this /\ videoTrackId s = videoTrackId this.
Proof.
  intros HS. pose proof HS as [Hst Hty Ha Hv Hc Hl Hp].
  destruct Hst as [H1 | (H0 & Hw & Hn & Hleg)].
  - exists this. rewrite H1. cbn [Z.eqb andb]. auto.
  - rewrite H0, Hw. cbn [Z.eqb negb andb].
    destruct (generateHeader_legacy this Hleg Hn) as (s & Hs). exists s.
    split; [exact Hs | ].
    apply generateHeader_inv in Hs. destruct Hs as (ts & header & _ & ->).
    pose proof (afterHeader_cleared this header) as Hclr.
    cbn [afterHeader state tracks audioTrackId videoTrackId] in *.
    split; [ | auto].
    constructor; cbn [afterHeader state tracks audioTrackId videoTrackId
                      cachedPackets].
    + left. reflexivity.
    + apply supportedTrack_map; [reflexivity | assumption].
    + intros Hne. destruct (Ha Hne) as (t & Ht).
      eexists. apply trackAt_map. eassumption.
    + intros Hne. destruct (Hv Hne) as (t & Ht).
      eexists. apply trackAt_map. eassumption.
    + rewrite (pendingCount_empty _ Hclr). reflexivity.
    + rewrite (pendingCount_empty _ Hclr).
      pose proof (pendingCount_nonneg (tracks this)). lia.
    + rewrite (pendingCount_empty _ Hclr), (payloadBytes_empty _ Hclr). lia.
Qed.

(** A fragment of at most five samples is emitted. *)
Lemma Steady_chunk B this :
  0 <= B -> 8 + 5 * B <= 0x7FFFFFFF ->
  Steady B MAX_PACKETS_IN_CHUNK this ->
  exists s, _chunk this = Ok s /\ Steady B 0 s /\ state s = state this /\
            audioTrackId s = audioTrackId this /\
            videoTrackId s = videoTrackId this.
Proof.
  intros HB Hfit [Hst Hty Ha Hv Hc Hl Hp].
  pose proof (pendingCount_nonneg (tracks this)) as Hn.
  unfold MAX_PACKETS_IN_CHUNK in Hl.
  destruct (_chunk_returns this) as (s & Hs).
  - eapply Forall_impl; [ | exact Hty]. intros t Ht. right. exact Ht.
  - unfold MAX_PACKETS_IN_CHUNK. assumption.
  - nia.
  - exists s. split; [exact Hs | ].
    apply _chunk_inv in Hs.
    destruct Hs as (parts & tracks' & ? & moof & mdat & Hparts & _ & _ & _ & ->).
    apply trafParts_spec in Hparts. destruct Hparts as (_ & ->).
    pose proof (advance_cleared (tracks this)) as Hclr.
    cbn [afterChunk state tracks audioTrackId videoTrackId].
    split; [ | auto].
    constructor; cbn [afterChunk state tracks audioTrackId videoTrackId
                      cachedPackets].
    + destruct Hst as [H1 | (H0 & Hw & Hlen & Hleg)]; [left; assumption | right].
      split; [assumption | split; [assumption | split]].
      * unfold len_tracks in *. rewrite length_map. assumption.
      * apply legacyType_map; [apply advance_type | assumption].
    + apply supportedTrack_map; [apply advance_type | assumption].
    + intros Hne. destruct (Ha Hne) as (t & Ht).
      eexists. apply trackAt_map. eassumption.
    + intros Hne. destruct (Hv Hne) as (t & Ht).
      eexists. apply trackAt_map. eassumption.
    + rewrite (pendingCount_empty _ Hclr). reflexivity.
    + rewrite (pendingCount_empty _ Hclr). lia.
    + rewrite (pendingCount_empty _ Hclr), (payloadBytes_empty _ Hclr). lia.
Qed.

(** A sample for a track the muxer has is cached. *)
Lemma Steady_push B this id c t :
  Steady B (MAX_PACKETS_IN_CHUNK - 1) this ->
  trackAt (tracks this) id = Some t ->
  len (packet_data (packet c)) <= B ->
  cachePush this id c = Ok (afterPush this id c) /\
  Steady B MAX_PACKETS_IN_CHUNK (afterPush this id c).
Proof.
  intros [Hst Hty Ha Hv Hc Hl Hp] Ht Hlen. split.
  - unfold cachePush. rewrite Ht. reflexivity.
  - unfold trackAt in Ht.
    destruct (Z.ltb_spec id 0) as [ | Hid]; [discriminate | ].
    constructor; cbn [afterPush state tracks audioTrackId videoTrackId
                      cachedPackets waitForAdditionalData].
    + destruct Hst as [H1 | (H0 & Hw & Hn & Hleg)]; [left; assumption | right].
      split; [assumption | split; [assumption | split]].
      * unfold len_tracks in *.
        replace (List.length (pushAt (tracks this) (Z.to_nat id) c))
          with (List.length (map type (pushAt (tracks this) (Z.to_nat id) c)))
          by apply length_map.
        rewrite pushAt_types, length_map. assumption.
      * apply pushAt_legacy. assumption.
    + apply pushAt_supportedTrack. assumption.
    + intros Hne. destruct (Ha Hne) as (t1 & Ht1).
      eapply trackAt_pushAt. eassumption.
    + intros Hne. destruct (Hv Hne) as (t1 & Ht1).
      eapply trackAt_pushAt. eassumption.
    + rewrite (pushAt_pending _ _ _ _ Ht). lia.
    + rewrite (pushAt_pending _ _ _ _ Ht). unfold MAX_PACKETS_IN_CHUNK in *. lia.
    + rewrite (pushAt_pending _ _ _ _ Ht), (pushAt_payload _ _ _ _ Ht). lia.
Qed.

Lemma Steady_ceiling B s :
  0 <= B -> 8 + 5 * B <= 0x7FFFFFFF ->
  Steady B MAX_PACKETS_IN_CHUNK s ->
  exists s',
    (if cachedPackets s >=? MAX_PACKETS_IN_CHUNK then _chunk s else Ok s)
    = Ok s' /\
    Steady B (MAX_PACKETS_IN_CHUNK - 1) s' /\
    audioTrackId s' = audioTrackId s /\ videoTrackId s' = videoTrackId s.
Proof.
  intros HB Hfit HS.
  destruct (Z.geb_spec (cachedPackets s) MAX_PACKETS_IN_CHUNK) as [Hge | Hlt].
  - destruct (Steady_chunk B s HB Hfit HS) as (s' & Hs' & HS' & _ & Ha & Hv).
    exists s'. split; [exact Hs' | split; [ | auto]].
    eapply Steady_weaken; [ | exact HS']. unfold MAX_PACKETS_IN_CHUNK. lia.
  - exists s. split; [reflexivity | split; [ | auto]].
    destruct HS as [? ? ? ? Hc ? ?]. constructor; try assumption.
    rewrite <- Hc. lia.
Qed.

Lemma Steady_keyframe B (key : bool) s :
  0 <= B -> 8 + 5 * B <= 0x7FFFFFFF ->
  Steady B (MAX_PACKETS_IN_CHUNK - 1) s -> state s = 1 ->
  exists s',
    (if key && negb (cachedPackets s =? 0) then _chunk s else Ok s) = Ok s' /\
    Steady B (MAX_PACKETS_IN_CHUNK - 1) s' /\ state s' = 1 /\
    audioTrackId s' = audioTrackId s /\ videoTrackId s' = videoTrackId s.
Proof.
  intros HB Hfit HS H1.
  destruct (key && negb (cachedPackets s =? 0)).
  - assert (HS5 : Steady B MAX_PACKETS_IN_CHUNK s)
      by (eapply Steady_weaken; [ | exact HS]; lia).
    destruct (Steady_chunk B s HB Hfit HS5) as (s' & Hs' & HS' & Hst & Ha & Hv).
    exists s'. split; [exact Hs' | ].
    split; [ | split; [congruence | auto]].
    eapply Steady_weaken; [ | exact HS']. unfold MAX_PACKETS_IN_CHUNK. lia.
  - exists s. auto.
Qed.

(** One served packet. *)
Lemma Steady_pushPacket B this0 this type data ts :
  0 <= B -> 8 + 5 * B <= 0x7FFFFFFF ->
  Steady B (MAX_PACKETS_IN_CHUNK - 1) this ->
  audioTrackId this = audioTrackId this0 ->
  videoTrackId this = videoTrackId this0 ->
  served this0 B (PushPacket type data ts) ->
  exists this',
    pushPacket this type data ts = Ok this' /\
    Steady B (MAX_PACKETS_IN_CHUNK - 1) this' /\
    audioTrackId this' = audioTrackId this0 /\
    videoTrackId this' = videoTrackId this0.
Proof.
  intros HB Hfit HS Ea Ev Hc. unfold pushPacket, intake.
  destruct (Steady_header _ _ _ HS) as (s & -> & HS1 & H1 & Ea1 & Ev1).
  cbn [bind]. rewrite H1.
  change (1 =? 0) with false. rewrite !andb_false_r.
  destruct Hc as [(-> & Hid & Hcodec & Hlen) | (-> & Hid & Hcodec & Hlen)].
  - change (AUDIO_PACKET =? AUDIO_PACKET) with true. cbv iota zeta.
    assert (E : (if AudioPacket.codecId (parseAudiodata data)
                    =? MP3_SOUND_CODEC_ID
                 then Ok s
                 else if AudioPacket.codecId (parseAudiodata data)
                         =? AAC_SOUND_CODEC_ID
                 then Ok s
                 else Throw (UnsupportedAudioCodec
                               (AudioPacket.codecDescription
                                  (parseAudiodata data)))) = Ok s).
    { destruct Hcodec as [-> | ->]; reflexivity. }
    rewrite E. cbn [bind].
    destruct (steady_audio _ _ _ HS1) as (t & Ht); [congruence | ].
    destruct (Steady_push B s (audioTrackId s)
                {| packet := Audio (parseAudiodata data); timestamp := ts |}
                t HS1 Ht Hlen) as (-> & HS2).
    cbn [bind].
    destruct (Steady_ceiling B _ HB Hfit HS2) as (s' & -> & HS3 & Ea3 & Ev3).
    exists s'. cbn [afterPush audioTrackId videoTrackId] in *.
    split; [reflexivity | split; [exact HS3 | split; congruence]].
  - change (VIDEO_PACKET =? AUDIO_PACKET) with false.
    change (VIDEO_PACKET =? VIDEO_PACKET) with true. cbv iota zeta.
    destruct (Steady_keyframe B
                (VideoPacket.frameType (parseVideodata data) =? 1) s
                HB Hfit HS1 H1) as (s1 & Hk & HSk & Hk1 & Eak & Evk).
    assert (E : (if VideoPacket.codecId (parseVideodata data)
                    =? VP6_VIDEO_CODEC_ID
                 then if (VideoPacket.frameType (parseVideodata data) =? 1)
                         && negb (cachedPackets s =? 0)
                      then _chunk s else Ok s
                 else if VideoPacket.codecId (parseVideodata data)
                         =? AVC_VIDEO_CODEC_ID
                 then this1 <- Ok s ;;
                      if (VideoPacket.frameType (parseVideodata data) =? 1)
                         && negb (cachedPackets this1 =? 0)
                      then _chunk this1 else Ok this1
                 else Throw (UnsupportedVideoCodec
                               (VideoPacket.codecDescription
                                  (parseVideodata data)))) = Ok s1).
    { destruct Hcodec as [-> | ->]; exact Hk. }
    rewrite E. cbn [bind].
    destruct (steady_video _ _ _ HSk) as (t & Ht); [congruence | ].
    destruct (Steady_push B s1 (videoTrackId s1)
                {| packet := Video (parseVideodata data); timestamp := ts |}
                t HSk Ht Hlen) as (-> & HS2).
    cbn [bind].
    destruct (Steady_ceiling B _ HB Hfit HS2) as (s' & -> & HS3 & Ea3 & Ev3).
    exists s'. cbn [afterPush audioTrackId videoTrackId] in *.
    split; [reflexivity | split; [exact HS3 | split; congruence]].
Qed.

Lemma constructor_audio_track metadata this :
  constructor metadata = Ok this -> trackinfo metadata = None ->
  audioTrackId this <> -1 ->
  exists t, trackAt (tracks this) (audioTrackId this) = Some t.
Proof.
  unfold constructor. intros H E. rewrite E in H.
  destruct (truthy (audiocodecid metadata));
    [destruct (is_not_number (audiocodecid metadata) 2); [discriminate | ] | ];
    cbn [bind] in H;
    (destruct (truthy (videocodecid metadata));
     [destruct (is_not_number (videocodecid metadata) 4); [discriminate | ] | ]);
    injection H as <-; cbn [mkMux tracks audioTrackId]; intros Hne;
    try congruence; eexists; reflexivity.
Qed.

Lemma constructor_Steady metadata this B :
  constructor metadata = Ok this -> trackinfo metadata = None ->
  Steady B (MAX_PACKETS_IN_CHUNK - 1) this.
Proof.
  intros H0 Hl.
  destruct (constructor_legacy _ _ H0 Hl) as (Hty & Hn & Hw).
  pose proof (constructor_Fresh _ _ H0) as [Hs _ Hc _ _ Hclr].
  constructor.
  - right. auto.
  - apply legacyType_supported. assumption.
  - apply (constructor_audio_track _ _ H0 Hl).
  - apply (constructor_video_track _ _ H0 Hl).
  - rewrite (pendingCount_empty _ Hclr). assumption.
  - rewrite (pendingCount_empty _ Hclr). unfold MAX_PACKETS_IN_CHUNK. lia.
  - rewrite (pendingCount_empty _ Hclr), (payloadBytes_empty _ Hclr). lia.
Qed.

(** A series of served calls. *)
Lemma Steady_calls B this0 cs :
  0 <= B -> 8 + 5 * B <= 0x7FFFFFFF ->
  Forall (served this0 B) cs ->
  forall this,
    Steady B (MAX_PACKETS_IN_CHUNK - 1) this ->
    audioTrackId this = audioTrackId this0 ->
    videoTrackId this = videoTrackId this0 ->
    exists this',
      calls this cs = Ok this' /\ Steady B (MAX_PACKETS_IN_CHUNK - 1) this'.
Proof.
  intros HB Hfit Hcs.
  induction Hcs as [| c cs Hc _ IH]; intros this HS Ea Ev.
  - exists this. split; [reflexivity | assumption].
  - destruct c as [type data ts | ]; cbn [calls call].
    + destruct (Steady_pushPacket B this0 this type data ts HB Hfit HS Ea Ev Hc)
        as (s & -> & HS' & Ea' & Ev').
      cbn [bind]. apply IH; assumption.
    + unfold flush. destruct (cachedPackets this >? 0).
      * assert (HS5 : Steady B MAX_PACKETS_IN_CHUNK this)
          by (eapply Steady_weaken; [ | exact HS]; lia).
        destruct (Steady_chunk B this HB Hfit HS5)
          as (s & -> & HS' & _ & Ea' & Ev').
        cbn [bind]. apply IH; [ | congruence | congruence].
        eapply Steady_weaken; [ | exact HS']. unfold MAX_PACKETS_IN_CHUNK. lia.
      * cbn [bind]. apply IH; assumption.
Qed.

(** X17. The legacy path does not fail. On a muxer built from the legacy
    fields, every series of calls returns in which each call is a flush, or
    an audio packet of a supported codec when there is an audio track, or a
    video packet of a supported codec when there is a video track, with
    payloads of at most [B] bytes, five of which fit in a box. *)
Theorem legacy_path_returns metadata this0 B cs :
  constructor metadata = Ok this0 -> trackinfo metadata = None ->
  0 <= B -> 8 + 5 * B <= 0x7FFFFFFF ->
  Forall (served this0 B) cs ->
  exists this,
    calls this0 cs = Ok this /\ cachedPackets this < MAX_PACKETS_IN_CHUNK.
Proof.
  intros H0 Hl HB Hfit Hcs.
  pose proof (constructor_Steady _ _ B H0 Hl) as HS.
  destruct (Steady_calls B this0 cs HB Hfit Hcs this0 HS eq_refl eq_refl)
    as (this & Hc & [_ _ _ _ Hn Hlim _]).
  exists this. split; [exact Hc | lia].
Qed.

(** X17 on a run of the VP6-only muxer. *)
Lemma legacy_path_returns_witness :
  exists this0 this,
    constructor legacyVideo = Ok this0 /\
    calls this0 [push 9 vp6Key; push 9 vp6Inter; Flush; push 9 vp6Inter]
    = Ok this /\
    cachedPackets this < MAX_PACKETS_IN_CHUNK.
Proof.
  eassert (H0 : constructor legacyVideo = Ok _) by (vm_compute; reflexivity).
  match type of H0 with
  | _ = Ok ?m =>
      destruct (legacy_path_returns legacyVideo m 0xFFFF
                  [push 9 vp6Key; push 9 vp6Inter; Flush; push 9 vp6Inter]
                  H0 eq_refl)
        as (this & Hc & Hlt)
  end.
  - lia.
  - lia.
  - repeat (apply Forall_cons;
              [first [exact I
                     |right; split; [reflexivity | ];
                      split; [vm_compute; discriminate | ];
                      split; [left; reflexivity | vm_compute; discriminate]]
              | ]).
    apply Forall_nil.
  - eexists _, this. split; [exact H0 | split; [exact Hc | exact Hlt]].
Defined.

(** X18. Once the header is out, a muxer whose tracks are of the four types
    serves every such series of calls as well, on the deferred path too:
    it returns, and the muxer stays in state 1, with fewer than five samples
    pending, none of more than [B] bytes. *)
Theorem initialized_muxer_serves B this cs :
  0 <= B -> 8 + 5 * B <= 0x7FFFFFFF ->
  state this = 1 ->
  Steady B (MAX_PACKETS_IN_CHUNK - 1) this ->
  Forall (served this B) cs ->
  exists this',
    calls this cs = Ok this' /\ state this' = 1 /\
    Steady B (MAX_PACKETS_IN_CHUNK - 1) this'.
Proof.
  intros HB Hfit H1 HS Hcs.
  destruct (Steady_calls B this cs HB Hfit Hcs this HS eq_refl eq_refl)
    as (this' & Hc & HS').
  exists this'. split; [exact Hc | split; [ | exact HS']].
  apply calls_prims in Hc. apply prims_frame in Hc. apply Hc. exact H1.
Qed.

(** X18 on the deferred AAC + AVC muxer, from the state its first key frame
    slice leaves. *)
Lemma initialized_muxer_serves_witness :
  exists this0 this1 this2,
    constructor deferredAacAvc = Ok this0 /\
    calls this0 [push 9 avcConfig; push 8 aacConfig; push 9 avcKey] = Ok this1 /\
    state this1 = 1 /\
    calls this1 [push 8 aacFrame; push 9 avcInter; Flush; push 9 avcKey]
    = Ok this2 /\
    state this2 = 1.
Proof.
  eassert (H0 : constructor deferredAacAvc = Ok _) by (vm_compute; reflexivity).
  run_from H0 [push 9 avcConfig; push 8 aacConfig; push 9 avcKey] Hc.
  match type of Hc with
  | _ = Ok ?m =>
      destruct (initialized_muxer_serves 0xFFFF m
                  [push 8 aacFrame; push 9 avcInter; Flush; push 9 avcKey])
        as (this2 & Hc2 & Hs2 & _)
  end.
  - lia.
  - lia.
  - reflexivity.
  - constructor; cbn [state tracks audioTrackId videoTrackId cachedPackets].
    + left. reflexivity.
    + repeat (apply Forall_cons; [reflexivity | ]). apply Forall_nil.
    + intros _. eexists. reflexivity.
    + intros _. eexists. reflexivity.
    + reflexivity.
    + vm_compute. discriminate.
    + vm_compute. discriminate.
  - repeat (apply Forall_cons;
              [first [exact I
                     |left; split; [reflexivity | ];
                      split; [vm_compute; discriminate | ];
                      split; [right; reflexivity | vm_compute; discriminate]
                     |right; split; [reflexivity | ];
                      split; [vm_compute; discriminate | ];
                      split; [right; reflexivity | vm_compute; discriminate]]
              | ]).
    apply Forall_nil.
  - eexists _, _, this2.
    split; [exact H0 | split; [exact Hc | split; [reflexivity | ]]].
    split; [exact Hc2 | exact Hs2].
Defined.

(** ** Order and number of the emissions *)

(** Inverting one primitive of a run that returned. *)
Ltac run_inv :=
  repeat match goal with
         | H : Ok _ = Ok _ |- _ => injection H as <-
         | H : Throw _ = Ok _ |- _ => discriminate H
         | H : bind _ _ = Ok _ |- _ =>
             let s := fresh "s" in let Hs := fresh "Hs" in
             apply bind_ok in H; destruct H as (s & Hs & H)
         | H : generateHeader _ = Ok _ |- _ =>
             apply generateHeader_inv in H; destruct H as (? & ? & _ & ->)
         | H : _chunk _ = Ok _ |- _ =>
             apply _chunk_inv in H;
             destruct H as (? & ? & ? & ? & ? & _ & _ & _ & _ & ->)
         | H : cachePush _ _ _ = Ok _ |- _ =>
             apply cachePush_inv in H; destruct H as (_ & ->)
         | H : (if ?c then _ else _) = Ok _ |- _ =>
             let E := fresh "E" in destruct c eqn:E
         end.

(** X19. A flush that returns leaves nothing to flush: a second [flush]
    right after it returns the same state and emits nothing. *)
Theorem flush_idempotent this this' :
  flush this = Ok this' ->
  flush this' = Ok this' /\ cachedPackets this' <= 0.
Proof.
  unfold flush. intros H.
  destruct (Z.gtb_spec (cachedPackets this) 0) as [Hp | Hp].
  - apply _chunk_inv in H.
    destruct H as (parts & tracks' & ? & ? & ? & _ & _ & _ & _ & ->).
    cbn [afterChunk cachedPackets]. split; [reflexivity | lia].
  - injection H as <-.
    destruct (Z.gtb_spec (cachedPackets this) 0); [lia | ].
    split; [reflexivity | assumption].
Qed.

(** X19 on two pending VP6 inter frames. *)
Lemma flush_idempotent_witness :
  exists this this',
    cachedPackets this = 2 /\ flush this = Ok this' /\
    flush this' = Ok this' /\ cachedPackets this' = 0.
Proof.
  eassert (H0 : constructor legacyVideo = Ok _) by (vm_compute; reflexivity).
  run_from H0 [push 9 vp6Inter; push 9 vp6Inter] Hc.
  match type of Hc with
  | _ = Ok ?m => eassert (Hf : flush m = Ok _) by (vm_compute; reflexivity)
  end.
  destruct (flush_idempotent _ _ Hf) as (Hi & _).
  match type of Hf with
  | flush ?m = Ok ?m' => exists m, m'
  end.
  split; [reflexivity | split; [exact Hf | split; [exact Hi | reflexivity]]].
Defined.

(** X20. A call that returns has called [ondata] at most once: [pushPacket]
    and [flush] emit nothing, or one buffer, never two. *)
Theorem one_emission_per_call this c this' :
  call this c = Ok this' ->
  emitted this' = emitted this \/ exists o, emitted this' = emitted this ++ [o].
Proof.
  destruct c as [type data ts | ]; cbn [call].
  - unfold pushPacket, intake. intros H. run_inv.
    all: cbn [emitted state cachedPackets afterHeader afterChunk afterPush] in *.
    all: repeat match goal with
                | E : _ && _ = true |- _ => apply andb_true_iff in E; destruct E
                | E : negb _ = true |- _ => apply negb_true_iff in E
                end.
    all: try discriminate.
    all: try (left; reflexivity).
    all: try (right; eexists; reflexivity).
  - unfold flush. intros H. run_inv.
    + right. eexists. reflexivity.
    + left. reflexivity.
Qed.

(** X20 on the VP6-only muxer: the first push emits the header, the second
    nothing. *)
Lemma one_emission_per_call_witness :
  exists this0 this1 this2 header,
    constructor legacyVideo = Ok this0 /\
    pushPacket this0 9 vp6Key t0 = Ok this1 /\
    emitted this1 = emitted this0 ++ [Header header] /\
    pushPacket this1 9 vp6Inter t0 = Ok this2 /\
    emitted this2 = emitted this1.
Proof.
  eassert (H0 : constructor legacyVideo = Ok _) by (vm_compute; reflexivity).
  match type of H0 with
  | _ = Ok ?m =>
      eassert (H1 : pushPacket m 9 vp6Key t0 = Ok _) by (vm_compute; reflexivity)
  end.
  match type of H1 with
  | _ = Ok ?m =>
      eassert (H2 : pushPacket m 9 vp6Inter t0 = Ok _)
        by (vm_compute; reflexivity)
  end.
  destruct (one_emission_per_call _ (PushPacket 9 vp6Key t0) _ H1)
    as [E1 | (o1 & E1)]; [discriminate E1 | ].
  destruct (one_emission_per_call _ (PushPacket 9 vp6Inter t0) _ H2)
    as [E2 | (o2 & E2)];
    [ | apply (f_equal (@List.length Output)) in E2; discriminate E2].
  eexists _, _, _, _.
  split; [exact H0 | split; [exact H1 | split; [reflexivity | ]]].
  split; [exact H2 | exact E2].
Defined.

(** One call keeps the header first. *)
Lemma headerFirst_call this c this' :
  waitForAdditionalData this = false -> headerFirst this ->
  call this c = Ok this' ->
  waitForAdditionalData this' = false /\ headerFirst this'.
Proof.
  intros Hw HP Hc.
  assert (Hw' : waitForAdditionalData this' = false).
  { assert (Hcs : calls this [c] = Ok this')
      by (cbn [calls]; rewrite Hc; reflexivity).
    apply calls_prims, prims_frame in Hcs. destruct Hcs as (E & _).
    congruence. }
  split; [exact Hw' | ]. clear Hw'.
  assert (Snoc : forall h fs o,
            Header h :: map Fragment fs ++ [Fragment o]
            = Header h :: map Fragment (fs ++ [o]))
    by (intros; rewrite map_app; reflexivity).
  destruct c as [type data ts | ]; cbn [call] in Hc.
  - unfold pushPacket, intake in Hc. rewrite Hw in Hc.
    destruct HP as [(Hs & Hn & He) | (Hs & h & fs & He)]; rewrite Hs in Hc;
      cbn [Z.eqb negb andb] in Hc; run_inv;
      cbn [emitted state cachedPackets afterHeader afterChunk afterPush] in *;
      repeat match goal with
             | E : _ && _ = true |- _ => apply andb_true_iff in E; destruct E
             end;
      try discriminate;
      try match goal with
          | H : (state this =? 0) = true |- _ => rewrite Hs in H; discriminate H
          end;
      right;
      cbn [emitted state cachedPackets afterHeader afterChunk afterPush];
      (split; [reflexivity || assumption | ]);
      rewrite He; cbn [app]; rewrite ?Snoc;
      first [ exists h; eexists; reflexivity
            | eexists; exists []; reflexivity ].
  - unfold flush in Hc.
    destruct HP as [(Hs & Hn & He) | (Hs & h & fs & He)].
    + rewrite Hn in Hc. cbn in Hc. injection Hc as <-. left. auto.
    + run_inv; right; cbn [emitted state afterChunk];
        (split; [assumption | ]).
      * rewrite He. cbn [app]. rewrite Snoc. eauto.
      * eauto.
Qed.

(** X21. On the legacy path the header comes first: whatever the calls, a
    muxer built from the legacy fields has emitted nothing and is in
    state 0, or it has emitted the header and after it fragments only, and
    is in state 1. *)
Theorem header_first_on_legacy_path metadata this0 cs this :
  constructor metadata = Ok this0 -> trackinfo metadata = None ->
  calls this0 cs = Ok this ->
  (state this = 0 /\ emitted this = []) \/
  (state this = 1 /\
   exists header chunks, emitted this = Header header :: map Fragment chunks).
Proof.
  intros H0 Hl Hc.
  destruct (constructor_legacy _ _ H0 Hl) as (_ & _ & Hw).
  pose proof (constructor_Fresh _ _ H0) as [Hs He Hn _ _ _].
  assert (HP : headerFirst this0) by (left; auto).
  clear H0 Hl Hs He Hn.
  assert (G : headerFirst this).
  { revert this0 Hw HP Hc.
    induction cs as [| c cs IH]; intros this0 Hw HP Hc; cbn [calls] in Hc.
    - injection Hc as <-. exact HP.
    - apply bind_ok in Hc. destruct Hc as (s & Hs & Hc).
      destruct (headerFirst_call _ _ _ Hw HP Hs) as (Hw' & HP').
      exact (IH s Hw' HP' Hc). }
  destruct G as [(Hs & _ & He) | G]; [left; auto | right; exact G].
Qed.

(** X21 on a run with a no-op flush, two key frames and a flush. *)
Lemma header_first_on_legacy_path_witness :
  exists this0 this header chunk1 chunk2,
    constructor legacyVideo = Ok this0 /\
    calls this0 [Flush; push 9 vp6Key; push 9 vp6Key; Flush] = Ok this /\
    emitted this = [Header header; Fragment chunk1; Fragment chunk2].
Proof.
  eassert (H0 : constructor legacyVideo = Ok _) by (vm_compute; reflexivity).
  run_from H0 [Flush; push 9 vp6Key; push 9 vp6Key; Flush] Hc.
  destruct (header_first_on_legacy_path _ _ _ _ H0 eq_refl Hc)
    as [(Hs & _) | (_ & h & fs & He)]; [discriminate Hs | ].
  eexists _, _, _, _, _.
  split; [exact H0 | split; [exact Hc | reflexivity]].
Defined.

(** X22. On the deferred path a fragment can go out before the header. In
    state 0 with samples pending, a [flush] that returns emits a fragment,
    and so does an AVC configuration sample (packet type 0) flagged as a key
    frame; in both cases the state is still 0 and no header has been
    emitted. *)
Theorem fragment_before_header this this' :
  state this = 0 -> waitForAdditionalData this = true ->
  0 < cachedPackets this ->
  (flush this = Ok this' ->
   state this' = 0 /\ headers (emitted this') = headers (emitted this) /\
   exists chunk, emitted this' = emitted this ++ [Fragment chunk]) /\
  (forall data ts,
     VideoPacket.codecId (parseVideodata data) = AVC_VIDEO_CODEC_ID ->
     VideoPacket.packetType (parseVideodata data) = Some 0 ->
     VideoPacket.frameType (parseVideodata data) = 1 ->
     pushPacket this VIDEO_PACKET data ts = Ok this' ->
     state this' = 0 /\ headers (emitted this') = headers (emitted this) /\
     cachedPackets this' = 1 /\
     exists chunk, emitted this' = emitted this ++ [Fragment chunk]).
Proof.
  intros H0 Hw Hn. split.
  - unfold flush. destruct (Z.gtb_spec (cachedPackets this) 0); [ | lia].
    intros Hfl. run_inv. cbn [afterChunk state emitted].
    rewrite headers_app, app_nil_r.
    split; [assumption | split; [reflexivity | eexists; reflexivity]].
  - intros data ts Hc Hp Hf. unfold pushPacket, intake.
    rewrite H0, Hw, Hc, Hp, Hf.
    change (VIDEO_PACKET =? AUDIO_PACKET) with false.
    change (VIDEO_PACKET =? VIDEO_PACKET) with true.
    change (AVC_VIDEO_CODEC_ID =? VP6_VIDEO_CODEC_ID) with false.
    change (AVC_VIDEO_CODEC_ID =? AVC_VIDEO_CODEC_ID) with true.
    cbn [Z.eqb negb andb is_not_zero bind Pos.eqb].
    destruct (Z.eqb_spec (cachedPackets this) 0); [lia | ].
    cbn [negb]. intros Hpush. run_inv.
    all: cbn [afterChunk afterPush state emitted cachedPackets] in *.
    all: try discriminate.
    rewrite headers_app, app_nil_r.
    split; [assumption | split; [reflexivity | split; [reflexivity | ]]].
    eexists. reflexivity.
Qed.

(** X22 on the deferred AAC + AVC muxer: the AAC configuration first, then
    the AVC configuration as a key frame. *)
Lemma fragment_before_header_witness :
  exists this0 this1 this2 chunk,
    constructor deferredAacAvc = Ok this0 /\
    pushPacket this0 8 aacConfig t0 = Ok this1 /\
    pushPacket this1 9 avcConfig t0 = Ok this2 /\
    state this2 = 0 /\ emitted this2 = [Fragment chunk].
Proof.
  eassert (H0 : constructor deferredAacAvc = Ok _) by (vm_compute; reflexivity).
  match type of H0 with
  | _ = Ok ?m =>
      eassert (H1 : pushPacket m 8 aacConfig t0 = Ok _)
        by (vm_compute; reflexivity)
  end.
  match type of H1 with
  | _ = Ok ?m =>
      eassert (H2 : pushPacket m 9 avcConfig t0 = Ok _)
        by (vm_compute; reflexivity)
  end.
  match type of H2 with
  | pushPacket ?m _ _ _ = Ok ?m' =>
      destruct (fragment_before_header m m' eq_refl eq_refl eq_refl)
        as (_ & Hp)
  end.
  destruct (Hp avcConfig t0 eq_refl eq_refl eq_refl H2)
    as (Hs & _ & _ & chunk & He).
  eexists _, _, _, chunk.
  split; [exact H0 | split; [exact H1 | split; [exact H2 | ]]].
  split; [exact Hs | exact He].
Defined.

(** ** Time stamps *)

Lemma retimeTrack_cleared f t : cache t = [] -> retimeTrack f t = t.
Proof. destruct t. cbn. intros ->. reflexivity. Qed.

Lemma retime_cleared f s :
  Forall (fun t => cache t = []) (tracks s) -> retime f s = s.
Proof.
  destruct s as [ts a v w p c st ci em]. unfold retime. cbn. intros H.
  f_equal. induction H as [| t r Ht _ IH]; [reflexivity | ].
  cbn [map]. rewrite IH, retimeTrack_cleared by assumption. reflexivity.
Qed.

Lemma codecInfo_retime f t : codecInfo (retimeTrack f t) = codecInfo t.
Proof.
  unfold codecInfo, retimeTrack.
  cbn [set_cache type cache channels samplerate width height].
  destruct (cache t) as [| c0 r]; reflexivity.
Qed.

Lemma trak_retime f i t : trak i (retimeTrack f t) = trak i t.
Proof.
  unfold trak. rewrite codecInfo_retime. reflexivity.
Qed.

Lemma traks_retime f tracks : forall i,
  traks i (map (retimeTrack f) tracks) = traks i tracks.
Proof.
  induction tracks as [| t r IH]; intros i; cbn [map traks]; [reflexivity | ].
  rewrite trak_retime, IH. reflexivity.
Qed.

Lemma generateHeader_retime f this :
  generateHeader (retime f this) = generateHeader this.
Proof.
  unfold generateHeader.
  cbn [retime tracks audioTrackId videoTrackId waitForAdditionalData filePos
       chunkIndex emitted].
  rewrite traks_retime. unfold len_tracks. rewrite length_map, map_map.
  reflexivity.
Qed.

Lemma pushAt_retime f tracks : forall n c,
  pushAt (map (retimeTrack f) tracks) n (retimeSample f c)
  = map (retimeTrack f) (pushAt tracks n c).
Proof.
  induction tracks as [| t r IH]; intros [| n] c; cbn [map pushAt];
    try reflexivity.
  - unfold retimeTrack. cbn [set_cache cache]. rewrite map_app. reflexivity.
  - rewrite IH. reflexivity.
Qed.

Lemma cachePush_retime f this id c :
  cachePush (retime f this) id (retimeSample f c)
  = map_result (retime f) (cachePush this id c).
Proof.
  unfold cachePush, trackAt. cbn [retime tracks].
  destruct (id <? 0); [reflexivity | ].
  rewrite nth_error_map.
  destruct (nth_error (tracks this) (Z.to_nat id)); [ | reflexivity].
  cbn [option_map map_result]. unfold retime.
  cbn [tracks audioTrackId videoTrackId waitForAdditionalData filePos
       cachedPackets state chunkIndex emitted].
  rewrite pushAt_retime. reflexivity.
Qed.

(** A step that may emit, followed by the rest of the call. *)
Lemma emit_retime (c : bool) (e : MP4Mux -> result MP4Mux) f s
    (K K' : MP4Mux -> result MP4Mux) :
  e (retime f s) = e s ->
  (forall x, e s = Ok x -> Forall (fun t => cache t = []) (tracks x)) ->
  (forall x, K' (retime f x) = map_result (retime f) (K x)) ->
  bind (if c then e (retime f s) else Ok (retime f s)) K'
  = map_result (retime f) (bind (if c then e s else Ok s) K).
Proof.
  intros He Hc HK. destruct c; [ | apply HK].
  rewrite He. destruct (e s) as [x | err] eqn:Ex; [ | reflexivity].
  cbn [bind]. rewrite <- (retime_cleared f x) at 1 by (apply Hc; reflexivity).
  apply HK.
Qed.

Lemma header_cleared this x :
  generateHeader this = Ok x -> Forall (fun t => cache t = []) (tracks x).
Proof.
  intros H. apply generateHeader_inv in H. destruct H as (? & ? & _ & ->).
  apply afterHeader_cleared.
Qed.

(** [pushPacket] up to the [switch] commutes with a change of time stamps. *)
Lemma intake_retime f this type data ts :
  intake (retime f this) type data (f ts)
  = map_result (retime f) (intake this type data ts).
Proof.
  unfold intake.
  change (state (retime f this)) with (state this).
  change (waitForAdditionalData (retime f this))
    with (waitForAdditionalData this).
  apply emit_retime;
    [apply generateHeader_retime | apply header_cleared | ].
  intros s.
  destruct (type =? AUDIO_PACKET).
  - cbv zeta.
    destruct (AudioPacket.codecId (parseAudiodata data) =? MP3_SOUND_CODEC_ID).
    + cbn [bind]. apply (cachePush_retime f s _
                           {| packet := Audio (parseAudiodata data);
                              timestamp := ts |}).
    + destruct (AudioPacket.codecId (parseAudiodata data)
                =? AAC_SOUND_CODEC_ID); [ | reflexivity].
      change (state (retime f s)) with (state s).
      apply emit_retime;
        [apply generateHeader_retime | apply header_cleared | ].
      intros x. apply (cachePush_retime f x _
                         {| packet := Audio (parseAudiodata data);
                            timestamp := ts |}).
  - destruct (type =? VIDEO_PACKET); [ | reflexivity].
    cbv zeta.
    assert (Hpush : forall x,
              cachePush (retime f x) (videoTrackId (retime f x))
                {| packet := Video (parseVideodata data); timestamp := f ts |}
              = map_result (retime f)
                  (cachePush x (videoTrackId x)
                     {| packet := Video (parseVideodata data);
                        timestamp := ts |})).
    { intros x. apply (cachePush_retime f x _
                         {| packet := Video (parseVideodata data);
                            timestamp := ts |}). }
    destruct (VideoPacket.codecId (parseVideodata data) =? VP6_VIDEO_CODEC_ID).
    + change (cachedPackets (retime f s)) with (cachedPackets s).
      apply emit_retime; [apply _chunk_retime | apply _chunk_cleared | ].
      exact Hpush.
    + destruct (VideoPacket.codecId (parseVideodata data)
                =? AVC_VIDEO_CODEC_ID); [ | reflexivity].
      change (state (retime f s)) with (state s).
      rewrite !bind_assoc.
      apply emit_retime;
        [apply generateHeader_retime | apply header_cleared | ].
      intros x. change (cachedPackets (retime f x)) with (cachedPackets x).
      apply emit_retime; [apply _chunk_retime | apply _chunk_cleared | ].
      exact Hpush.
Qed.

Lemma ceiling_retime (c : bool) f s :
  (if c then _chunk (retime f s) else Ok (retime f s))
  = map_result (retime f) (if c then _chunk s else Ok s).
Proof.
  destruct c; [ | reflexivity].
  rewrite _chunk_retime. destruct (_chunk s) as [x | e] eqn:E; [ | reflexivity].
  cbn [map_result]. rewrite (retime_cleared f x); [reflexivity | ].
  eapply _chunk_cleared. eassumption.
Qed.

Lemma call_retime f this c :
  call (retime f this) (retimeCall f c) = map_result (retime f) (call this c).
Proof.
  destruct c as [type data ts | ]; cbn [call retimeCall].
  - unfold pushPacket. rewrite intake_retime.
    destruct (intake this type data ts) as [s | e]; [ | reflexivity].
    cbn [map_result bind].
    change (cachedPackets (retime f s)) with (cachedPackets s).
    apply ceiling_retime.
  - unfold flush. change (cachedPackets (retime f this)) with (cachedPackets this).
    apply ceiling_retime.
Qed.

(** A series of calls commutes with a change of time stamps. *)
Lemma calls_retime f cs : forall this,
  calls (retime f this) (map (retimeCall f) cs)
  = map_result (retime f) (calls this cs).
Proof.
  induction cs as [| c cs IH]; intros this; cbn [map calls]; [reflexivity | ].
  rewrite call_retime. destruct (call this c) as [s | e]; [ | reflexivity].
  cbn [map_result bind]. apply IH.
Qed.

(** X23. Time stamps play no part in what a muxer emits. Two series of
    calls that differ only in the time stamps of their packets, made on a
    freshly constructed muxer, both return or both throw the same error; if
    they return, they have emitted the same buffers and left the same file
    position, fragment counter and cached durations, and the states differ
    at most in the time stamps of the pending samples. *)
Theorem timestamps_are_ignored metadata this0 cs cs' :
  constructor metadata = Ok this0 ->
  map (retimeCall (fun _ => t0)) cs = map (retimeCall (fun _ => t0)) cs' ->
  match calls this0 cs, calls this0 cs' with
  | Ok s, Ok s' =>
      emitted s = emitted s' /\ filePos s = filePos s' /\
      chunkIndex s = chunkIndex s' /\
      map cachedDuration (tracks s) = map cachedDuration (tracks s') /\
      retime (fun _ => t0) s = retime (fun _ => t0) s'
  | Throw e, Throw e' => e = e'
  | _, _ => False
  end.
Proof.
  intros H0 Hcs.
  pose proof (constructor_Fresh _ _ H0) as [_ _ _ _ _ Hclr].
  pose proof (calls_retime (fun _ => t0) cs this0) as E.
  pose proof (calls_retime (fun _ => t0) cs' this0) as E'.
  rewrite (retime_cleared _ _ Hclr) in E, E'. rewrite Hcs, E' in E.
  destruct (calls this0 cs) as [s | e], (calls this0 cs') as [s' | e'];
    cbn [map_result] in E; try discriminate E.
  - assert (Er : retime (fun _ => t0) s = retime (fun _ => t0) s')
      by congruence.
    clear E. rename Er into E.
    split; [exact (f_equal emitted E) | ].
    split; [exact (f_equal filePos E) | ].
    split; [exact (f_equal chunkIndex E) | ].
    split; [ | exact E].
    apply (f_equal tracks) in E. cbn [retime tracks] in E.
    apply (f_equal (map cachedDuration)) in E. rewrite !map_map in E.
    exact E.
  - injection E as ->. reflexivity.
Qed.

(** X23 on two runs of the VP6-only muxer. *)
Lemma timestamps_are_ignored_witness :
  exists this0 s s',
    constructor legacyVideo = Ok this0 /\
    calls this0 [PushPacket 9 vp6Key (JS.of_Z 0);
                 PushPacket 9 vp6Inter (JS.of_Z 40);
                 PushPacket 9 vp6Key (JS.of_Z 80)] = Ok s /\
    calls this0 [PushPacket 9 vp6Key (JS.of_Z 1000);
                 PushPacket 9 vp6Inter (JS.of_Z 7);
                 PushPacket 9 vp6Key JS.NaN] = Ok s' /\
    emitted s = emitted s'.
Proof.
  eassert (H0 : constructor legacyVideo = Ok _) by (vm_compute; reflexivity).
  match type of H0 with
  | _ = Ok ?m =>
      pose proof (timestamps_are_ignored legacyVideo m
                    [PushPacket 9 vp6Key (JS.of_Z 0);
                     PushPacket 9 vp6Inter (JS.of_Z 40);
                     PushPacket 9 vp6Key (JS.of_Z 80)]
                    [PushPacket 9 vp6Key (JS.of_Z 1000);
                     PushPacket 9 vp6Inter (JS.of_Z 7);
                     PushPacket 9 vp6Key JS.NaN]
                    H0 eq_refl) as H
  end.
  run_from H0 [PushPacket 9 vp6Key (JS.of_Z 0);
               PushPacket 9 vp6Inter (JS.of_Z 40);
               PushPacket 9 vp6Key (JS.of_Z 80)] Hc.
  run_from H0 [PushPacket 9 vp6Key (JS.of_Z 1000);
               PushPacket 9 vp6Inter (JS.of_Z 7);
               PushPacket 9 vp6Key JS.NaN] Hc'.
  rewrite Hc, Hc' in H. destruct H as (He & _).
  eexists _, _, _.
  split; [exact H0 | split; [exact Hc | split; [exact Hc' | exact He]]].
Defined.

(** ** Construction from track descriptors *)

Lemma lastAt_skip {A} (p : A -> bool) x l i none k :
  p x = false -> lastAt p l (i + 1) none k -> lastAt p (x :: l) i none k.
Proof.
  intros Hx [(-> & Hl) | (pre & y & post & -> & Hy & Hp & ->)].
  - left. split; [reflexivity | constructor; assumption].
  - right. exists (x :: pre), y, post.
    split; [reflexivity | split; [assumption | split; [assumption | ]]].
    cbn [List.length]. lia.
Qed.

Lemma lastAt_hit {A} (p : A -> bool) x l i none k :
  p x = true -> lastAt p l (i + 1) i k -> lastAt p (x :: l) i none k.
Proof.
  intros Hx [(-> & Hl) | (pre & y & post & -> & Hy & Hp & ->)].
  - right. exists [], x, l.
    split; [reflexivity | split; [assumption | split; [assumption | ]]].
    cbn [List.length]. lia.
  - right. exists (x :: pre), y, post.
    split; [reflexivity | split; [assumption | split; [assumption | ]]].
    cbn [List.length]. lia.
Qed.

(** The loop over the descriptors. *)
Lemma trackinfoLoop_spec metadata infos : forall i ts a v,
  exists a' v',
    trackinfoLoop metadata infos i (ts, a, v)
    = (ts ++ map (descriptorTrack metadata) infos, a', v') /\
    lastAt (isAudioInfo metadata) infos i a a' /\
    lastAt (isVideoInfo metadata) infos i v v'.
Proof.
  induction infos as [| info rest IH]; intros i ts a v; cbn [trackinfoLoop map].
  - exists a, v. rewrite app_nil_r.
    split; [reflexivity | split; left; split; constructor || reflexivity].
  - destruct (is_sampletype (sampletype info) (audiocodecid metadata)) eqn:Ea;
      [ | destruct (is_sampletype (sampletype info) (videocodecid metadata))
            eqn:Ev];
      match goal with
      | |- context [trackinfoLoop _ _ _ (ts ++ [?t], ?x, ?y)] =>
          replace t with (descriptorTrack metadata info)
            by (unfold descriptorTrack; rewrite ?Ea, ?Ev; reflexivity);
          destruct (IH (i + 1) (ts ++ [descriptorTrack metadata info]) x y)
            as (a' & v' & E & Ha & Hv)
      end;
      exists a', v'; rewrite E, <- app_assoc;
      (split; [reflexivity | split]).
    + apply lastAt_hit; assumption.
    + apply lastAt_skip; [ | assumption].
      unfold isVideoInfo, isAudioInfo. rewrite Ea. reflexivity.
    + apply lastAt_skip; assumption.
    + apply lastAt_hit; [ | assumption].
      unfold isVideoInfo, isAudioInfo. rewrite Ea, Ev. reflexivity.
    + apply lastAt_skip; assumption.
    + apply lastAt_skip; [ | assumption].
      unfold isVideoInfo, isAudioInfo. rewrite Ea, Ev. reflexivity.
Qed.

(** X24. Construction from track descriptors never throws. It builds one
    track per descriptor, in order, with the language, sample type and time
    scale of the descriptor; the audio track is the last descriptor whose
    sample type is the audio codec id and takes the sample rate and the
    channels of the metadata, the video track is the last other descriptor
    whose sample type is the video codec id and takes the frame rate, width
    and height; a track id is -1 when no descriptor matches. The muxer waits
    for additional data, in state 0, with nothing emitted. *)
Theorem deferred_configuration metadata infos :
  trackinfo metadata = Some infos ->
  exists this,
    constructor metadata = Ok this /\
    tracks this = map (descriptorTrack metadata) infos /\
    map type (tracks this) = map sampletype infos /\
    lastAt (isAudioInfo metadata) infos 0 (-1) (audioTrackId this) /\
    lastAt (isVideoInfo metadata) infos 0 (-1) (videoTrackId this) /\
    waitForAdditionalData this = true /\ state this = 0 /\
    emitted this = [].
Proof.
  intros H. unfold constructor. rewrite H.
  destruct (trackinfoLoop_spec metadata infos 0 [] (-1) (-1))
    as (a & v & -> & Ha & Hv).
  eexists. split; [reflexivity | ].
  cbn [mkMux tracks audioTrackId videoTrackId waitForAdditionalData state
       emitted app].
  split; [reflexivity | split; [ | auto]].
  rewrite map_map. apply map_ext. intros info. unfold descriptorTrack.
  destruct (is_sampletype _ (audiocodecid metadata));
    [ | destruct (is_sampletype _ (videocodecid metadata))]; reflexivity.
Qed.

(** X24 on the AAC + AVC descriptors. *)
Lemma deferred_configuration_witness :
  exists this,
    constructor deferredAacAvc = Ok this /\
    map type (tracks this) = ["mp4a"; "avc1"]%string /\
    audioTrackId this = 0 /\ videoTrackId this = 1 /\
    waitForAdditionalData this = true.
Proof.
  destruct (deferred_configuration deferredAacAvc _ eq_refl)
    as (this & Hc & _ & Hty & _ & _ & Hw & _).
  exists this. split; [exact Hc | split; [exact Hty | ]].
  vm_compute in Hc. injection Hc as <-.
  split; [reflexivity | split; reflexivity].
Defined.

(** ** The track box and its sample entry *)

Lemma codecInfo_isAudio t ci a :
  codecInfo t = Ok (ci, a) -> a = isAudioTrack t.
Proof.
  unfold codecInfo, isAudioTrack.
  destruct (type t =? "mp4a")%string;
    [ | destruct (type t =? "mp3")%string;
        [ | destruct (type t =? "avc1")%string;
            [ | destruct (type t =? "vp6f")%string; [ | discriminate]]]];
    try (destruct (cache t); [discriminate | ]);
    intros H;
    repeat (apply bind_ok in H; destruct H as (? & _ & H));
    injection H as _ <-; reflexivity.
Qed.

(** X25. The [trak] box of the track at index [i]: a track header with the
    track id i + 1, the alternate group i, volume 1.0 for an audio track and
    0 for a video track, and the width and height of a video track in 16.16
    format (0 for an audio track); then a media box whose header stores the
    time scale in 16 bits (a time scale of 65536 or more is cut to its low
    16 bits), the duration FFFFFFFF and the language code, followed by the
    sound or video handler and the media information with the sample entry
    of the track. *)
Theorem track_box_layout i t b :
  trak i t = Ok b ->
  exists sampleEntry,
    codecInfo t = Ok (sampleEntry, isAudioTrack t) /\
    b = box "trak"
          (TKHD ++ encodeInt32 (i + 1) ++ TKHD_FLAGS ++ encodeUint16 i
           ++ (if isAudioTrack t then [1; 0] else [0; 0])
           ++ TKHD_MATRIX
           ++ (if isAudioTrack t then [0; 0; 0; 0; 0; 0; 0; 0]
               else encodeFloat (width t) ++ encodeFloat (height t))
           ++ box "mdia"
                (MDHD ++ encodeUint16 (JS.ToInt32 (timescale t))
                 ++ hex "FFFFFFFF" ++ encodeLang (language t)
                 ++ (if isAudioTrack t then HDLR_SOUN else HDLR_VIDE)
                 ++ box "minf"
                      ((if isAudioTrack t then SMHD_DINF else VMHD_DINF)
                       ++ box "stbl"
                            (box "stsd" (hex "0000000000000001"
                                         ++ sampleEntry)
                             ++ STBL_TAIL)))).
Proof.
  unfold trak. intros H.
  apply bind_ok in H. destruct H as ([ci isAudio] & Hci & H).
  pose proof (codecInfo_isAudio _ _ _ Hci) as Ea.
  apply bind_ok in H. destruct H as (stsd & Hstsd & H).
  apply bind_ok in H. destruct H as (stbl & Hstbl & H).
  exists ci. rewrite <- Ea. split; [exact Hci | ].
  apply tag_box in Hstsd, Hstbl. cbn [flatten map concat] in Hstsd, Hstbl.
  rewrite app_nil_r in Hstsd, Hstbl. subst stsd stbl.
  destruct isAudio;
    apply bind_ok in H; destruct H as (minf & Hminf & H);
    apply bind_ok in H; destruct H as (mdia & Hmdia & H);
    apply tag_box in Hminf, Hmdia, H;
    cbn [flatten map concat] in Hminf, Hmdia, H;
    rewrite app_nil_r in Hminf, Hmdia, H; subst minf mdia b;
    reflexivity.
Qed.

(** X25 on a VP6 track of time scale 90000, stored as 0x5F90 = 24464. *)
Lemma track_box_layout_witness :
  exists b rest,
    trak 1 {| language := "und"; type := "vp6f";
              timescale := JS.of_Z 90000; cache := []; cachedDuration := 0;
              samplerate := JS.NaN; channels := JS.NaN;
              framerate := JS.of_Z 25;
              width := JS.of_Z 320; height := JS.of_Z 240 |} = Ok b /\
    b = box "trak"
          (TKHD ++ encodeInt32 2 ++ TKHD_FLAGS ++ [0; 1] ++ [0; 0]
           ++ TKHD_MATRIX ++ ([0x01; 0x40; 0; 0] ++ [0; 0xF0; 0; 0])
           ++ box "mdia" (MDHD ++ [0x5F; 0x90] ++ rest)).
Proof.
  eassert (Hb : trak 1 {| language := "und"; type := "vp6f";
                          timescale := JS.of_Z 90000; cache := [];
                          cachedDuration := 0;
                          samplerate := JS.NaN; channels := JS.NaN;
                          framerate := JS.of_Z 25;
                          width := JS.of_Z 320; height := JS.of_Z 240 |}
                = Ok _) by (vm_compute; reflexivity).
  destruct (track_box_layout _ _ _ Hb) as (entry & _ & E).
  eexists _, _. split; [exact Hb | exact E].
Defined.

Lemma patch_byte b : 0 <= b < 256 -> JS.bor b 0xE0 mod 256 = Z.lor b 0xE0.
Proof.
  intros Hb. apply Z.eqb_eq.
  apply (forall_byte (fun b => JS.bor b 0xE0 mod 256 =? Z.lor b 0xE0));
    [vm_compute; reflexivity | assumption].
Qed.

(** The patched record, index by index. *)
Lemma avcCPatched_nth avcC k :
  nth_error (avcCPatched avcC) k
  = if (k =? 5)%nat
    then option_map (fun b => JS.bor b 0xE0 mod 256) (nth_error avcC 5)
    else nth_error avcC k.
Proof.
  unfold avcCPatched, at_.
  destruct (nth_error avcC 5) as [b | ] eqn:E.
  - assert (Hl : (5 < List.length avcC)%nat)
      by (apply nth_error_Some; congruence).
    destruct (Nat.eqb_spec k 5) as [-> | Hk].
    + rewrite nth_error_app2; rewrite length_firstn; [ | lia].
      replace (5 - Nat.min 5 (List.length avcC))%nat with 0%nat by lia.
      reflexivity.
    + destruct (Nat.ltb_spec k 5).
      * rewrite nth_error_app1 by (rewrite length_firstn; lia).
        rewrite nth_error_firstn.
        destruct (Nat.ltb_spec k 5); [reflexivity | lia].
      * rewrite nth_error_app2; rewrite length_firstn; [ | lia].
        replace (k - Nat.min 5 (List.length avcC))%nat
          with (S (k - 6)) by lia.
        cbn [nth_error]. rewrite nth_error_skipn. f_equal. lia.
  - destruct (Nat.eqb_spec k 5) as [-> | Hk]; [ | reflexivity].
    rewrite E. reflexivity.
Qed.

(** X26. The sample entry of an AVC track wraps, in an [avcC] box, the
    payload of the first cached sample with the bits 0xE0 of its byte 5 set:
    the record has the length of the payload and agrees with it at every
    other index. *)
Theorem avc_sample_entry t c0 rest :
  type t = "avc1"%string -> cache t = c0 :: rest ->
  len (packet_data (packet c0)) <= 0xFFFFFF ->
  exists record,
    codecInfo t
    = Ok (box "avc1"
            (hex "000000000000000100000000000000000000000000000000"
             ++ encodeUint16 (JS.ToInt32 (width t))
             ++ encodeUint16 (JS.ToInt32 (height t))
             ++ hex "004800000048000000000000000100000000000000000000000000000000000000000000000000000000000000000018FFFF"
             ++ box "avcC" record), false) /\
    len record = len (packet_data (packet c0)) /\
    (forall k, k <> 5%nat ->
       nth_error record k = nth_error (packet_data (packet c0)) k) /\
    (forall b, nth_error (packet_data (packet c0)) 5 = Some b ->
       0 <= b < 256 -> nth_error record 5 = Some (Z.lor b 0xE0)).
Proof.
  intros Ht Hc Hsz. exists (avcCPatched (packet_data (packet c0))).
  pose proof (len_nonneg (packet_data (packet c0))) as H0.
  pose proof (len_avcCPatched (packet_data (packet c0))) as Hp.
  split; [ | split; [exact Hp | split]].
  - unfold codecInfo. rewrite Ht, Hc.
    cbn [String.eqb Ascii.eqb Bool.eqb]. cbv zeta.
    change (match at_ (packet_data (packet c0)) 5 with
            | Some b => firstn 5 (packet_data (packet c0))
                        ++ JS.bor b 0xE0 mod 256
                           :: skipn 6 (packet_data (packet c0))
            | None => packet_data (packet c0)
            end) with (avcCPatched (packet_data (packet c0))).
    rewrite (tag_ok "avcC") by (first [reflexivity | cbn [flatten]; lia]).
    cbn [bind].
    rewrite (tag_ok "avc1");
      [ | reflexivity
        | cbn [flatten map concat];
          rewrite ?len_app, ?len_nil, ?len_encodeUint16, ?len_encodeInt32,
            len_strBytes;
          len_consts; cbn [flatten]; change (strlen "avcC") with 4; lia ].
    cbn [bind flatten map concat]. rewrite app_nil_r. reflexivity.
  - intros k Hk. rewrite avcCPatched_nth.
    destruct (Nat.eqb_spec k 5); [contradiction | reflexivity].
  - intros b Hb Hr. rewrite avcCPatched_nth, Hb. cbn [Nat.eqb option_map].
    rewrite patch_byte by assumption. reflexivity.
Qed.

(** X26 on the deferred AVC muxer: byte 5 is 0x01 and becomes 0xE1. *)
Lemma avc_sample_entry_witness :
  exists this0 this1 t record entry,
    constructor deferredAvc = Ok this0 /\
    pushPacket this0 9 avcConfig t0 = Ok this1 /\
    tracks this1 = [t] /\
    codecInfo t = Ok (entry, false) /\
    len record = 8 /\ nth_error record 5 = Some 0xE1.
Proof.
  eassert (H0 : constructor deferredAvc = Ok _) by (vm_compute; reflexivity).
  match type of H0 with
  | _ = Ok ?m =>
      eassert (H1 : pushPacket m 9 avcConfig t0 = Ok _)
        by (vm_compute; reflexivity)
  end.
  match type of H1 with
  | _ = Ok ?m => eassert (Ht : tracks m = [_]) by reflexivity
  end.
  match type of Ht with
  | _ = [?t] =>
      destruct (avc_sample_entry t (videoSample avcConfig t0) [])
        as (record & Hci & Hlen & _ & H5)
  end.
  - reflexivity.
  - reflexivity.
  - vm_compute. discriminate.
  - specialize (H5 1 eq_refl ltac:(lia)).
    eexists _, _, _, record, _.
    split; [exact H0 | split; [exact H1 | split; [exact Ht | ]]].
    split; [exact Hci | split; [exact Hlen | exact H5]].
Defined.

(** X27. The sample entry of an AAC track carries the channels, the sample
    rate and an [esds] box that embeds the payload of the first cached
    sample unchanged; the three descriptor lengths of that box are the
    single bytes 32 + n, 18 + n and n modulo 256, for a payload of n
    bytes. *)
Theorem aac_sample_entry t c0 rest :
  type t = "mp4a"%string -> cache t = c0 :: rest ->
  let config := packet_data (packet c0) in
  len config <= 0xFFFFFF ->
  codecInfo t
  = Ok (box "mp4a"
          (hex "00000000000000010000000000000000"
           ++ encodeUint16 (JS.ToInt32 (channels t))
           ++ hex "00100000"
           ++ encodeInt32 (JS.ToInt32 (samplerate t))
           ++ hex "0000"
           ++ box "esds"
                (hex "0000000003808080" ++ [(32 + len config) mod 256]
                 ++ hex "00020004808080" ++ [(18 + len config) mod 256]
                 ++ hex "40150000000000FA000000000005808080"
                 ++ [len config mod 256]
                 ++ config ++ hex "068080800102")), true).
Proof.
  intros Ht Hc config Hsz.
  pose proof (len_nonneg config) as H0.
  unfold codecInfo. rewrite Ht, Hc.
  cbn [String.eqb Ascii.eqb Bool.eqb]. cbv zeta. fold config.
  rewrite (tag_ok "esds");
    [ | reflexivity
      | cbn [flatten map concat];
        rewrite ?len_app, ?len_cons, ?len_nil; len_consts; lia ].
  cbn [bind].
  rewrite (tag_ok "mp4a");
    [ | reflexivity
      | cbn [flatten map concat];
        rewrite ?len_app, ?len_cons, ?len_nil, ?len_encodeUint16,
          ?len_encodeInt32, ?len_strBytes;
        len_consts; change (strlen "esds") with 4; lia ].
  cbn [bind flatten map concat]. rewrite !app_nil_r. reflexivity.
Qed.

(** X27 on a two-byte AudioSpecificConfig. *)
Lemma aac_sample_entry_witness :
  exists this0 this1 t esds,
    constructor (deferredAac 44100) = Ok this0 /\
    pushPacket this0 8 aacConfig t0 = Ok this1 /\
    tracks this1 = [t] /\
    codecInfo t
    = Ok (box "mp4a"
            (hex "00000000000000010000000000000000" ++ [0; 2]
             ++ hex "00100000" ++ [0; 0; 0xAC; 0x44] ++ hex "0000"
             ++ box "esds" esds), true) /\
    esds = hex "0000000003808080" ++ [34] ++ hex "00020004808080" ++ [20]
           ++ hex "40150000000000FA000000000005808080" ++ [2]
           ++ [0x12; 0x10] ++ hex "068080800102".
Proof.
  eassert (H0 : constructor (deferredAac 44100) = Ok _)
    by (vm_compute; reflexivity).
  match type of H0 with
  | _ = Ok ?m =>
      eassert (H1 : pushPacket m 8 aacConfig t0 = Ok _)
        by (vm_compute; reflexivity)
  end.
  match type of H1 with
  | _ = Ok ?m => eassert (Ht : tracks m = [_]) by reflexivity
  end.
  match type of Ht with
  | _ = [?t] =>
      pose proof (aac_sample_entry t
                    {| packet := Audio (parseAudiodata aacConfig);
                       timestamp := t0 |} [] eq_refl eq_refl
                    ltac:(vm_compute; discriminate)) as Hci
  end.
  eexists _, _, _, _.
  split; [exact H0 | split; [exact H1 | split; [exact Ht | ]]].
  split; [exact Hci | reflexivity].
Defined.

(** ** Fragments that cannot be built, and the size of those that can *)

Lemma trafPart_unsupported i t :
  isAudioTrack t || isVideoTrack t = false ->
  trafPart i t = Throw UnsupportedCodec.
Proof.
  unfold isAudioTrack, isVideoTrack, trafPart. intros H.
  apply orb_false_iff in H. destruct H as [Ha Hv].
  rewrite (tag_ok "tfdt");
    [ | reflexivity
      | cbn [flatten map concat];
        rewrite ?len_app, ?len_nil, ?len_encodeInt32; len_consts; lia ].
  cbn [bind]. rewrite Ha, Hv. reflexivity.
Qed.

(** The first loop of [_chunk] stops at the first track it has no case for. *)
Lemma trafParts_unsupported pre t post : forall i,
  Forall (fun t => cache t = [] \/ isAudioTrack t || isVideoTrack t = true)
         pre ->
  cache t <> [] -> isAudioTrack t || isVideoTrack t = false ->
  trafParts i (pre ++ t :: post) = Throw UnsupportedCodec.
Proof.
  induction pre as [| t0 r IH]; intros i Hpre Hc Ht; cbn [app trafParts].
  - destruct (cache t); [contradiction | ].
    rewrite trafPart_unsupported by assumption. reflexivity.
  - inversion Hpre as [| ? ? H0 Hr]; subst.
    destruct (cache t0) eqn:E0.
    + rewrite (IH _ Hr Hc Ht). reflexivity.
    + destruct H0 as [H0 | H0]; [discriminate | ].
      destruct (trafPart_returns i t0 H0) as (part & -> & _).
      cbn [bind]. rewrite (IH _ Hr Hc Ht). reflexivity.
Qed.

(** X28. [_chunk] throws 'unsupported codec' when the first track it cannot
    build a run for holds a sample: a track that is neither 'mp4a', 'mp3',
    'avc1' nor 'vp6f', its cache not empty, all tracks before it being
    empty or of those types. Tracks with an empty cache are passed over
    whatever their type. A [flush] with samples pending then throws the
    same error. *)
Theorem fragment_of_unsupported_track this pre t post :
  tracks this = pre ++ t :: post ->
  Forall (fun t => cache t = [] \/ isAudioTrack t || isVideoTrack t = true)
         pre ->
  cache t <> [] -> isAudioTrack t || isVideoTrack t = false ->
  _chunk this = Throw UnsupportedCodec /\
  (0 < cachedPackets this -> flush this = Throw UnsupportedCodec) /\
  kind_of UnsupportedCodec = Some UnsupportedCodecError.
Proof.
  intros Htr Hpre Hc Ht.
  assert (E : _chunk this = Throw UnsupportedCodec).
  { unfold _chunk. rewrite Htr, trafParts_unsupported by assumption.
    reflexivity. }
  split; [exact E | split; [ | reflexivity]].
  intros Hn. unfold flush.
  destruct (Z.gtb_spec (cachedPackets this) 0); [exact E | lia].
Qed.

(** X28 on a deferred muxer whose audio descriptor has the sample type
    '.mp3': the MP3 frame is cached, the flush throws. *)
Lemma fragment_of_unsupported_track_witness :
  exists this0 this1,
    constructor deferredDotMp3 = Ok this0 /\
    pushPacket this0 8 mp3Frame t0 = Ok this1 /\
    cachedPackets this1 = 1 /\
    flush this1 = Throw UnsupportedCodec.
Proof.
  eassert (H0 : constructor deferredDotMp3 = Ok _) by (vm_compute; reflexivity).
  match type of H0 with
  | _ = Ok ?m =>
      eassert (H1 : pushPacket m 8 mp3Frame t0 = Ok _)
        by (vm_compute; reflexivity)
  end.
  match type of H1 with
  | _ = Ok ?m => eassert (Ht : tracks m = [] ++ _ :: []) by reflexivity
  end.
  destruct (fragment_of_unsupported_track _ _ _ _ Ht) as (_ & Hf & _).
  - constructor.
  - discriminate.
  - reflexivity.
  - eexists _, _.
    split; [exact H0 | split; [exact H1 | split; [reflexivity | ]]].
    apply Hf. reflexivity.
Defined.

Lemma trafPart_fits i t part : trafPart i t = Ok part -> fitting t part.
Proof.
  intros H.
  destruct (isAudioTrack t || isVideoTrack t) eqn:E.
  - destruct (trafPart_returns i t E) as (part' & H' & Hf). congruence.
  - rewrite trafPart_unsupported in H by assumption. discriminate.
Qed.

Lemma contributing_sizes tracks : forall i parts,
  Forall2 (fun it part => trafPart (fst it) (snd it) = Ok part)
          (contributing i tracks) parts ->
  sumZ (map trafSize parts)
  = sumZ (map (fun it => 76 + 8 * cacheLength (snd it)) (contributing i tracks))
  /\ Forall (fun part => len (tfdt part) = 16) parts.
Proof.
  intros i parts H. unfold sumZ.
  induction H as [| it part l l' Hit _ IH]; cbn [map fold_right].
  - split; [reflexivity | constructor].
  - destruct IH as [IH1 IH2]. apply trafPart_fits in Hit.
    destruct Hit as (F1 & F2 & F3 & F4 & _).
    split; [ | constructor; assumption].
    rewrite IH1. unfold trafSize. lia.
Qed.

Lemma len_tdats tracks :
  len (flat_map tdatOf tracks) = sumZ (map (fun t => len (tdatOf t)) tracks).
Proof.
  unfold sumZ. induction tracks as [| t r IH];
    cbn [flat_map map fold_right]; [reflexivity | ].
  rewrite len_app, IH. reflexivity.
Qed.

(** X29. The length of a fragment: 32 bytes, 76 bytes for every track with
    a non-empty cache, 8 bytes for every sample, and the payloads of the
    samples; [filePos] advances by that much. *)
Theorem fragment_length this this' :
  _chunk this = Ok this' ->
  exists chunk,
    emitted this' = emitted this ++ [Fragment chunk] /\
    len chunk = 32 + trackOverhead (tracks this) + payloadBytes (tracks this) /\
    filePos this' = filePos this + len chunk.
Proof.
  intros H. apply _chunk_inv in H.
  destruct H as (parts & tracks' & moofParts & moof & mdat
                 & Hp & Htr & Hmoof & Hmdat & ->).
  exists (moof ++ mdat). cbn [afterChunk emitted filePos].
  split; [reflexivity | split; [ | reflexivity]].
  apply trafParts_spec in Hp. destruct Hp as (Hf & _).
  destruct (contributing_sizes _ _ _ Hf) as (Hsz & H16).
  pose proof (trafs_len _ _ _ Htr H16) as Hl.
  apply tag_box in Hmoof, Hmdat. cbn [flatten map concat] in Hmoof.
  rewrite flatten_bytes in Hmoof.
  cbn [flatten] in Hmdat. rewrite <- (map_map tdat Bytes), flatten_bytes in Hmdat.
  assert (Htd : Forall2 (fun it part => tdat part = tdatOf (snd it))
                        (contributing 0 (tracks this)) parts).
  { eapply Forall2_impl; [ | exact Hf]. intros it part Hit.
    apply trafPart_inv in Hit. tauto. }
  rewrite (contributing_tdats _ _ _ Htd) in Hmdat.
  subst moof mdat.
  rewrite len_app, !len_box, len_app, Hl, Hsz by reflexivity.
  unfold trackOverhead, payloadBytes.
  rewrite len_tdats. unfold moofHeaderOf. cbn [flatten map concat].
  rewrite !len_app, len_nil, len_encodeInt32. len_consts. lia.
Qed.

(** X29 on two VP6 inter frames of three bytes each: 130 bytes. *)
Lemma fragment_length_witness :
  exists this this' chunk,
    _chunk this = Ok this' /\
    emitted this' = emitted this ++ [Fragment chunk] /\
    len chunk = 130.
Proof.
  eassert (H0 : constructor legacyVideo = Ok _) by (vm_compute; reflexivity).
  run_from H0 [push 9 vp6Inter; push 9 vp6Inter] Hc.
  match type of Hc with
  | _ = Ok ?m => eassert (Hk : _chunk m = Ok _) by (vm_compute; reflexivity)
  end.
  destruct (fragment_length _ _ Hk) as (chunk & He & Hl & _).
  eexists _, _, chunk. split; [exact Hk | split; [exact He | exact Hl]].
Defined.

(** ** Hexadecimal literals *)

Lemma hexDigit_hexChar upper d :
  0 <= d < 16 -> hexDigit (hexChar upper d) = Some d.
Proof.
  intros Hd.
  assert (E : d = 0 \/ d = 1 \/ d = 2 \/ d = 3 \/ d = 4 \/ d = 5 \/ d = 6
              \/ d = 7 \/ d = 8 \/ d = 9 \/ d = 10 \/ d = 11 \/ d = 12
              \/ d = 13 \/ d = 14 \/ d = 15) by lia.
  destruct upper;
    repeat (destruct E as [-> | E]; [reflexivity | ]); subst; reflexivity.
Qed.

Lemma hex_length_pair s :
  len (hex s) = strlen s / 2 /\
  forall c, len (hex (String c s)) = (strlen s + 1) / 2.
Proof.
  induction s as [| c1 s IH].
  - split; [reflexivity | intros c; reflexivity].
  - destruct IH as [IH0 IH1].
    assert (E : strlen (String c1 s) = strlen s + 1)
      by (unfold strlen; cbn [String.length]; lia).
    split; [rewrite E; apply IH1 | ].
    intros c. cbn [hex]. rewrite len_cons, IH0, E.
    unfold strlen.
    replace (Z.of_nat (String.length s) + 1 + 1)
      with (Z.of_nat (String.length s) + 1 * 2) by lia.
    rewrite Z.div_add by lia. lia.
Qed.

(** X30. [hex] decodes hexadecimal text: the text that prints a series of
    bytes with two digits each, in upper or in lower case, decodes to these
    bytes; [hex] returns half as many bytes as its argument has characters,
    rounded down, so an odd last character is dropped. *)
Theorem hex_decodes :
  (forall upper bytes,
     Forall (fun b => 0 <= b < 256) bytes ->
     hex (toHex upper bytes) = bytes) /\
  (forall s, len (hex s) = strlen s / 2) /\
  (forall upper bytes c,
     Forall (fun b => 0 <= b < 256) bytes ->
     hex (toHex upper bytes ++ String c EmptyString) = bytes).
Proof.
  split; [ | split].
  - intros upper bytes H. induction H as [| b r Hb _ IH]; [reflexivity | ].
    cbn [toHex hex]. rewrite IH. f_equal. unfold parseInt16.
    rewrite !hexDigit_hexChar.
    + pose proof (Z.div_mod b 16 ltac:(lia)). lia.
    + apply Z.mod_pos_bound. lia.
    + split; [apply Z.div_pos; lia | apply Z.div_lt_upper_bound; lia].
  - intros s. apply hex_length_pair.
  - intros upper bytes c H. induction H as [| b r Hb _ IH]; [reflexivity | ].
    cbn [toHex hex String.append]. rewrite IH. f_equal. unfold parseInt16.
    rewrite !hexDigit_hexChar.
    + pose proof (Z.div_mod b 16 ltac:(lia)). lia.
    + apply Z.mod_pos_bound. lia.
    + split; [apply Z.div_pos; lia | apply Z.div_lt_upper_bound; lia].
Qed.
